(** * Fastform AppSpec core

    A shallow embedding of the AppSpec validator ([lib/types/appspec.ts]),
    the naming heuristic ([lib/utils/app-naming.ts]), the prompt compiler
    ([lib/compiler/appspec-to-prompt]) and the parts of the chat route
    handlers ([app/api/chat]) that decide on stored specs, keep drafts and
    read the client address, followed by the properties established about
    them. *)

From Stdlib Require Import String Ascii List Bool Arith ZArith NArith QArith Lia.
From Stdlib Require Import DecimalString.
Import ListNotations.

#[local] Set Warnings "-register-all".
#[local] Set Warnings "-notation-overridden".
#[local] Set Warnings "-notation-incompatible-prefix".

Local Close Scope Q_scope.
Local Open Scope string_scope.
Local Open Scope list_scope.

(* ===================================================================== *)
(** * Part I: definitions *)
(* ===================================================================== *)

(** ** JavaScript values and completions *)

Module Js.

(** A JS number: NaN, an infinity, or a finite value (kept as a rational;
    only its sign/zero-ness and its kind are ever observed here). *)
Inductive JsNumber : Type :=
| NaN
| Infinity (negative : bool)
| Finite (q : Q).

(** The JSON-like values a document handed to the validator is made of,
    plus [undefined].  An object is its property list; reading a property
    returns the first binding of the name. *)
Inductive JsValue : Type :=
| JUndefined
| JNull
| JBool (b : bool)
| JNum (n : JsNumber)
| JStr (s : string)
| JArr (items : list JsValue)
| JObj (props : list (string * JsValue)).

Inductive JsError : Type :=
| TypeError (msg : string).

(** Outcome of evaluating an expression: a value or a thrown exception. *)
Inductive Completion (E A : Type) : Type :=
| Normal (a : A)
| Throw (e : E).
Arguments Normal {E A} a.
Arguments Throw {E A} e.

Definition bind {E A B} (c : Completion E A) (k : A -> Completion E B)
  : Completion E B :=
  match c with
  | Normal a => k a
  | Throw e => Throw e
  end.

Definition ret {E A} (a : A) : Completion E A := Normal a.

(** [a || b] and [a && b] on boolean-valued expressions: the right operand
    is evaluated only when the left one does not decide the result. *)
Definition jor {E} (a b : Completion E bool) : Completion E bool :=
  bind a (fun x => if x then Normal true else b).

Definition jand {E} (a b : Completion E bool) : Completion E bool :=
  bind a (fun x => if x then b else Normal false).

(** ToBoolean *)
Definition truthy (v : JsValue) : bool :=
  match v with
  | JUndefined | JNull => false
  | JBool b => b
  | JNum NaN => false
  | JNum (Infinity _) => true
  | JNum (Finite q) => negb (Qeq_bool q 0)
  | JStr s => negb (s =? EmptyString)
  | JArr _ | JObj _ => true
  end.

(** The [typeof] operator *)
Definition typeof (v : JsValue) : string :=
  match v with
  | JUndefined => "undefined"
  | JNull => "object"
  | JBool _ => "boolean"
  | JNum _ => "number"
  | JStr _ => "string"
  | JArr _ | JObj _ => "object"
  end.

Definition isArray (v : JsValue) : bool :=
  match v with
  | JArr _ => true
  | _ => false
  end.

Fixpoint lookup (k : string) (props : list (string * JsValue)) : JsValue :=
  match props with
  | [] => JUndefined
  | (k', v) :: rest => if k' =? k then v else lookup k rest
  end.

Definition numOfNat (n : nat) : JsValue := JNum (Finite (inject_Z (Z.of_nat n))).

(** Property read [v.k] for a property name [k] that is neither an array
    index nor the name of a built-in method (none of the names read by the
    validator is).  Reading from [undefined] or [null] throws a TypeError;
    primitives and arrays have no such property except [length]. *)
Definition Get (v : JsValue) (k : string) : Completion JsError JsValue :=
  match v with
  | JUndefined => Throw (TypeError "Cannot read properties of undefined")
  | JNull => Throw (TypeError "Cannot read properties of null")
  | JObj props => Normal (lookup k props)
  | JArr items => Normal (if k =? "length" then numOfNat (List.length items) else JUndefined)
  | JStr s => Normal (if k =? "length" then numOfNat (String.length s) else JUndefined)
  | JBool _ | JNum _ => Normal JUndefined
  end.

(** [v === JStr s] *)
Definition isString (s : string) (v : JsValue) : bool :=
  match v with
  | JStr s' => s' =? s
  | _ => false
  end.

(** [list.includes(v)] for an array literal of strings *)
Definition includes (list : list string) (v : JsValue) : bool :=
  existsb (fun s => isString s v) list.

(** [Array.prototype.every] on the elements of an array, with a callback
    whose result has already been converted by ToBoolean. *)
Fixpoint every {E A} (f : A -> Completion E bool) (items : list A)
  : Completion E bool :=
  match items with
  | [] => Normal true
  | x :: rest => bind (f x) (fun b => if b then every f rest else Normal false)
  end.

(** [v.every(f)]: a method call, which throws when [v] has no such method. *)
Definition callEvery (v : JsValue) (f : JsValue -> Completion JsError bool)
  : Completion JsError bool :=
  match v with
  | JArr items => every f items
  | JUndefined => Throw (TypeError "Cannot read properties of undefined")
  | JNull => Throw (TypeError "Cannot read properties of null")
  | _ => Throw (TypeError "every is not a function")
  end.

(** An expression that evaluates to a value, without throwing *)
Definition defined {E A} (c : Completion E A) : Prop := exists a, c = Normal a.

End Js.

Declare Scope js_scope.
Delimit Scope js_scope with js.
Notation "x <- c ;; k" := (Js.bind c (fun x => k))
  (at level 61, c at next level, right associativity) : js_scope.
Notation "a .|| b" := (Js.jor a b) (at level 52, right associativity) : js_scope.
Notation "a .&& b" := (Js.jand a b) (at level 42, right associativity) : js_scope.
Notation "v .[ k ]" := (Js.Get v k) (at level 1, format "v .[ k ]") : js_scope.

(** ** The validator: [lib/types/appspec.ts] *)

Module AppSpec.
Import Js.
Local Open Scope js_scope.

Definition Verdict := Completion JsError bool.

(** [typeof e === t] and [typeof e !== t] for a property read [e] *)
Definition typeofIs (e : Completion JsError JsValue) (t : string) : Verdict :=
  x <- e ;; ret (typeof x =? t).
Definition typeofIsNot (e : Completion JsError JsValue) (t : string) : Verdict :=
  x <- e ;; ret (negb (typeof x =? t)).
(** [e === "s"], [e !== "s"], [!e], [!!e], [Array.isArray(e)] *)
Definition isStr (e : Completion JsError JsValue) (s : string) : Verdict :=
  x <- e ;; ret (isString s x).
Definition isNotStr (e : Completion JsError JsValue) (s : string) : Verdict :=
  x <- e ;; ret (negb (isString s x)).
Definition falsy (e : Completion JsError JsValue) : Verdict :=
  x <- e ;; ret (negb (truthy x)).
Definition truthyE (e : Completion JsError JsValue) : Verdict :=
  x <- e ;; ret (truthy x).
Definition isArrayE (e : Completion JsError JsValue) : Verdict :=
  x <- e ;; ret (isArray x).
Definition notArrayE (e : Completion JsError JsValue) : Verdict :=
  x <- e ;; ret (negb (isArray x)).
(** [list.includes(e)] *)
Definition includesE (list : list string) (e : Completion JsError JsValue) : Verdict :=
  x <- e ;; ret (includes list x).
(** [e.p] where [e] is itself a property read *)
Definition GetE (e : Completion JsError JsValue) (k : string)
  : Completion JsError JsValue :=
  x <- e ;; x.[k].

(** validateRoles *)
Definition validateRoles (roles : JsValue) : Verdict :=
  if negb (isArray roles) then Normal false else
  callEvery roles (fun role =>
    ret (truthy role) .&&
    ret (typeof role =? "object") .&&
    (isStr role.["id"] "PATIENT" .|| isStr role.["id"] "STAFF") .&&
    typeofIs role.["authRequired"] "boolean").

Definition validPageTypes : list string :=
  ["welcome"; "form"; "review"; "success"; "login"; "list"; "detail"].

(** validatePages *)
Definition validatePages (pages : JsValue) : Verdict :=
  if negb (isArray pages) then Normal false else
  callEvery pages (fun page =>
    ret (truthy page) .&&
    ret (typeof page =? "object") .&&
    typeofIs page.["id"] "string" .&&
    typeofIs page.["route"] "string" .&&
    (isStr page.["role"] "PATIENT" .|| isStr page.["role"] "STAFF") .&&
    includesE validPageTypes page.["type"] .&&
    typeofIs page.["title"] "string").

Definition validStates : list string :=
  ["DRAFT"; "SUBMITTED"; "NEEDS_INFO"; "APPROVED"; "REJECTED"].

(** validateWorkflow *)
Definition validateWorkflow (workflow : JsValue) : Verdict :=
  if negb (truthy workflow) || negb (typeof workflow =? "object") then Normal false else
  let wf := workflow in
  bad <- (notArrayE wf.["states"] .||
          typeofIsNot wf.["initialState"] "string" .||
          notArrayE wf.["transitions"]) ;;
  if bad then Normal false else
  (* Validate states *)
  statesOk <- (states <- wf.["states"] ;;
               callEvery states (fun state => ret (includes validStates state))) ;;
  if negb statesOk then Normal false else
  (* Validate initialState *)
  initialOk <- includesE validStates wf.["initialState"] ;;
  if negb initialOk then Normal false else
  (* Validate transitions *)
  transitions <- wf.["transitions"] ;;
  callEvery transitions (fun transition =>
    ret (truthy transition) .&&
    ret (typeof transition =? "object") .&&
    (typeofIs transition.["from"] "string" .||
     (isArrayE transition.["from"] .&&
      (from <- transition.["from"] ;;
       callEvery from (fun s => ret (typeof s =? "string"))))) .&&
    typeofIs transition.["to"] "string" .&&
    isArrayE transition.["allowedRoles"]).

(** validateApi *)
Definition validateApi (api : JsValue) : Verdict :=
  if negb (truthy api) || negb (typeof api =? "object") then Normal false else
  let a := api in
  isStr a.["baseUrl"] "{{FASTFORM_API_URL}}" .&&
  truthyE a.["endpoints"] .&&
  typeofIs a.["endpoints"] "object" .&&
  typeofIs (GetE a.["endpoints"] "createSubmission") "string" .&&
  typeofIs (GetE a.["endpoints"] "getSubmission") "string" .&&
  typeofIs (GetE a.["endpoints"] "resubmitSubmission") "string" .&&
  typeofIs (GetE a.["endpoints"] "staffLogin") "string" .&&
  typeofIs (GetE a.["endpoints"] "staffLogout") "string" .&&
  typeofIs (GetE a.["endpoints"] "staffSession") "string" .&&
  typeofIs (GetE a.["endpoints"] "listSubmissions") "string" .&&
  typeofIs (GetE a.["endpoints"] "getSubmissionDetail") "string" .&&
  typeofIs (GetE a.["endpoints"] "transitionSubmission") "string" .&&
  typeofIs (GetE a.["endpoints"] "trackEvent") "string".

Definition validTriggers : list string :=
  ["pageview"; "action"; "submit"; "transition"].

(** validateAnalytics *)
Definition validateAnalytics (analytics : JsValue) : Verdict :=
  if negb (truthy analytics) || negb (typeof analytics =? "object") then Normal false else
  let a := analytics in
  noEvents <- notArrayE a.["events"] ;;
  if noEvents then Normal false else
  events <- a.["events"] ;;
  callEvery events (fun event =>
    ret (truthy event) .&&
    ret (typeof event =? "object") .&&
    typeofIs event.["name"] "string" .&&
    includesE validTriggers event.["trigger"]).

(** validateEnvironments *)
Definition validateEnvironments (environments : JsValue) : Verdict :=
  if negb (truthy environments) || negb (typeof environments =? "object")
  then Normal false else
  let env := environments in
  truthyE env.["staging"] .&&
  typeofIs env.["staging"] "object" .&&
  typeofIs (GetE env.["staging"] "domain") "string" .&&
  typeofIs (GetE env.["staging"] "apiUrl") "string" .&&
  truthyE env.["production"] .&&
  typeofIs env.["production"] "object" .&&
  typeofIs (GetE env.["production"] "domain") "string" .&&
  typeofIs (GetE env.["production"] "apiUrl") "string".

(** The three inline blocks of [isValidAppSpec] *)
Definition topLevelInvalid (spec : JsValue) : Verdict :=
  typeofIsNot spec.["id"] "string" .||
  isNotStr spec.["version"] "0.3" .||
  falsy spec.["meta"] .||
  falsy spec.["theme"] .||
  notArrayE spec.["roles"] .||
  notArrayE spec.["pages"] .||
  falsy spec.["workflow"] .||
  falsy spec.["api"] .||
  falsy spec.["analytics"] .||
  falsy spec.["environments"].

Definition metaInvalid (spec : JsValue) : Verdict :=
  typeofIsNot spec.["meta"] "object" .||
  typeofIsNot (GetE spec.["meta"] "name") "string" .||
  typeofIsNot (GetE spec.["meta"] "slug") "string" .||
  typeofIsNot (GetE spec.["meta"] "description") "string" .||
  typeofIsNot (GetE spec.["meta"] "orgId") "string" .||
  typeofIsNot (GetE spec.["meta"] "orgSlug") "string".

Definition themeInvalid (spec : JsValue) : Verdict :=
  typeofIsNot spec.["theme"] "object" .||
  isNotStr (GetE spec.["theme"] "preset") "healthcare-calm".

(** [!validateX(spec.x)] *)
Definition fails (validate : JsValue -> Verdict) (e : Completion JsError JsValue)
  : Verdict :=
  x <- e ;; ok <- validate x ;; ret (negb ok).

(** isValidAppSpec *)
Definition isValidAppSpec (obj : JsValue) : Verdict :=
  if negb (truthy obj) || negb (typeof obj =? "object") then Normal false else
  let spec := obj in
  (* Validate required top-level fields *)
  bad <- topLevelInvalid spec ;;
  if bad then Normal false else
  (* Validate meta *)
  bad <- metaInvalid spec ;;
  if bad then Normal false else
  (* Validate theme *)
  bad <- themeInvalid spec ;;
  if bad then Normal false else
  bad <- fails validateRoles spec.["roles"] ;;
  if bad then Normal false else
  bad <- fails validatePages spec.["pages"] ;;
  if bad then Normal false else
  bad <- fails validateWorkflow spec.["workflow"] ;;
  if bad then Normal false else
  bad <- fails validateApi spec.["api"] ;;
  if bad then Normal false else
  bad <- fails validateAnalytics spec.["analytics"] ;;
  if bad then Normal false else
  bad <- fails validateEnvironments spec.["environments"] ;;
  if bad then Normal false else
  Normal true.

(** What acceptance says of a page and of a workflow state *)
Definition pageTypeValid (page : JsValue) : Prop :=
  exists t, Get page "type" = Normal (JStr t) /\ In t validPageTypes.

Definition stateValid (state : JsValue) : Prop :=
  exists t, state = JStr t /\ In t validStates.

End AppSpec.

(** ** The naming heuristic: [lib/utils/app-naming.ts] *)

Module AppNaming.

(** A JS string is a sequence of UTF-16 code units. *)
Definition jsstring := list N.

(** The code units of an ASCII literal *)
Definition str (s : string) : jsstring := map N_of_ascii (list_ascii_of_string s).

Definition isAscii (c : N) : bool := (c <=? 127)%N.
Definition isUpperAZ (c : N) : bool := (65 <=? c)%N && (c <=? 90)%N.
Definition isLowerAZ (c : N) : bool := (97 <=? c)%N && (c <=? 122)%N.
Definition isDigit (c : N) : bool := (48 <=? c)%N && (c <=? 57)%N.
Definition asciiLower (c : N) : N := if isUpperAZ c then (c + 32)%N else c.
Definition asciiUpper (c : N) : N := if isLowerAZ c then (c - 32)%N else c.

Definition SPACE : N := 32%N.
Definition HYPHEN : N := 45%N.
Definition UNDERSCORE : N := 95%N.
Definition DOT : N := 46%N.

(** The regular-expression class [\s] (which is also what [trim] strips):
    WhiteSpace and LineTerminator code points. *)
Definition isWhiteSpace (c : N) : bool :=
  ((9 <=? c) && (c <=? 13) || (c =? 32) || (c =? 160) || (c =? 5760) ||
   (8192 <=? c) && (c <=? 8202) || (c =? 8232) || (c =? 8233) ||
   (c =? 8239) || (c =? 8287) || (c =? 12288) || (c =? 65279))%N.

Definition isHyphen (c : N) : bool := (c =? HYPHEN)%N.
(** the class of code units U+0300 to U+036F *)
Definition isCombiningMark (c : N) : bool := (768 <=? c)%N && (c <=? 879)%N.

(** [s.replace(/[class]+/g, r)]: every maximal run of characters of the
    class becomes one copy of [r]. *)
Fixpoint replaceRunsFrom (p : N -> bool) (r : jsstring) (inRun : bool) (s : jsstring)
  : jsstring :=
  match s with
  | [] => []
  | c :: s' =>
      if p c
      then (if inRun then replaceRunsFrom p r true s' else r ++ replaceRunsFrom p r true s')
      else c :: replaceRunsFrom p r false s'
  end.
Definition replaceRuns (p : N -> bool) (r : jsstring) (s : jsstring) : jsstring :=
  replaceRunsFrom p r false s.

Fixpoint dropWhile (p : N -> bool) (s : jsstring) : jsstring :=
  match s with
  | [] => []
  | c :: s' => if p c then dropWhile p s' else s
  end.
Definition dropWhileEnd (p : N -> bool) (s : jsstring) : jsstring :=
  rev (dropWhile p (rev s)).

(** [s.trim()] *)
Definition trim (s : jsstring) : jsstring :=
  dropWhileEnd isWhiteSpace (dropWhile isWhiteSpace s).

(** [s.startsWith(p)] *)
Fixpoint startsWith (s p : jsstring) {struct p} : bool :=
  match p with
  | [] => true
  | c :: p' =>
      match s with
      | [] => false
      | d :: s' => (d =? c)%N && startsWith s' p'
      end
  end.

(** [s.split(/\s+/)] *)
Fixpoint splitFrom (inSep : bool) (cur : jsstring) (s : jsstring) : list jsstring :=
  match s with
  | [] => [rev cur]
  | c :: s' =>
      if isWhiteSpace c
      then (if inSep then splitFrom true [] s' else rev cur :: splitFrom true [] s')
      else splitFrom false (c :: cur) s'
  end.
Definition splitWhiteSpace (s : jsstring) : list jsstring := splitFrom false [] s.

(** [words.join(sep)] *)
Fixpoint join (sep : jsstring) (words : list jsstring) : jsstring :=
  match words with
  | [] => []
  | [w] => w
  | w :: rest => w ++ sep ++ join sep rest
  end.

(** [s.lastIndexOf(c)], -1 when absent *)
Fixpoint lastIndexOfFrom (c : N) (s : jsstring) (i found : Z) : Z :=
  match s with
  | [] => found
  | d :: s' => lastIndexOfFrom c s' (i + 1)%Z (if (d =? c)%N then i else found)
  end.
Definition lastIndexOf (c : N) (s : jsstring) : Z := lastIndexOfFrom c s 0%Z (-1)%Z.

Definition COMMON_PREFIXES : list jsstring :=
  map str
    ["i need an"; "i need a"; "build me an"; "build me a"; "create an"; "create a";
     "make me an"; "make me a"; "i want an"; "i want a"].

Definition NAME_MAX_LENGTH : nat := 50.
Definition SLUG_MAX_LENGTH : nat := 30.

Record HeuristicNameResult : Type := { name : jsstring; slug : jsstring }.

Definition fallback : HeuristicNameResult :=
  {| name := str "Untitled App"; slug := str "untitled-app" |}.

Section WithUnicodeTables.

(** Case conversion and canonical decomposition are the engine's.  On a
    string of ASCII code units they are letter-wise ASCII case mapping
    and the identity; on any other string they are whatever the engine's
    Unicode tables say, which is left open here. *)
Variable unicodeLower : jsstring -> jsstring.
Variable unicodeUpper : jsstring -> jsstring.
Variable unicodeNFD : jsstring -> jsstring.

Definition toLowerCase (s : jsstring) : jsstring :=
  if forallb isAscii s then map asciiLower s else unicodeLower s.
Definition toUpperCase (s : jsstring) : jsstring :=
  if forallb isAscii s then map asciiUpper s else unicodeUpper s.
Definition normalizeNFD (s : jsstring) : jsstring :=
  if forallb isAscii s then s else unicodeNFD s.

(** The [for ... break] loop over COMMON_PREFIXES *)
Fixpoint stripPrefix (prefixes : list jsstring) (lowerProcessed processed : jsstring)
  : jsstring :=
  match prefixes with
  | [] => processed
  | prefix :: rest =>
      if startsWith lowerProcessed prefix
      then trim (skipn (List.length prefix) processed)
      else stripPrefix rest lowerProcessed processed
  end.

Definition capitalize (word : jsstring) : jsstring :=
  if (List.length word =? 0)%nat then word
  else toUpperCase (firstn 1 word) ++ skipn 1 word.

(** generateName *)
Definition generateName (text : jsstring) : jsstring :=
  let titleCased :=
    join [SPACE] (map capitalize (splitWhiteSpace (toLowerCase text))) in
  if (List.length titleCased <=? NAME_MAX_LENGTH)%nat then titleCased else
  let maxWithoutEllipsis := (NAME_MAX_LENGTH - 3)%nat in
  let truncated := firstn maxWithoutEllipsis titleCased in
  let lastSpace := lastIndexOf SPACE truncated in
  (* lastSpace > maxWithoutEllipsis * 0.6, compared exactly: no integer
     lies between the rational 28.2 and its double approximation *)
  let truncated :=
    if (Z.of_nat maxWithoutEllipsis * 6 <? lastSpace * 10)%Z
    then firstn (Z.to_nat lastSpace) truncated
    else truncated in
  truncated ++ str "...".

(** generateSlug *)
Definition generateSlug (text : jsstring) : jsstring :=
  let s := toLowerCase text in
  let s := normalizeNFD s in
  let s := filter (fun c => negb (isCombiningMark c)) s in
  let s := filter isAscii s in
  let s := map (fun c => if (c =? UNDERSCORE)%N then HYPHEN else c) s in
  let s := map (fun c =>
                  if isLowerAZ c || isDigit c || isWhiteSpace c || isHyphen c
                  then c else SPACE) s in
  let s := replaceRuns isWhiteSpace [HYPHEN] s in
  let s := replaceRuns isHyphen [HYPHEN] s in
  let s := dropWhileEnd isHyphen (dropWhile isHyphen s) in
  if (SLUG_MAX_LENGTH <? List.length s)%nat
  then dropWhileEnd isHyphen (firstn SLUG_MAX_LENGTH s)
  else s.

(** The whitespace-normalised intent *)
Definition normalizeWhiteSpace (intent : jsstring) : jsstring :=
  trim (replaceRuns isWhiteSpace [SPACE] intent).

(** generateHeuristicName *)
Definition generateHeuristicName (intent : jsstring) : HeuristicNameResult :=
  let processed := normalizeWhiteSpace intent in
  let lowerProcessed := toLowerCase processed in
  let processed := stripPrefix COMMON_PREFIXES lowerProcessed processed in
  if (List.length processed =? 0)%nat then fallback else
  let name := generateName processed in
  let slug := generateSlug processed in
  if (List.length slug =? 0)%nat then fallback else
  {| name := name; slug := slug |}.

End WithUnicodeTables.

(** An ASCII letter or digit *)
Definition isAlnum (c : N) : bool := isLowerAZ c || isUpperAZ c || isDigit c.

(** An ASCII character that is neither a letter nor a digit: punctuation,
    a symbol, a space or a control character *)
Definition isAsciiNonAlnum (c : N) : bool := isAscii c && negb (isAlnum c).

(** The rocket emoji, U+1F680, as its surrogate pair *)
Definition rocket : jsstring := [55357%N; 56960%N].

End AppNaming.

(** ** The typed document: the interfaces of [lib/types/appspec.ts]

    What the compiler receives.  The literal-union types ([PageType],
    [FieldType], [WorkflowState], rule types, operators, ...) are strings at
    run time and are kept as strings here: a document of the right shape can
    carry any string in those positions. *)

Module Schema.

Record AppMeta : Type :=
  { name : string; slug : string; description : string;
    orgId : string; orgSlug : string }.

Record ThemeColors : Type :=
  { primary : option string; background : option string; text : option string }.

Record ThemeConfig : Type :=
  { preset : string; logo : option string; colors : option ThemeColors }.

Record Role : Type :=
  { roleId : string; authRequired : bool; routePrefix : option string }.

Record FieldOption : Type := { optionValue : string; optionLabel : string }.

(** [string | boolean] *)
Inductive ConditionValue : Type :=
| CStr (s : string)
| CBool (b : bool).

Record Condition : Type :=
  { conditionField : string; operator : string; conditionValue : option ConditionValue }.

(** [string | number]; numeric limits are integers. *)
Inductive RuleValue : Type :=
| RStr (s : string)
| RNum (z : Z).

Record ValidationRule : Type :=
  { ruleType : string; ruleValue : RuleValue; ruleMessage : string }.

Record Field : Type :=
  { fieldId : string; fieldType : string; label : string;
    placeholder : option string; required : option bool;
    options : option (list FieldOption); condition : option Condition;
    validation : option (list ValidationRule) }.

Record Action : Type :=
  { actionId : string; actionLabel : string; targetState : string;
    requiresNote : option bool; variant : string }.

Record Page : Type :=
  { pageId : string; route : string; pageRole : string; pageType : string;
    title : string; pageDescription : option string;
    fields : option (list Field); actions : option (list Action) }.

(** [WorkflowState | WorkflowState[]] *)
Inductive TransitionFrom : Type :=
| FromState (s : string)
| FromStates (ss : list string).

Record Transition : Type :=
  { from : TransitionFrom; to : string; allowedRoles : list string }.

Record WorkflowConfig : Type :=
  { states : list string; initialState : string; transitions : list Transition }.

Record Endpoints : Type :=
  { createSubmission : string; getSubmission : string; resubmitSubmission : string;
    staffLogin : string; staffLogout : string; staffSession : string;
    listSubmissions : string; getSubmissionDetail : string;
    transitionSubmission : string; trackEvent : string }.

Record ApiConfig : Type := { baseUrl : string; endpoints : Endpoints }.

Record AnalyticsEvent : Type :=
  { eventName : string; trigger : string; eventPage : option string }.

Record AnalyticsConfig : Type := { events : list AnalyticsEvent }.

Record Deployment : Type := { domain : string; apiUrl : string }.

Record EnvironmentConfig : Type := { staging : Deployment; production : Deployment }.

Record FastformAppSpec : Type :=
  { id : string; version : string; meta : AppMeta; theme : ThemeConfig;
    roles : list Role; pages : list Page; workflow : WorkflowConfig;
    api : ApiConfig; analytics : AnalyticsConfig; environments : EnvironmentConfig }.

End Schema.

(** ** The prompt compiler: [lib/compiler/appspec-to-prompt] *)

Module Compiler.
Import Js Schema.
Local Open Scope js_scope.
Local Infix "+++" := String.append (at level 60, right associativity).

(** Modelled from the spec: the error class of the module
    [lib/compiler/appspec-to-prompt.ts], which is not among the sources
    (its test suite and its README are): message, dotted feature path,
    optional suggestion. *)
Record UnsupportedAppSpecFeatureError : Type :=
  { message : string; feature : string; suggestion : option string }.

Definition Result (A : Type) : Type := Completion UnsupportedAppSpecFeatureError A.

(** *** Strings *)

Definition dquote : string := String (ascii_of_nat 34) EmptyString.
Definition newline : string := String (ascii_of_nat 10) EmptyString.
Definition quoted (s : string) : string := dquote +++ s +++ dquote.

(** [parts.join(sep)] *)
Fixpoint join (sep : string) (parts : list string) : string :=
  match parts with
  | [] => EmptyString
  | [p] => p
  | p :: rest => p +++ sep +++ join sep rest
  end.

(** [s.startsWith(p)] *)
Fixpoint strStartsWith (s p : string) {struct p} : bool :=
  match p with
  | EmptyString => true
  | String c p' =>
      match s with
      | EmptyString => false
      | String d s' => Ascii.eqb d c && strStartsWith s' p'
      end
  end.

(** [s.includes(sub)] *)
Fixpoint strIncludes (s sub : string) : bool :=
  if strStartsWith s sub then true else
  match s with
  | EmptyString => false
  | String _ s' => strIncludes s' sub
  end.

(** [String(n)] for a length or an integer limit *)
Definition showNat (n : nat) : string := NilEmpty.string_of_uint (Nat.to_uint n).
Definition showInt (z : Z) : string := NilEmpty.string_of_int (Z.to_int z).

Definition upperAscii (a : ascii) : ascii :=
  let n := nat_of_ascii a in
  if (97 <=? n)%nat && (n <=? 122)%nat then ascii_of_nat (n - 32) else a.
(** [s.toUpperCase()] on the ASCII letters of a type name *)
Fixpoint toUpperCase (s : string) : string :=
  match s with
  | EmptyString => EmptyString
  | String a s' => String (upperAscii a) (toUpperCase s')
  end.

Definition mem (x : string) (xs : list string) : bool := existsb (String.eqb x) xs.

(** [items.map(f)] for a callback that may throw: the first throw aborts. *)
Fixpoint mapM {E A B} (f : A -> Completion E B) (items : list A)
  : Completion E (list B) :=
  match items with
  | [] => Normal []
  | x :: rest => y <- f x ;; ys <- mapM f rest ;; ret (y :: ys)
  end.

(** *** The capability allow-list *)

(** Modelled from the spec: the table of section 4.2, which the missing
    module [lib/compiler/appspec-to-prompt.ts] consults. *)
Definition SUPPORTED_PAGE_TYPES : list string :=
  ["welcome"; "form"; "review"; "success"; "login"; "list"; "detail"].
Definition SUPPORTED_FIELD_TYPES : list string :=
  ["text"; "email"; "tel"; "date"; "textarea"; "select"; "radio"; "checkbox"; "number"].
Definition SUPPORTED_WORKFLOW_STATES : list string :=
  ["DRAFT"; "SUBMITTED"; "NEEDS_INFO"; "APPROVED"; "REJECTED"].
Definition MAX_TRANSITIONS_PER_STATE : nat := 3.

(** Modelled from the spec: the four errors thrown by the missing module
    [lib/compiler/appspec-to-prompt.ts] (section 4.4): each names the
    offending literal and says "not supported" (the complexity error reports
    the two counts instead), carries a dotted feature path, and suggests the
    alternatives. *)
Definition unsupportedPageType (t : string) : UnsupportedAppSpecFeatureError :=
  {| message := "Page type " +++ quoted t +++ " is not supported in v1. Supported types: "
                +++ join ", " SUPPORTED_PAGE_TYPES;
     feature := "page.type." +++ t;
     suggestion := Some ("Use one of: " +++ join ", " SUPPORTED_PAGE_TYPES) |}.

(** Modelled from the spec: the error for a field type (section 4.4). *)
Definition unsupportedFieldType (t : string) : UnsupportedAppSpecFeatureError :=
  {| message := "Field type " +++ quoted t +++ " is not supported in v1. Supported types: "
                +++ join ", " SUPPORTED_FIELD_TYPES;
     feature := "field.type." +++ t;
     suggestion := Some ("Use one of: " +++ join ", " SUPPORTED_FIELD_TYPES) |}.

(** Modelled from the spec: the error for a workflow state (section 4.4). *)
Definition unsupportedWorkflowState (s : string) : UnsupportedAppSpecFeatureError :=
  {| message := "Workflow state " +++ quoted s +++ " is not supported in v1.";
     feature := "workflow.state." +++ s;
     suggestion := Some ("Use simple workflow with states: "
                         +++ join ", " SUPPORTED_WORKFLOW_STATES) |}.

(** Modelled from the spec: the error for a workflow with more than three
    transitions per state (section 4.4). *)
Definition workflowTooComplex (nTransitions nStates : nat)
  : UnsupportedAppSpecFeatureError :=
  {| message := "Workflow is too complex for v1: " +++ showNat nTransitions
                +++ " transitions for " +++ showNat nStates +++ " states";
     feature := "workflow.complexity";
     suggestion := Some "Simplify workflow to have fewer transitions per state" |}.

(** *** Rendering *)

Definition showRuleValue (v : RuleValue) : string :=
  match v with
  | RStr s => s
  | RNum z => showInt z
  end.

Definition showConditionValue (v : ConditionValue) : string :=
  match v with
  | CStr s => s
  | CBool true => "true"
  | CBool false => "false"
  end.

(** The literals of [ValidationRule.type] in [lib/types/appspec.ts] *)
Definition KNOWN_RULE_TYPES : list string :=
  ["minLength"; "maxLength"; "pattern"; "min"; "max"].

(** Modelled from the spec: the rendering of one validation rule
    (section 4.4: an unknown rule type renders as "<type>: <value>"). *)
Definition renderValidationRule (r : ValidationRule) : string :=
  let v := showRuleValue (ruleValue r) in
  if ruleType r =? "minLength" then "minimum " +++ v +++ " characters"
  else if ruleType r =? "maxLength" then "maximum " +++ v +++ " characters"
  else if ruleType r =? "pattern" then "pattern " +++ v
  else if ruleType r =? "min" then "minimum value " +++ v
  else if ruleType r =? "max" then "maximum value " +++ v
  else ruleType r +++ ": " +++ v.

(** Modelled from the spec: the visibility clause of a conditional field. *)
Definition renderCondition (c : Condition) : string :=
  "shown when field " +++ quoted (conditionField c) +++ " " +++ operator c +++ " "
  +++ match conditionValue c with
     | Some v => showConditionValue v
     | None => "(exists)"
     end.

Definition optLine (prefix : string) (o : option string) : list string :=
  match o with
  | Some s => [prefix +++ s]
  | None => []
  end.

(** Modelled from the spec: one option of a select or radio field. *)
Definition renderOption (o : FieldOption) : string :=
  optionLabel o +++ " (" +++ optionValue o +++ ")".

(** Modelled from the spec: one field, rejected first when its type is
    outside the allow-list. *)
Definition renderField (f : Field) : Result (list string) :=
  if negb (mem (fieldType f) SUPPORTED_FIELD_TYPES)
  then Throw (unsupportedFieldType (fieldType f)) else
  ret (["  - " +++ fieldId f +++ " (" +++ fieldType f +++ "): " +++ label f +++ " ["
        +++ (match required f with Some true => "required" | _ => "optional" end) +++ "]"]
       ++ optLine "    Placeholder: " (placeholder f)
       ++ optLine "    Options: " (option_map (fun os => join ", " (map renderOption os)) (options f))
       ++ optLine "    Validation: "
            (option_map (fun rs => join ", " (map renderValidationRule rs)) (validation f))
       ++ optLine "    Condition: " (option_map renderCondition (condition f))).

(** Modelled from the spec: one action of a detail or review page. *)
Definition renderAction (a : Action) : string :=
  "  - " +++ actionLabel a +++ " (" +++ actionId a +++ ") -> " +++ targetState a +++ " [" +++ variant a
  +++ (match requiresNote a with Some true => ", requires note" | _ => EmptyString end) +++ "]".

(** Modelled from the spec: one page, rejected first when its type is
    outside the allow-list, then its fields in declaration order. *)
Definition renderPage (p : Page) : Result (list string) :=
  if negb (mem (pageType p) SUPPORTED_PAGE_TYPES)
  then Throw (unsupportedPageType (pageType p)) else
  fieldLines <- match fields p with
                | Some fs => ls <- mapM renderField fs ;; ret ("- Fields:" :: concat ls)
                | None => ret []
                end ;;
  ret (["### " +++ toUpperCase (pageType p) +++ ": " +++ title p;
        "- ID: " +++ pageId p;
        "- Route: " +++ route p;
        "- Role: " +++ pageRole p]
       ++ optLine "- Description: " (pageDescription p)
       ++ fieldLines
       ++ match actions p with
          | Some acts => "- Actions:" :: map renderAction acts
          | None => []
          end).

(** Modelled from the spec: the pages section, pages in declaration order. *)
Definition renderPages (ps : list Page) : Result (list string) :=
  ls <- mapM renderPage ps ;; ret ("## PAGES" :: concat ls).

(** Modelled from the spec: one workflow state, rejected when it is outside
    the closed set. *)
Definition checkState (s : string) : Result string :=
  if negb (mem s SUPPORTED_WORKFLOW_STATES)
  then Throw (unsupportedWorkflowState s) else ret s.

(** Modelled from the spec: one transition; a set of source states is
    listed in full. *)
Definition renderTransition (t : Transition) : string :=
  "- " +++ (match from t with
           | FromState s => s
           | FromStates ss => join ", " ss
           end)
  +++ " -> " +++ to t +++ " (allowed roles: " +++ join ", " (allowedRoles t) +++ ")".

(** Modelled from the spec: the workflow section.  The states are checked
    as they are listed, then the complexity threshold, then the
    transitions are rendered. *)
Definition renderWorkflow (w : WorkflowConfig) : Result (list string) :=
  ss <- mapM checkState (states w) ;;
  if (MAX_TRANSITIONS_PER_STATE * List.length (states w) <? List.length (transitions w))%nat
  then Throw (workflowTooComplex (List.length (transitions w)) (List.length (states w)))
  else
  ret (["## WORKFLOW";
        "States: " +++ join ", " ss;
        "Initial state: " +++ initialState w;
        "Transitions:"]
       ++ map renderTransition (transitions w)).

(** Modelled from the spec: the application header. *)
Definition renderHeader (spec : FastformAppSpec) : list string :=
  ["# " +++ name (meta spec);
   "Description: " +++ description (meta spec);
   "Organization: " +++ orgSlug (meta spec) +++ " (" +++ orgId (meta spec) +++ ")";
   "App ID: " +++ id spec;
   "Slug: " +++ slug (meta spec)].

(** Modelled from the spec: one role. *)
Definition renderRole (r : Role) : string :=
  "- " +++ roleId r +++ ": "
  +++ (if authRequired r then "authentication required" else "no authentication")
  +++ (match routePrefix r with
      | Some p => ", route prefix " +++ p
      | None => EmptyString
      end).

(** Modelled from the spec: the theme section. *)
Definition renderTheme (t : ThemeConfig) : list string :=
  ["## THEME"; "Preset: " +++ preset t]
  ++ optLine "Logo: " (logo t)
  ++ match colors t with
     | Some c => optLine "Primary color: " (primary c)
                 ++ optLine "Background color: " (background c)
                 ++ optLine "Text color: " (text c)
     | None => []
     end.

(** Modelled from the spec: the endpoint catalogue, in alphabetical order
    of the endpoint names. *)
Definition renderApi (a : ApiConfig) : list string :=
  let e := endpoints a in
  ["## API";
   "Base URL: " +++ baseUrl a;
   "- createSubmission: " +++ createSubmission e;
   "- getSubmission: " +++ getSubmission e;
   "- getSubmissionDetail: " +++ getSubmissionDetail e;
   "- listSubmissions: " +++ listSubmissions e;
   "- resubmitSubmission: " +++ resubmitSubmission e;
   "- staffLogin: " +++ staffLogin e;
   "- staffLogout: " +++ staffLogout e;
   "- staffSession: " +++ staffSession e;
   "- trackEvent: " +++ trackEvent e;
   "- transitionSubmission: " +++ transitionSubmission e].

(** Modelled from the spec: one analytics event. *)
Definition renderEvent (e : AnalyticsEvent) : string :=
  "- " +++ eventName e +++ " (" +++ trigger e +++ ")"
  +++ (match eventPage e with
      | Some p => " on " +++ p
      | None => EmptyString
      end).

(** Modelled from the spec: the environments section. *)
Definition renderEnvironments (e : EnvironmentConfig) : list string :=
  ["## ENVIRONMENTS";
   "- Staging: " +++ domain (staging e) +++ " (API: " +++ apiUrl (staging e) +++ ")";
   "- Production: " +++ domain (production e) +++ " (API: " +++ apiUrl (production e) +++ ")"].

(** Modelled from the spec: the fixed block of rules for the downstream
    generator (the README of the compiler lists its ten headings). *)
Definition CONSTRAINTS : list string :=
  ["## CRITICAL IMPLEMENTATION CONSTRAINTS";
   "1. Do not use external UI or form libraries.";
   "2. Use Server Actions only for mutations.";
   "3. Use camelCase PostgreSQL column names.";
   "4. Scope every query by appId (multi-tenancy).";
   "5. Keep the code fully typed.";
   "6. Handle and surface errors consistently.";
   "7. Authenticate staff through the Fastform session endpoints.";
   "8. Read the API base URL from the environment at run time.";
   "9. Make every page responsive.";
   "10. Meet accessibility requirements."].

(** Modelled from the spec: [compileAppSpecToPrompt], of the module
    [lib/compiler/appspec-to-prompt.ts].  Sections in the fixed order of
    section 4.4; the first unsupported construct met while rendering
    aborts the compilation. *)
Definition compileAppSpecToPrompt (spec : FastformAppSpec) : Result string :=
  let head := renderHeader spec
              ++ ("## USER ROLES" :: map renderRole (roles spec))
              ++ renderTheme (theme spec) in
  pageLines <- renderPages (pages spec) ;;
  workflowLines <- renderWorkflow (workflow spec) ;;
  ret (join newline
         (head ++ pageLines ++ workflowLines
          ++ renderApi (api spec)
          ++ ("## ANALYTICS EVENTS" :: map renderEvent (events (analytics spec)))
          ++ renderEnvironments (environments spec)
          ++ CONSTRAINTS)).

(** *** The constructs outside the allow-list *)

Definition fieldsOf (p : Page) : list Field :=
  match fields p with
  | Some fs => fs
  | None => []
  end.

Definition rulesOf (f : Field) : list ValidationRule :=
  match validation f with
  | Some rs => rs
  | None => []
  end.

Definition unsupportedIn (allowed : list string) (literals : list string) : list string :=
  filter (fun t => negb (mem t allowed)) literals.

Definition offendingPageTypes (spec : FastformAppSpec) : list string :=
  unsupportedIn SUPPORTED_PAGE_TYPES (map pageType (pages spec)).

Definition offendingFieldTypes (spec : FastformAppSpec) : list string :=
  unsupportedIn SUPPORTED_FIELD_TYPES (map fieldType (flat_map fieldsOf (pages spec))).

Definition offendingStates (spec : FastformAppSpec) : list string :=
  unsupportedIn SUPPORTED_WORKFLOW_STATES (states (workflow spec)).

(** Every page type, field type and workflow state of the document that is
    outside its allow-list *)
Definition offendingLiterals (spec : FastformAppSpec) : list string :=
  offendingPageTypes spec ++ offendingFieldTypes spec ++ offendingStates spec.

(** [transitions.length <= 3 * states.length] *)
Definition withinComplexity (spec : FastformAppSpec) : bool :=
  (List.length (transitions (workflow spec))
   <=? MAX_TRANSITIONS_PER_STATE * List.length (states (workflow spec)))%nat.

(** *** The documents of the test-suite *)

Definition minimalEndpoints : Endpoints :=
  {| createSubmission := "POST /api/apps/:appId/submissions";
     getSubmission := "GET /api/apps/:appId/submissions/:id";
     resubmitSubmission := "POST /api/apps/:appId/submissions/:id/resubmit";
     staffLogin := "POST /api/apps/:appId/staff/login";
     staffLogout := "POST /api/apps/:appId/staff/logout";
     staffSession := "GET /api/apps/:appId/staff/session";
     listSubmissions := "GET /api/apps/:appId/staff/inbox";
     getSubmissionDetail := "GET /api/apps/:appId/staff/submissions/:id";
     transitionSubmission := "POST /api/apps/:appId/staff/submissions/:id/transition";
     trackEvent := "POST /api/apps/:appId/events" |}.

Definition welcomePage (type : string) (fs : option (list Field)) : Page :=
  {| pageId := "welcome"; route := "/"; pageRole := "PATIENT"; pageType := type;
     title := "Welcome"; pageDescription := None; fields := fs; actions := None |}.

Definition draftToSubmitted : Transition :=
  {| from := FromState "DRAFT"; to := "SUBMITTED"; allowedRoles := ["PATIENT"] |}.

(** [createMinimalAppSpec()], with its page list and workflow as parameters *)
Definition specWith (ps : list Page) (w : WorkflowConfig) : FastformAppSpec :=
  {| id := "test-app-id"; version := "0.3";
     meta := {| name := "Test App"; slug := "test-app";
                description := "A minimal test application";
                orgId := "test-org-id"; orgSlug := "test-org" |};
     theme := {| preset := "healthcare-calm"; logo := None; colors := None |};
     roles := [ {| roleId := "PATIENT"; authRequired := false; routePrefix := None |};
                {| roleId := "STAFF"; authRequired := true; routePrefix := Some "/staff" |} ];
     pages := ps;
     workflow := w;
     api := {| baseUrl := "{{FASTFORM_API_URL}}"; endpoints := minimalEndpoints |};
     analytics := {| events := [ {| eventName := "page_view"; trigger := "pageview";
                                    eventPage := Some "/" |} ] |};
     environments :=
       {| staging := {| domain := "test-app-staging.getfastform.com";
                        apiUrl := "https://api-staging.getfastform.com" |};
          production := {| domain := "test-app.getfastform.com";
                           apiUrl := "https://api.getfastform.com" |} |} |}.

Definition minimalWorkflow : WorkflowConfig :=
  {| states := ["DRAFT"; "SUBMITTED"]; initialState := "DRAFT";
     transitions := [draftToSubmitted] |}.

Definition minimalAppSpec : FastformAppSpec :=
  specWith [welcomePage "welcome" None] minimalWorkflow.

Definition plainField (fid type lbl : string) (rules : option (list ValidationRule))
  : Field :=
  {| fieldId := fid; fieldType := type; label := lbl; placeholder := None;
     required := Some false; options := None; condition := None;
     validation := rules |}.

(** [expect(prompt).toContain(sub)] *)
Definition toContain (r : Result string) (sub : string) : bool :=
  match r with
  | Normal prompt => strIncludes prompt sub
  | Throw _ => false
  end.

(** A workflow on DRAFT and SUBMITTED with [n] transitions *)
Definition twoStateWorkflow (n : nat) : WorkflowConfig :=
  {| states := ["DRAFT"; "SUBMITTED"]; initialState := "DRAFT";
     transitions := repeat draftToSubmitted n |}.

Definition customRule : ValidationRule :=
  {| ruleType := "customRule"; ruleValue := RStr "x";
     ruleMessage := "Custom validation failed" |}.

(** A form page with one text field carrying [customRule] *)
Definition customRulePage : Page :=
  welcomePage "form"
    (Some [plainField "customField" "text" "Custom Field" (Some [customRule])]).

(** A welcome page with one field of the unsupported type "file" *)
Definition fileFieldPage : Page :=
  welcomePage "welcome" (Some [plainField "file" "file" "Upload File" None]).

End Compiler.

(** ** Documents and edits of documents *)

Module Documents.
Import Js.

(** [o.k = v] on an object (anything else is left as it is) *)
Definition setProperty (k : string) (v : JsValue) (o : JsValue) : JsValue :=
  match o with
  | JObj props => JObj ((k, v) :: props)
  | _ => o
  end.

(** [o.k = f(o.k)] on an object *)
Definition updateProperty (k : string) (f : JsValue -> JsValue) (o : JsValue) : JsValue :=
  match o with
  | JObj props => JObj ((k, f (lookup k props)) :: props)
  | _ => o
  end.

Fixpoint mapFrom (i : nat) (f : nat -> JsValue -> JsValue) (items : list JsValue)
  : list JsValue :=
  match items with
  | [] => []
  | x :: rest => f i x :: mapFrom (S i) f rest
  end.

(** [a.map((x, i) => f(i, x))] on an array *)
Definition mapItems (f : nat -> JsValue -> JsValue) (a : JsValue) : JsValue :=
  match a with
  | JArr items => JArr (mapFrom 0 f items)
  | _ => a
  end.

Definition strs (l : list string) : JsValue := JArr (map JStr l).

(** [createValidAppSpec()] of [appspec.test.ts] *)
Definition validDocument : JsValue :=
  JObj
    [("id", JStr "123e4567-e89b-12d3-a456-426614174000");
     ("version", JStr "0.3");
     ("meta", JObj [("name", JStr "Test App"); ("slug", JStr "test-app");
                    ("description", JStr "A test application");
                    ("orgId", JStr "123e4567-e89b-12d3-a456-426614174001");
                    ("orgSlug", JStr "test-org")]);
     ("theme", JObj [("preset", JStr "healthcare-calm")]);
     ("roles",
      JArr [JObj [("id", JStr "PATIENT"); ("authRequired", JBool false)];
            JObj [("id", JStr "STAFF"); ("authRequired", JBool true);
                  ("routePrefix", JStr "/staff")]]);
     ("pages",
      JArr [JObj [("id", JStr "welcome"); ("route", JStr "/"); ("role", JStr "PATIENT");
                  ("type", JStr "welcome"); ("title", JStr "Welcome")];
            JObj [("id", JStr "staff-login"); ("route", JStr "/staff/login");
                  ("role", JStr "STAFF"); ("type", JStr "login");
                  ("title", JStr "Staff Login")]]);
     ("workflow",
      JObj [("states", strs ["DRAFT"; "SUBMITTED"; "NEEDS_INFO"; "APPROVED"; "REJECTED"]);
            ("initialState", JStr "DRAFT");
            ("transitions",
             JArr [JObj [("from", JStr "DRAFT"); ("to", JStr "SUBMITTED");
                         ("allowedRoles", strs ["PATIENT"])];
                   JObj [("from", JStr "SUBMITTED"); ("to", JStr "APPROVED");
                         ("allowedRoles", strs ["STAFF"])]])]);
     ("api",
      JObj [("baseUrl", JStr "{{FASTFORM_API_URL}}");
            ("endpoints",
             JObj [("createSubmission", JStr "POST /api/apps/:appId/submissions");
                   ("getSubmission", JStr "GET /api/apps/:appId/submissions/:id");
                   ("resubmitSubmission",
                    JStr "POST /api/apps/:appId/submissions/:id/resubmit");
                   ("staffLogin", JStr "POST /api/apps/:appId/staff/login");
                   ("staffLogout", JStr "POST /api/apps/:appId/staff/logout");
                   ("staffSession", JStr "GET /api/apps/:appId/staff/session");
                   ("listSubmissions", JStr "GET /api/apps/:appId/staff/inbox");
                   ("getSubmissionDetail",
                    JStr "GET /api/apps/:appId/staff/submissions/:id");
                   ("transitionSubmission",
                    JStr "POST /api/apps/:appId/staff/submissions/:id/transition");
                   ("trackEvent", JStr "POST /api/apps/:appId/events")])]);
     ("analytics",
      JObj [("events",
             JArr [JObj [("name", JStr "page_view"); ("trigger", JStr "pageview");
                         ("page", JStr "/")];
                   JObj [("name", JStr "form_submit"); ("trigger", JStr "submit")]])]);
     ("environments",
      JObj [("staging",
             JObj [("domain", JStr "test-app-test-org-staging.getfastform.com");
                   ("apiUrl", JStr "https://api-staging.getfastform.com")]);
            ("production",
             JObj [("domain", JStr "test-app-test-org.getfastform.com");
                   ("apiUrl", JStr "https://api.getfastform.com")])])].

(** The nine literals of the type [FieldType] *)
Definition FIELD_TYPES : list string :=
  ["text"; "email"; "tel"; "date"; "textarea"; "select"; "radio"; "checkbox"; "number"].

(** A field of a type that is not a [FieldType] *)
Definition fileField : JsValue :=
  JObj [("id", JStr "file"); ("type", JStr "file"); ("label", JStr "Upload File");
        ("required", JBool false)].

(** [validDocument] with [fields: [fileField]] on every page *)
Definition fileFieldDocument : JsValue :=
  updateProperty "pages"
    (mapItems (fun _ => setProperty "fields" (JArr [fileField]))) validDocument.

(** [validDocument] with [workflow.states = ['SUBMITTED', 'APPROVED']]:
    its [initialState], DRAFT, is not one of its states *)
Definition initialStateOutsideStates : JsValue :=
  updateProperty "workflow" (setProperty "states" (strs ["SUBMITTED"; "APPROVED"]))
    validDocument.

(** [validDocument] with [version = 0.3], the number *)
Definition numericVersionDocument : JsValue :=
  setProperty "version" (JNum (Finite (3 # 10)%Q)) validDocument.

(** The optional properties [theme.logo], [theme.colors], every role's
    [routePrefix] and every analytics event's [page] overwritten *)
Definition overwriteOptional (logo colors : JsValue) (routePrefixOf pageOf : nat -> JsValue)
  (doc : JsValue) : JsValue :=
  updateProperty "theme" (fun t => setProperty "logo" logo (setProperty "colors" colors t))
    (updateProperty "roles"
       (mapItems (fun i => setProperty "routePrefix" (routePrefixOf i)))
       (updateProperty "analytics"
          (updateProperty "events"
             (mapItems (fun i => setProperty "page" (pageOf i))))
          doc)).

(** Every page's [fields] overwritten *)
Definition overwriteFields (fieldsOf : nat -> JsValue) (doc : JsValue) : JsValue :=
  updateProperty "pages" (mapItems (fun i => setProperty "fields" (fieldsOf i))) doc.

End Documents.

(** ** A typed document as the value the validator is handed *)

Module Encode.
Import Js Schema.

(** An optional property: absent when the value is not given *)
Definition optional {A} (k : string) (f : A -> JsValue) (o : option A)
  : list (string * JsValue) :=
  match o with
  | Some a => [(k, f a)]
  | None => []
  end.

Definition strings (l : list string) : JsValue := JArr (map JStr l).
Definition number (z : Z) : JsValue := JNum (Finite (inject_Z z)).

Definition metaJs (m : AppMeta) : JsValue :=
  JObj [("name", JStr (name m)); ("slug", JStr (slug m));
        ("description", JStr (description m)); ("orgId", JStr (orgId m));
        ("orgSlug", JStr (orgSlug m))].

Definition colorsJs (c : ThemeColors) : JsValue :=
  JObj (optional "primary" JStr (primary c) ++ optional "background" JStr (background c)
        ++ optional "text" JStr (text c)).

Definition themeJs (t : ThemeConfig) : JsValue :=
  JObj (("preset", JStr (preset t)) :: optional "logo" JStr (logo t)
        ++ optional "colors" colorsJs (colors t)).

Definition roleJs (r : Role) : JsValue :=
  JObj (("id", JStr (roleId r)) :: ("authRequired", JBool (authRequired r))
        :: optional "routePrefix" JStr (routePrefix r)).

Definition optionJs (o : FieldOption) : JsValue :=
  JObj [("value", JStr (optionValue o)); ("label", JStr (optionLabel o))].

Definition conditionJs (c : Condition) : JsValue :=
  JObj (("field", JStr (conditionField c)) :: ("operator", JStr (operator c))
        :: optional "value"
             (fun v => match v with CStr s => JStr s | CBool b => JBool b end)
             (conditionValue c)).

Definition ruleJs (r : ValidationRule) : JsValue :=
  JObj [("type", JStr (ruleType r));
        ("value", match ruleValue r with RStr s => JStr s | RNum z => number z end);
        ("message", JStr (ruleMessage r))].

Definition fieldJs (f : Field) : JsValue :=
  JObj (("id", JStr (fieldId f)) :: ("type", JStr (fieldType f))
        :: ("label", JStr (label f))
        :: optional "placeholder" JStr (placeholder f)
        ++ optional "required" JBool (required f)
        ++ optional "options" (fun os => JArr (map optionJs os)) (options f)
        ++ optional "condition" conditionJs (condition f)
        ++ optional "validation" (fun rs => JArr (map ruleJs rs)) (validation f)).

Definition actionJs (a : Action) : JsValue :=
  JObj (("id", JStr (actionId a)) :: ("label", JStr (actionLabel a))
        :: ("targetState", JStr (targetState a))
        :: optional "requiresNote" JBool (requiresNote a)
        ++ [("variant", JStr (variant a))]).

Definition pageJs (p : Page) : JsValue :=
  JObj (("id", JStr (pageId p)) :: ("route", JStr (route p))
        :: ("role", JStr (pageRole p)) :: ("type", JStr (pageType p))
        :: ("title", JStr (title p))
        :: optional "description" JStr (pageDescription p)
        ++ optional "fields" (fun fs => JArr (map fieldJs fs)) (fields p)
        ++ optional "actions" (fun acts => JArr (map actionJs acts)) (actions p)).

Definition transitionJs (t : Transition) : JsValue :=
  JObj [("from", match from t with FromState s => JStr s | FromStates ss => strings ss end);
        ("to", JStr (to t)); ("allowedRoles", strings (allowedRoles t))].

Definition workflowJs (w : WorkflowConfig) : JsValue :=
  JObj [("states", strings (states w)); ("initialState", JStr (initialState w));
        ("transitions", JArr (map transitionJs (transitions w)))].

Definition endpointsJs (e : Endpoints) : JsValue :=
  JObj [("createSubmission", JStr (createSubmission e));
        ("getSubmission", JStr (getSubmission e));
        ("resubmitSubmission", JStr (resubmitSubmission e));
        ("staffLogin", JStr (staffLogin e)); ("staffLogout", JStr (staffLogout e));
        ("staffSession", JStr (staffSession e));
        ("listSubmissions", JStr (listSubmissions e));
        ("getSubmissionDetail", JStr (getSubmissionDetail e));
        ("transitionSubmission", JStr (transitionSubmission e));
        ("trackEvent", JStr (trackEvent e))].

Definition apiJs (a : ApiConfig) : JsValue :=
  JObj [("baseUrl", JStr (baseUrl a)); ("endpoints", endpointsJs (endpoints a))].

Definition eventJs (e : AnalyticsEvent) : JsValue :=
  JObj (("name", JStr (eventName e)) :: ("trigger", JStr (trigger e))
        :: optional "page" JStr (eventPage e)).

Definition deploymentJs (d : Deployment) : JsValue :=
  JObj [("domain", JStr (domain d)); ("apiUrl", JStr (apiUrl d))].

Definition environmentsJs (e : EnvironmentConfig) : JsValue :=
  JObj [("staging", deploymentJs (staging e)); ("production", deploymentJs (production e))].

(** The JS value of a typed document *)
Definition toJs (spec : FastformAppSpec) : JsValue :=
  JObj [("id", JStr (id spec)); ("version", JStr (version spec));
        ("meta", metaJs (meta spec)); ("theme", themeJs (theme spec));
        ("roles", JArr (map roleJs (roles spec)));
        ("pages", JArr (map pageJs (pages spec)));
        ("workflow", workflowJs (workflow spec));
        ("api", apiJs (api spec));
        ("analytics", JObj [("events", JArr (map eventJs (events (analytics spec))))]);
        ("environments", environmentsJs (environments spec))].

End Encode.

(** ** The shape of names and slugs *)

Module NamingShape.
Import AppNaming.

(** [[a-z0-9-]] *)
Definition isSlugChar (c : N) : bool := isLowerAZ c || isDigit c || isHyphen c.

Definition beginsWith (p : N -> bool) (s : jsstring) : bool :=
  match s with
  | c :: _ => p c
  | [] => false
  end.

Definition endsWith (p : N -> bool) (s : jsstring) : bool := beginsWith p (rev s).

(** Two characters of the class next to each other *)
Fixpoint hasAdjacent (p : N -> bool) (s : jsstring) : bool :=
  match s with
  | c :: rest => (p c && beginsWith p rest) || hasAdjacent p rest
  | [] => false
  end.

(** A string matched by [/^[a-z0-9]+(-[a-z0-9]+)*$/], or the empty string,
    of at most SLUG_MAX_LENGTH code units *)
Definition isCleanSlug (s : jsstring) : bool :=
  forallb isSlugChar s && negb (beginsWith isHyphen s) && negb (endsWith isHyphen s)
  && negb (hasAdjacent isHyphen s) && (List.length s <=? SLUG_MAX_LENGTH)%nat.

(** The maximal runs of characters outside a class, in order *)
Fixpoint runsFrom (sep : N -> bool) (cur : jsstring) (s : jsstring) : list jsstring :=
  match s with
  | [] => match cur with [] => [] | _ => [rev cur] end
  | c :: s' =>
      if sep c
      then match cur with
           | [] => runsFrom sep [] s'
           | _ => rev cur :: runsFrom sep [] s'
           end
      else runsFrom sep (c :: cur) s'
  end.
Definition runs (sep : N -> bool) (s : jsstring) : list jsstring := runsFrom sep [] s.

(** The words of a text: its maximal runs of characters that are not white
    space *)
Definition words (s : jsstring) : list jsstring := runs isWhiteSpace s.

(** Anything but a lower-case ASCII letter or a digit *)
Definition isSlugSeparator (c : N) : bool := negb (isLowerAZ c || isDigit c).

(** The truncation that ends [generateSlug] *)
Definition truncateSlug (s : jsstring) : jsstring :=
  if (SLUG_MAX_LENGTH <? List.length s)%nat
  then dropWhileEnd isHyphen (firstn SLUG_MAX_LENGTH s)
  else s.

Section WithUnicodeTables.
Variables unicodeLower unicodeUpper : jsstring -> jsstring.

(** The title-cased text that [generateName] truncates *)
Definition titleCase (text : jsstring) : jsstring :=
  join [SPACE]
    (map (capitalize unicodeUpper) (splitWhiteSpace (toLowerCase unicodeLower text))).

End WithUnicodeTables.

End NamingShape.

(** ** What the validator asks of a document *)

Module Requirements.
Import Js.

(** [v.k] as a value: [undefined] where the read would throw *)
Definition property (k : string) (v : JsValue) : JsValue :=
  match Get v k with
  | Normal x => x
  | Throw _ => JUndefined
  end.

(** [doc.k1.k2...] *)
Definition read (path : list string) (doc : JsValue) : JsValue :=
  fold_left (fun v k => property k v) path doc.

Inductive Requirement : Type :=
| AString
| AnArray
| AnObject
| TheString (s : string).

Definition meets (r : Requirement) (v : JsValue) : bool :=
  match r with
  | AString => typeof v =? "string"
  | AnArray => isArray v
  | AnObject => truthy v && (typeof v =? "object")
  | TheString s => isString s v
  end.

Definition under (k : string) (reqs : list (list string * Requirement))
  : list (list string * Requirement) :=
  map (fun pr => (k :: fst pr, snd pr)) reqs.

Definition requiredOfMeta : list (list string * Requirement) :=
  [(["name"], AString); (["slug"], AString); (["description"], AString);
   (["orgId"], AString); (["orgSlug"], AString)].

Definition requiredOfTheme : list (list string * Requirement) :=
  [(["preset"], TheString "healthcare-calm")].

Definition requiredOfWorkflow : list (list string * Requirement) :=
  [(["states"], AnArray); (["initialState"], AString); (["transitions"], AnArray)].

Definition requiredOfApi : list (list string * Requirement) :=
  [(["baseUrl"], TheString "{{FASTFORM_API_URL}}"); (["endpoints"], AnObject);
   (["endpoints"; "createSubmission"], AString);
   (["endpoints"; "getSubmission"], AString);
   (["endpoints"; "resubmitSubmission"], AString);
   (["endpoints"; "staffLogin"], AString);
   (["endpoints"; "staffLogout"], AString);
   (["endpoints"; "staffSession"], AString);
   (["endpoints"; "listSubmissions"], AString);
   (["endpoints"; "getSubmissionDetail"], AString);
   (["endpoints"; "transitionSubmission"], AString);
   (["endpoints"; "trackEvent"], AString)].

Definition requiredOfAnalytics : list (list string * Requirement) :=
  [(["events"], AnArray)].

Definition requiredOfEnvironments : list (list string * Requirement) :=
  [(["staging"], AnObject); (["staging"; "domain"], AString);
   (["staging"; "apiUrl"], AString);
   (["production"], AnObject); (["production"; "domain"], AString);
   (["production"; "apiUrl"], AString)].

(** The properties that [isValidAppSpec] and its helpers test outside the
    elements of arrays, with what they test them for *)
Definition requiredProperties : list (list string * Requirement) :=
  [(["id"], AString); (["version"], TheString "0.3"); (["meta"], AnObject);
   (["theme"], AnObject); (["roles"], AnArray); (["pages"], AnArray);
   (["workflow"], AnObject); (["api"], AnObject); (["analytics"], AnObject);
   (["environments"], AnObject)]
  ++ under "meta" requiredOfMeta
  ++ under "theme" requiredOfTheme
  ++ under "workflow" requiredOfWorkflow
  ++ under "api" requiredOfApi
  ++ under "analytics" requiredOfAnalytics
  ++ under "environments" requiredOfEnvironments.

(** What the callbacks of [every] test of an element *)
Definition isRole (v : JsValue) : bool := isString "PATIENT" v || isString "STAFF" v.

Definition roleChecked (role : JsValue) : bool :=
  isRole (property "id" role) && (typeof (property "authRequired" role) =? "boolean").

Definition pageChecked (page : JsValue) : bool :=
  (typeof (property "id" page) =? "string")
  && (typeof (property "route" page) =? "string")
  && isRole (property "role" page)
  && includes AppSpec.validPageTypes (property "type" page)
  && (typeof (property "title" page) =? "string").

Definition eventChecked (event : JsValue) : bool :=
  (typeof (property "name" event) =? "string")
  && includes AppSpec.validTriggers (property "trigger" event).

Definition transitionChecked (transition : JsValue) : bool :=
  ((typeof (property "from" transition) =? "string")
   || match property "from" transition with
      | JArr states => forallb (fun s => typeof s =? "string") states
      | _ => false
      end)
  && (typeof (property "to" transition) =? "string")
  && isArray (property "allowedRoles" transition).

(** Every requirement of a list met *)
Definition all (reqs : list (list string * Requirement)) (v : JsValue) : bool :=
  forallb (fun pr => meets (snd pr) (read (fst pr) v)) reqs.

(** The elements of the array at a path (none when it is not an array) *)
Definition elementsAt (path : list string) (doc : JsValue) : list JsValue :=
  match read path doc with
  | JArr items => items
  | _ => []
  end.

(** Everything that is asked of a document *)
Definition satisfies (doc : JsValue) : bool :=
  all requiredProperties doc
  && forallb roleChecked (elementsAt ["roles"] doc)
  && forallb pageChecked (elementsAt ["pages"] doc)
  && forallb (includes AppSpec.validStates) (elementsAt ["workflow"; "states"] doc)
  && includes AppSpec.validStates (read ["workflow"; "initialState"] doc)
  && forallb transitionChecked (elementsAt ["workflow"; "transitions"] doc)
  && forallb eventChecked (elementsAt ["analytics"; "events"] doc).

End Requirements.

(** ** The validator on typed documents *)

Module TypedVerdict.
Import Js Schema.

Definition oneOf (l : list string) (s : string) : bool := existsb (fun t => s =? t) l.

(** The literal values that decide the verdict on a document of the shape
    of the interface [FastformAppSpec] *)
Definition checkedLiterals (spec : FastformAppSpec) : bool :=
  (version spec =? "0.3")
  && (preset (theme spec) =? "healthcare-calm")
  && forallb (fun r => oneOf ["PATIENT"; "STAFF"] (roleId r)) (roles spec)
  && forallb (fun p => oneOf ["PATIENT"; "STAFF"] (pageRole p)
                       && oneOf AppSpec.validPageTypes (pageType p)) (pages spec)
  && forallb (oneOf AppSpec.validStates) (states (workflow spec))
  && oneOf AppSpec.validStates (initialState (workflow spec))
  && (baseUrl (api spec) =? "{{FASTFORM_API_URL}}")
  && forallb (fun e => oneOf AppSpec.validTriggers (trigger e)) (events (analytics spec)).

End TypedVerdict.

(** ** The chat route handlers: [app/api/chat] *)

Module ChatRoute.
Import Js AppNaming.
Local Open Scope js_scope.

(** *** The client address *)

Definition COMMA : N := 44%N.

(** [s.split(c)] for a separator of one character *)
Fixpoint splitOnFrom (sep : N) (cur : jsstring) (s : jsstring) : list jsstring :=
  match s with
  | [] => [rev cur]
  | c :: s' =>
      if (c =? sep)%N then rev cur :: splitOnFrom sep [] s'
      else splitOnFrom sep (c :: cur) s'
  end.
Definition splitOn (sep : N) (s : jsstring) : list jsstring := splitOnFrom sep [] s.

(** ToBoolean of [headers.get(name)], which is a string or null *)
Definition present (header : option jsstring) : bool :=
  match header with
  | Some (_ :: _) => true
  | _ => false
  end.

(** getClientIP, of the headers [x-forwarded-for] and [x-real-ip] *)
Definition getClientIP (forwarded realIP : option jsstring) : Completion JsError jsstring :=
  if present forwarded then
    match splitOn COMMA (match forwarded with Some s => s | None => [] end) with
    | first :: _ => Normal (trim first)
    | [] => Throw (TypeError "Cannot read properties of undefined")
    end
  else if present realIP then Normal (match realIP with Some s => s | None => [] end)
  else Normal (str "unknown").

Definition noComma (s : jsstring) : bool := forallb (fun c => negb (c =? COMMA)%N) s.

(** *** Which flow a stored spec is sent to *)

(** [Object.keys(v).length] *)
Definition keysLength (v : JsValue) : Completion JsError nat :=
  match v with
  | JUndefined => Throw (TypeError "Cannot convert undefined or null to object")
  | JNull => Throw (TypeError "Cannot convert undefined or null to object")
  | JObj props => Normal (List.length (nodup string_dec (map fst props)))
  | JArr items => Normal (List.length items)
  | JStr s => Normal (String.length s)
  | JBool _ | JNum _ => Normal 0%nat
  end.

(** [isSpecEmpty], for an app that was found, of its [spec] *)
Definition isSpecEmpty (spec : JsValue) : AppSpec.Verdict :=
  ret (negb (truthy spec)) .||
  (ret (typeof spec =? "object") .&& (n <- keysLength spec ;; ret (n =? 0)%nat)).

(** [existingSpec && isValidAppSpec(existingSpec)], for an app that was found *)
Definition hasValidSpec (existingSpec : JsValue) : AppSpec.Verdict :=
  ret (truthy existingSpec) .&& AppSpec.isValidAppSpec existingSpec.

(** *** The drafts kept in memory *)

(** A JS [Map] with string keys: its entries, in insertion order *)
Definition JsMap (V : Type) : Type := list (string * V).

Fixpoint mapGet {V} (k : string) (m : JsMap V) : option V :=
  match m with
  | [] => None
  | (k', v) :: rest => if k' =? k then Some v else mapGet k rest
  end.

Definition mapHas {V} (k : string) (m : JsMap V) : bool :=
  match mapGet k m with
  | Some _ => true
  | None => false
  end.

(** [m.set(k, v)]: in place when the key is there, at the end otherwise *)
Fixpoint mapSet {V} (k : string) (v : V) (m : JsMap V) : JsMap V :=
  match m with
  | [] => [(k, v)]
  | (k', v') :: rest => if k' =? k then (k, v) :: rest else (k', v') :: mapSet k v rest
  end.

Definition mapDelete {V} (k : string) (m : JsMap V) : JsMap V :=
  filter (fun entry => negb (fst entry =? k)) m.

Record DraftStore : Type :=
  { draftAppSpecs : JsMap Schema.FastformAppSpec;
    draftTimestamps : JsMap Z }.

Definition noDrafts : DraftStore := {| draftAppSpecs := []; draftTimestamps := [] |}.

Definition DRAFT_EXPIRY_MS : Z := (60 * 60 * 1000)%Z.

(** One turn of the cleanup loop *)
Definition cleanupEntry (now : Z) (store : DraftStore) (entry : string * Z) : DraftStore :=
  let (sessionId, timestamp) := entry in
  if (now - timestamp >? DRAFT_EXPIRY_MS)%Z
  then {| draftAppSpecs := mapDelete sessionId (draftAppSpecs store);
          draftTimestamps := mapDelete sessionId (draftTimestamps store) |}
  else store.

(** The callback of [setInterval], run at time [now].  The loop visits the
    entries of [draftTimestamps]; the only entry it deletes is the one it is
    visiting, which leaves the entries still to be visited as they were. *)
Definition cleanup (now : Z) (store : DraftStore) : DraftStore :=
  fold_left (cleanupEntry now) (draftTimestamps store) store.

(** The two [set] calls that store a draft, in either branch of the handler *)
Definition storeDraft (currentSessionId : string) (draftSpec : Schema.FastformAppSpec)
  (now : Z) (store : DraftStore) : DraftStore :=
  {| draftAppSpecs := mapSet currentSessionId draftSpec (draftAppSpecs store);
     draftTimestamps := mapSet currentSessionId now (draftTimestamps store) |}.

(** What happens to the store while the process lives *)
Inductive StoreEvent : Type :=
| Stored (currentSessionId : string) (draftSpec : Schema.FastformAppSpec) (now : Z)
| CleanedUp (now : Z).

Definition storeStep (store : DraftStore) (event : StoreEvent) : DraftStore :=
  match event with
  | Stored currentSessionId draftSpec now => storeDraft currentSessionId draftSpec now store
  | CleanedUp now => cleanup now store
  end.

Definition storeAfter (events : list StoreEvent) : DraftStore :=
  fold_left storeStep events noDrafts.

(** The store holds a draft for exactly the sessions it holds a time stamp
    for, and no session twice. *)
Definition inStep (store : DraftStore) : Prop :=
  NoDup (map fst (draftTimestamps store)) /\
  forall sessionId,
    mapHas sessionId (draftAppSpecs store) = mapHas sessionId (draftTimestamps store).

(** An event that is neither a later store for [sessionId] nor a cleanup
    run more than the expiry after [storedAt] *)
Definition leaves (sessionId : string) (storedAt : Z) (event : StoreEvent) : bool :=
  match event with
  | Stored currentSessionId _ _ => negb (currentSessionId =? sessionId)
  | CleanedUp now => (now - storedAt <=? DRAFT_EXPIRY_MS)%Z
  end.

(** An entry of [sessionId] that the cleanup at [now] deletes *)
Definition expired (now : Z) (sessionId : string) (entry : string * Z) : bool :=
  (fst entry =? sessionId) && (now - snd entry >? DRAFT_EXPIRY_MS)%Z.

End ChatRoute.

(* ===================================================================== *)
(** * Part II: properties *)
(* ===================================================================== *)

(** ** The validator never throws *)

Module ValidatorProps.
Import Js AppSpec Documents.
Local Open Scope js_scope.

Lemma defined_Normal {E A} (a : A) : defined (@Normal E A a).
Proof. exists a; reflexivity. Qed.

Lemma every_total {E A} (f : A -> Completion E bool) (items : list A) :
  (forall x, defined (f x)) -> defined (every f items).
Proof.
  intros Hf. induction items as [|x rest IH]; cbn.
  - apply defined_Normal.
  - destruct (Hf x) as [b ->]. cbn. destruct b; [exact IH | apply defined_Normal].
Qed.

(** Evaluate as far as the guards allow, splitting on the values that are
    read and on the tests that are made. *)
Ltac crunch :=
  repeat (cbn; unfold ret; cbn;
    match goal with
    | |- defined (Normal _) => apply defined_Normal
    | |- context [every ?f ?l] =>
        let H := fresh "H" in
        assert (H : defined (every f l)) by (apply every_total; intro; crunch);
        destruct H as [? ->]
    | |- context [Get ?v _] => destruct v
    | |- context [callEvery ?v _] => destruct v
    | |- context [if ?b then _ else _] => destruct b
    end).

Lemma validateRoles_total roles : defined (validateRoles roles).
Proof. unfold validateRoles. crunch. Qed.

Lemma validatePages_total pages : defined (validatePages pages).
Proof. unfold validatePages. crunch. Qed.

Lemma validateWorkflow_total workflow : defined (validateWorkflow workflow).
Proof. unfold validateWorkflow. crunch. Qed.

Lemma validateApi_total api : defined (validateApi api).
Proof. unfold validateApi. crunch. Qed.

Lemma validateAnalytics_total analytics : defined (validateAnalytics analytics).
Proof. unfold validateAnalytics. crunch. Qed.

Lemma validateEnvironments_total environments : defined (validateEnvironments environments).
Proof. unfold validateEnvironments. crunch. Qed.

Ltac subvalidators :=
  repeat match goal with
    | |- context [validateRoles ?v] => destruct (validateRoles_total v) as [? ->]
    | |- context [validatePages ?v] => destruct (validatePages_total v) as [? ->]
    | |- context [validateWorkflow ?v] => destruct (validateWorkflow_total v) as [? ->]
    | |- context [validateApi ?v] => destruct (validateApi_total v) as [? ->]
    | |- context [validateAnalytics ?v] => destruct (validateAnalytics_total v) as [? ->]
    | |- context [validateEnvironments ?v] =>
        destruct (validateEnvironments_total v) as [? ->]
    end.

Lemma isValidAppSpec_total obj : defined (isValidAppSpec obj).
Proof.
  unfold isValidAppSpec, topLevelInvalid, metaInvalid, themeInvalid, fails.
  destruct obj; cbn; try apply defined_Normal.
  all: subvalidators.
  all: crunch.
Qed.

Lemma isString_false s v : v <> JStr s -> isString s v = false.
Proof.
  destruct v; cbn; try reflexivity.
  intros H. destruct (String.eqb_spec s0 s); [subst; congruence | reflexivity].
Qed.

Lemma not_object_rejected obj : typeof obj <> "object" -> isValidAppSpec obj = Normal false.
Proof.
  intros H. unfold isValidAppSpec.
  destruct (String.eqb_spec (typeof obj) "object") as [E|_]; [contradiction|].
  rewrite orb_true_r. reflexivity.
Qed.

(** A document whose [version] is not the string "0.3" is rejected at the
    top-level check, before anything else of it is read. *)
Lemma wrong_version_rejected obj :
  Get obj "version" <> Normal (JStr "0.3") -> isValidAppSpec obj = Normal false.
Proof.
  intros Hv. destruct obj as [| | b | n | s | items | props];
    try reflexivity; try (apply not_object_rejected; discriminate).
  unfold isValidAppSpec, topLevelInvalid. cbn in *.
  rewrite (isString_false "0.3" (lookup "version" props)) by congruence.
  cbn. destruct (typeof (lookup "id" props) =? "string"); reflexivity.
Qed.

(** ** What the validator reads, and what it does not *)

Lemma every_ext {E A} (f g : A -> Completion E bool) (items : list A) :
  (forall x, f x = g x) -> every f items = every g items.
Proof.
  intros H. induction items as [|x rest IH]; cbn; [reflexivity|].
  rewrite H, IH. reflexivity.
Qed.

Lemma every_mapFrom {E} (f : JsValue -> Completion E bool) (g : nat -> JsValue -> JsValue)
  (items : list JsValue) :
  (forall i x, f (g i x) = f x) ->
  forall i, every f (mapFrom i g items) = every f items.
Proof.
  intros H. induction items as [|x rest IH]; intros i; cbn; [reflexivity|].
  rewrite H, IH. reflexivity.
Qed.

Lemma isArray_mapItems g a : isArray (mapItems g a) = isArray a.
Proof. destruct a; reflexivity. Qed.

Lemma truthy_mapItems g a : truthy (mapItems g a) = truthy a.
Proof. destruct a; reflexivity. Qed.

Lemma truthy_setProperty k v o : truthy (setProperty k v o) = truthy o.
Proof. destruct o; reflexivity. Qed.

Lemma typeof_setProperty k v o : typeof (setProperty k v o) = typeof o.
Proof. destruct o; reflexivity. Qed.

Lemma truthy_updateProperty k f o : truthy (updateProperty k f o) = truthy o.
Proof. destruct o; reflexivity. Qed.

Lemma typeof_updateProperty k f o : typeof (updateProperty k f o) = typeof o.
Proof. destruct o; reflexivity. Qed.

(** Reading any other property of an edited object *)
Lemma Get_setProperty_other k v o k' : (k =? k') = false ->
  Get (setProperty k v o) k' = Get o k'.
Proof. intros H. destruct o; try reflexivity. cbn. rewrite H. reflexivity. Qed.

(** [validateRoles] does not read [routePrefix]. *)
Lemma validateRoles_ignores_routePrefix (routePrefixOf : nat -> JsValue) roles :
  validateRoles (mapItems (fun i => setProperty "routePrefix" (routePrefixOf i)) roles)
  = validateRoles roles.
Proof.
  destruct roles as [| | b | n | s | items | props]; try reflexivity.
  unfold validateRoles. cbn. apply every_mapFrom.
  intros i x. destruct x; reflexivity.
Qed.

(** [validatePages] does not read [fields]. *)
Lemma validatePages_ignores_fields (fieldsOf : nat -> JsValue) pages :
  validatePages (mapItems (fun i => setProperty "fields" (fieldsOf i)) pages)
  = validatePages pages.
Proof.
  destruct pages as [| | b | n | s | items | props]; try reflexivity.
  unfold validatePages. cbn. apply every_mapFrom.
  intros i x. destruct x; reflexivity.
Qed.

(** [validateAnalytics] does not read an event's [page]. *)
Lemma validateAnalytics_ignores_page (pageOf : nat -> JsValue) analytics :
  validateAnalytics
    (updateProperty "events" (mapItems (fun i => setProperty "page" (pageOf i))) analytics)
  = validateAnalytics analytics.
Proof.
  destruct analytics as [| | b | n | s | items | props]; try reflexivity.
  unfold validateAnalytics. cbn.
  destruct (lookup "events" props) as [| | b | n | s | items | eprops]; try reflexivity.
  cbn. apply every_mapFrom.
  intros i x. destruct x; reflexivity.
Qed.

#[local] Arguments validateRoles : simpl never.
#[local] Arguments validatePages : simpl never.
#[local] Arguments validateWorkflow : simpl never.
#[local] Arguments validateApi : simpl never.
#[local] Arguments validateAnalytics : simpl never.
#[local] Arguments validateEnvironments : simpl never.

Lemma isValidAppSpec_ignores_fields (fieldsOf : nat -> JsValue) doc :
  isValidAppSpec (overwriteFields fieldsOf doc) = isValidAppSpec doc.
Proof.
  destruct doc as [| | b | n | s | items | props]; try reflexivity.
  unfold overwriteFields, isValidAppSpec, topLevelInvalid, metaInvalid, themeInvalid, fails.
  cbn. rewrite isArray_mapItems, validatePages_ignores_fields. reflexivity.
Qed.

Lemma isValidAppSpec_ignores_optional logo colors routePrefixOf pageOf doc :
  isValidAppSpec (overwriteOptional logo colors routePrefixOf pageOf doc)
  = isValidAppSpec doc.
Proof.
  destruct doc as [| | b | n | s | items | props]; try reflexivity.
  unfold overwriteOptional, isValidAppSpec, topLevelInvalid, metaInvalid, themeInvalid, fails.
  cbn.
  rewrite isArray_mapItems, validateRoles_ignores_routePrefix,
    validateAnalytics_ignores_page, truthy_updateProperty.
  rewrite !truthy_setProperty, !typeof_setProperty.
  rewrite !Get_setProperty_other by reflexivity.
  reflexivity.
Qed.

(** ** What acceptance implies *)

Lemma every_true {E A} (f : A -> Completion E bool) (items : list A) :
  every f items = Normal true -> Forall (fun x => f x = Normal true) items.
Proof.
  induction items as [|x rest IH]; cbn; intros H; [constructor|].
  destruct (f x) as [[|]|e] eqn:Hx; cbn in H; try discriminate.
  constructor; [exact Hx | auto].
Qed.

Lemma includes_true list v :
  includes list v = true -> exists t, v = JStr t /\ In t list.
Proof.
  unfold includes. intros H. apply existsb_exists in H. destruct H as (s & Hin & Hs).
  destruct v; cbn in Hs; try discriminate.
  apply String.eqb_eq in Hs. subst. eauto.
Qed.

#[local] Arguments includes : simpl never.

(** Follow an accepted evaluation backwards: every test on the way was
    passed, every value read was of the expected kind. *)
Ltac accepted H :=
  repeat (cbn in H; unfold ret in H; cbn in H;
    match type of H with
    | Throw _ = Normal _ => discriminate H
    | Normal false = Normal true => discriminate H
    | context [callEvery ?v _] => destruct v eqn:?
    | context [Get ?v _] => destruct v eqn:?
    | context [every ?f ?l] => destruct (every f l) as [[|]|] eqn:?
    | context [validateRoles ?v] => destruct (validateRoles v) as [[|]|] eqn:?
    | context [validatePages ?v] => destruct (validatePages v) as [[|]|] eqn:?
    | context [validateWorkflow ?v] => destruct (validateWorkflow v) as [[|]|] eqn:?
    | context [validateApi ?v] => destruct (validateApi v) as [[|]|] eqn:?
    | context [validateAnalytics ?v] => destruct (validateAnalytics v) as [[|]|] eqn:?
    | context [validateEnvironments ?v] =>
        destruct (validateEnvironments v) as [[|]|] eqn:?
    | context [if ?b then _ else _] => destruct b eqn:?
    end).

Lemma validatePages_true pages :
  validatePages pages = Normal true ->
  exists items, pages = JArr items /\ Forall pageTypeValid items.
Proof.
  unfold validatePages. intros H.
  destruct pages as [| | b | n | s | items | props]; try discriminate.
  exists items. split; [reflexivity|].
  cbn in H. apply every_true in H.
  eapply Forall_impl; [|exact H].
  intros page Hp. cbv beta in Hp. unfold pageTypeValid.
  destruct page as [| | b | n | s | elems | props]; accepted Hp.
  all: match goal with
       | E : includes _ _ = true |- _ =>
           apply includes_true in E; destruct E as (t & Et & Hin);
           exists t; cbn; rewrite Et; split; [reflexivity | exact Hin]
       end.
Qed.

Lemma validateWorkflow_true wf :
  validateWorkflow wf = Normal true ->
  exists states initial,
    Get wf "states" = Normal (JArr states) /\ Forall stateValid states /\
    Get wf "initialState" = Normal (JStr initial) /\ In initial validStates.
Proof.
  unfold validateWorkflow. intros H.
  destruct wf as [| | b | n | s | items | props]; accepted H.
  match goal with
  | E : negb (includes _ (lookup "initialState" _)) = false,
    S : lookup "states" _ = JArr ?items,
    V : every _ ?items = Normal true |- _ =>
      apply negb_false_iff, includes_true in E; destruct E as (initial & Ei & Hi);
      exists items, initial; cbn; rewrite Ei, S;
      repeat split; try assumption;
      apply every_true in V; eapply Forall_impl; [|exact V];
      intros st Hst; cbv beta in Hst; unfold stateValid;
      apply includes_true; congruence
  end.
Qed.

Lemma isValidAppSpec_true doc :
  isValidAppSpec doc = Normal true ->
  exists props, doc = JObj props /\
    validatePages (lookup "pages" props) = Normal true /\
    validateWorkflow (lookup "workflow" props) = Normal true.
Proof.
  unfold isValidAppSpec, topLevelInvalid, metaInvalid, themeInvalid, fails. intros H.
  destruct doc as [| | b | n | s | items | props]; accepted H.
  all: exists props; repeat split; assumption.
Qed.

(** ** The claims about the validator *)

(** C3, as amended.  [isValidAppSpec] accepts a document only if its
    [pages] is an array whose every element has a [type] among the seven
    page types, its [workflow.states] is an array of the five workflow-state
    literals and its [workflow.initialState] is one of those five literals
    (membership in the document's own [states] is not required); a page's
    [fields] is never read, so whatever it holds, field types included, the
    document stays accepted. *)
Theorem isValidAppSpec_accepts_checked_shape (doc : JsValue) :
  isValidAppSpec doc = Normal true ->
  (exists pages wf states initial,
      Get doc "pages" = Normal (JArr pages) /\
      Forall pageTypeValid pages /\
      Get doc "workflow" = Normal wf /\
      Get wf "states" = Normal (JArr states) /\
      Forall stateValid states /\
      Get wf "initialState" = Normal (JStr initial) /\
      In initial validStates) /\
  (forall fieldsOf : nat -> JsValue,
      isValidAppSpec (overwriteFields fieldsOf doc) = Normal true).
Proof.
  intros H. split.
  - destruct (isValidAppSpec_true doc H) as (props & -> & Hp & Hw).
    destruct (validatePages_true _ Hp) as (pages & Epages & Hpages).
    destruct (validateWorkflow_true _ Hw) as (states & initial & Es & Hs & Ei & Hi).
    exists pages, (lookup "workflow" props), states, initial.
    cbn. rewrite Epages. repeat split; assumption.
  - intros fieldsOf. rewrite isValidAppSpec_ignores_fields. exact H.
Qed.

Lemma isValidAppSpec_accepts_checked_shape_witness :
  (exists pages wf states initial,
      Get validDocument "pages" = Normal (JArr pages) /\
      Forall pageTypeValid pages /\
      Get validDocument "workflow" = Normal wf /\
      Get wf "states" = Normal (JArr states) /\
      Forall stateValid states /\
      Get wf "initialState" = Normal (JStr initial) /\
      In initial validStates) /\
  (forall fieldsOf : nat -> JsValue,
      isValidAppSpec (overwriteFields fieldsOf validDocument) = Normal true).
Proof. apply (isValidAppSpec_accepts_checked_shape validDocument). reflexivity. Defined.

(** C3, refuted as stated: a document whose pages carry a field of type
    "file", which is none of the nine field types, is accepted; so is a
    document whose initial state, DRAFT, is not among its own states. *)
Lemma isValidAppSpec_accepts_file_field_and_foreign_initial_state :
  (isValidAppSpec fileFieldDocument = Normal true /\
   exists pages page,
     Get fileFieldDocument "pages" = Normal (JArr pages) /\ In page pages /\
     Get page "fields" = Normal (JArr [fileField]) /\
     Get fileField "type" = Normal (JStr "file") /\
     includes FIELD_TYPES (JStr "file") = false) /\
  (isValidAppSpec initialStateOutsideStates = Normal true /\
   GetE (Get initialStateOutsideStates "workflow") "states"
     = Normal (strs ["SUBMITTED"; "APPROVED"]) /\
   GetE (Get initialStateOutsideStates "workflow") "initialState" = Normal (JStr "DRAFT") /\
   includes ["SUBMITTED"; "APPROVED"] (JStr "DRAFT") = false).
Proof.
  split.
  - split; [reflexivity|].
    eexists. eexists. split; [reflexivity|]. split; [left; reflexivity|].
    repeat split; reflexivity.
  - repeat split; reflexivity.
Qed.

(** C5.  [isValidAppSpec] returns a boolean for every input, without
    throwing; it returns false for null, for undefined, for every input that
    is not an object, for arrays, for the empty object, and for every
    document whose [version] is anything but the string "0.3", the number
    0.3 included. *)
Theorem isValidAppSpec_never_throws :
  (forall obj, exists b, isValidAppSpec obj = Normal b) /\
  isValidAppSpec JNull = Normal false /\
  isValidAppSpec JUndefined = Normal false /\
  (forall obj, typeof obj <> "object" -> isValidAppSpec obj = Normal false) /\
  (forall items, isValidAppSpec (JArr items) = Normal false) /\
  isValidAppSpec (JObj []) = Normal false /\
  (forall obj, Get obj "version" <> Normal (JStr "0.3") ->
               isValidAppSpec obj = Normal false) /\
  (forall props, lookup "version" props = JNum (Finite (3 # 10)%Q) ->
                 isValidAppSpec (JObj props) = Normal false).
Proof.
  split; [exact isValidAppSpec_total|].
  split; [reflexivity|]. split; [reflexivity|].
  split; [exact not_object_rejected|].
  split; [reflexivity|]. split; [reflexivity|].
  split; [exact wrong_version_rejected|].
  intros props Hv. apply wrong_version_rejected. cbn. rewrite Hv. discriminate.
Qed.

Lemma isValidAppSpec_never_throws_witness :
  isValidAppSpec (JStr "string") = Normal false /\
  isValidAppSpec numericVersionDocument = Normal false.
Proof.
  destruct isValidAppSpec_never_throws as (_ & _ & _ & Hprim & _ & _ & Hversion & _).
  split.
  - apply Hprim. discriminate.
  - apply Hversion. discriminate.
Defined.

(** C10.  [isValidAppSpec] never reads [theme.logo], [theme.colors], a
    role's [routePrefix] or an analytics event's [page]: whatever values
    they are given, its result is the same, so a document that passes the
    checks of its required properties is still accepted. *)
Theorem isValidAppSpec_ignores_optional_properties
  (logo colors : JsValue) (routePrefixOf pageOf : nat -> JsValue) (doc : JsValue) :
  isValidAppSpec (overwriteOptional logo colors routePrefixOf pageOf doc)
  = isValidAppSpec doc /\
  (isValidAppSpec doc = Normal true ->
   isValidAppSpec (overwriteOptional logo colors routePrefixOf pageOf doc) = Normal true).
Proof.
  split.
  - apply isValidAppSpec_ignores_optional.
  - intros H. rewrite isValidAppSpec_ignores_optional. exact H.
Qed.

(** [theme.logo = 42], [theme.colors = "red"], [routePrefix = false] and
    [page = null] on the valid document of the test-suite *)
Lemma isValidAppSpec_ignores_optional_properties_witness :
  isValidAppSpec
    (overwriteOptional (JNum (Finite (42 # 1)%Q)) (JStr "red")
       (fun _ => JBool false) (fun _ => JNull) validDocument) = Normal true.
Proof.
  apply (isValidAppSpec_ignores_optional_properties
           (JNum (Finite (42 # 1)%Q)) (JStr "red") (fun _ => JBool false) (fun _ => JNull)
           validDocument).
  reflexivity.
Defined.

End ValidatorProps.

(** ** The naming heuristic *)

Module NamingProps.
Import AppNaming.

Lemma startsWith_prefix (s p : jsstring) :
  startsWith s p = true <-> exists rest, s = p ++ rest.
Proof.
  revert s. induction p as [|c p IH]; intros s; cbn.
  - split; [intros _; exists s; reflexivity | reflexivity].
  - destruct s as [|d s]; [split; [discriminate | intros [rest H]; discriminate]|].
    rewrite andb_true_iff, N.eqb_eq, IH. split.
    + intros [-> [rest ->]]. exists rest. reflexivity.
    + intros [rest H]. injection H as -> ->. split; [reflexivity | exists rest; reflexivity].
Qed.

Lemma startsWith_no_prefix (s p : jsstring) :
  startsWith s p = false <-> forall rest, s <> p ++ rest.
Proof.
  split.
  - intros H rest E. assert (startsWith s p = true) by (apply startsWith_prefix; eauto).
    congruence.
  - intros H. destruct (startsWith s p) eqn:E; [|reflexivity].
    apply startsWith_prefix in E. destruct E as [rest E]. destruct (H rest E).
Qed.

(** *** Characters that survive, or do not survive, each step *)

Lemma In_dropWhile (p : N -> bool) (s : jsstring) (c : N) :
  In c (dropWhile p s) -> In c s.
Proof.
  induction s as [|d s IH]; cbn; [tauto|].
  destruct (p d); [right; auto | cbn; tauto].
Qed.

Lemma In_dropWhileEnd (p : N -> bool) (s : jsstring) (c : N) :
  In c (dropWhileEnd p s) -> In c s.
Proof.
  unfold dropWhileEnd. intros H. apply in_rev, In_dropWhile in H. apply in_rev. exact H.
Qed.

Lemma In_trim (s : jsstring) (c : N) : In c (trim s) -> In c s.
Proof. unfold trim. intros H. apply In_dropWhileEnd, In_dropWhile in H. exact H. Qed.

Lemma In_replaceRunsFrom (p : N -> bool) (r : jsstring) (inRun : bool) (s : jsstring) (c : N) :
  In c (replaceRunsFrom p r inRun s) -> In c r \/ (In c s /\ p c = false).
Proof.
  revert inRun. induction s as [|d s IH]; intros inRun; cbn; [tauto|].
  destruct (p d) eqn:E.
  - destruct inRun.
    + intros H. destruct (IH _ H); tauto.
    + intros H. apply in_app_or in H. destruct H as [H | H]; [tauto|].
      destruct (IH _ H); tauto.
  - cbn. intros [<- | H]; [tauto|]. destruct (IH _ H); tauto.
Qed.

Lemma dropWhile_all (p : N -> bool) (s : jsstring) :
  (forall c, In c s -> p c = true) -> dropWhile p s = [].
Proof.
  induction s as [|d s IH]; intros H; cbn; [reflexivity|].
  rewrite (H d (or_introl eq_refl)). apply IH. intros c Hc. apply H. right. exact Hc.
Qed.

Lemma filter_all (p : N -> bool) (s : jsstring) :
  (forall c, In c s -> p c = true) -> filter p s = s.
Proof.
  induction s as [|d s IH]; intros H; cbn; [reflexivity|].
  rewrite (H d (or_introl eq_refl)). f_equal. apply IH. intros c Hc. apply H. right; exact Hc.
Qed.

Lemma map_fixed (f : N -> N) (s : jsstring) :
  (forall c, In c s -> f c = c) -> map f s = s.
Proof.
  induction s as [|d s IH]; intros H; cbn; [reflexivity|].
  rewrite (H d (or_introl eq_refl)). f_equal. apply IH. intros c Hc. apply H. right; exact Hc.
Qed.

(** A property of the 128 ASCII code units, settled by running through them *)
Lemma for_all_ascii (P : N -> bool) :
  forallb P (map N.of_nat (seq 0 128)) = true ->
  forall c, isAscii c = true -> P c = true.
Proof.
  intros H c Hc. rewrite forallb_forall in H. apply H.
  unfold isAscii in Hc. apply N.leb_le in Hc.
  rewrite <- (N2Nat.id c). apply in_map, in_seq. lia.
Qed.

Lemma nonAlnum_ascii (c : N) : isAsciiNonAlnum c = true -> isAscii c = true.
Proof. unfold isAsciiNonAlnum. intros H. apply andb_true_iff in H. tauto. Qed.

(** What the slug steps make of one ASCII character that is neither a
    letter nor a digit: it is its own lower case, it is kept by the two
    filters, and it ends as white space or a hyphen. *)
Lemma nonAlnum_steps (c : N) :
  isAsciiNonAlnum c = true ->
  asciiLower c = c /\
  negb (isCombiningMark c) = true /\
  let c1 := if (c =? UNDERSCORE)%N then HYPHEN else c in
  let c2 := if isLowerAZ c1 || isDigit c1 || isWhiteSpace c1 || isHyphen c1
            then c1 else SPACE in
  isWhiteSpace c2 || isHyphen c2 = true.
Proof.
  intros H.
  pose (P := fun c : N =>
            implb (isAsciiNonAlnum c)
              ((asciiLower c =? c)%N && negb (isCombiningMark c) &&
               (let c1 := if (c =? UNDERSCORE)%N then HYPHEN else c in
                let c2 := if isLowerAZ c1 || isDigit c1 || isWhiteSpace c1 || isHyphen c1
                          then c1 else SPACE in
                isWhiteSpace c2 || isHyphen c2))).
  assert (Hall : P c = true)
    by (apply for_all_ascii; [vm_compute; reflexivity | apply nonAlnum_ascii, H]).
  subst P. cbv beta in Hall. rewrite H in Hall. cbn [implb] in Hall.
  apply andb_true_iff in Hall. destruct Hall as [Hall H3].
  apply andb_true_iff in Hall. destruct Hall as [H1 H2].
  apply N.eqb_eq in H1. auto.
Qed.

Lemma nonAlnum_not_alnum (c : N) : isAsciiNonAlnum c = true -> isAlnum c = false.
Proof.
  unfold isAsciiNonAlnum. intros H. apply andb_true_iff in H.
  destruct H as [_ H]. apply negb_true_iff in H. exact H.
Qed.

(** Every listed prefix begins with a letter. *)
Lemma prefixes_begin_with_a_letter :
  Forall (fun p => exists c rest, p = c :: rest /\ isAlnum c = true) COMMON_PREFIXES.
Proof. repeat constructor; eexists; eexists; split; reflexivity. Qed.

Lemma startsWith_letter (s p : jsstring) :
  (forall c, In c s -> isAlnum c = false) ->
  (exists c rest, p = c :: rest /\ isAlnum c = true) ->
  startsWith s p = false.
Proof.
  intros Hs (c & rest & -> & Hc). destruct s as [|d s]; [reflexivity|]. cbn.
  destruct (N.eqb_spec d c) as [->|]; [|reflexivity].
  rewrite (Hs c (or_introl eq_refl)) in Hc. discriminate.
Qed.

Section WithUnicodeTables.
Variables unicodeLower unicodeUpper unicodeNFD : jsstring -> jsstring.

Local Abbreviation toLowerCase := (toLowerCase unicodeLower).
Local Abbreviation generateName := (generateName unicodeLower unicodeUpper).
Local Abbreviation generateSlug := (generateSlug unicodeLower unicodeNFD).
Local Abbreviation generateHeuristicName :=
  (generateHeuristicName unicodeLower unicodeUpper unicodeNFD).

(** The loop strips nothing when no prefix starts the lowered text, and
    otherwise strips once, the first prefix of the list that starts it. *)
Lemma stripPrefix_once (prefixes : list jsstring) (lowered processed : jsstring) :
  (Forall (fun p => forall rest, lowered <> p ++ rest) prefixes /\
   stripPrefix prefixes lowered processed = processed)
  \/
  (exists before p after,
      prefixes = before ++ p :: after /\
      Forall (fun q => forall rest, lowered <> q ++ rest) before /\
      (exists rest, lowered = p ++ rest) /\
      stripPrefix prefixes lowered processed = trim (skipn (List.length p) processed)).
Proof.
  induction prefixes as [|p prefixes IH]; cbn.
  - left. split; [constructor | reflexivity].
  - destruct (startsWith lowered p) eqn:E.
    + right. exists [], p, prefixes. cbn.
      repeat split; [constructor | apply startsWith_prefix; exact E].
    + pose proof (proj1 (startsWith_no_prefix _ _) E) as Hp.
      destruct IH as [[Hnone Hsame] | (before & q & after & -> & Hbefore & Hq & Hstrip)].
      * left. split; [constructor; assumption | exact Hsame].
      * right. exists (p :: before), q, after. cbn.
        repeat split; [constructor; assumption | exact Hq | exact Hstrip].
Qed.

Lemma ascii_string (s : jsstring) :
  (forall c, In c s -> isAsciiNonAlnum c = true) -> forallb isAscii s = true.
Proof. intros H. apply forallb_forall. intros c Hc. apply nonAlnum_ascii, H, Hc. Qed.

Lemma toLowerCase_nonAlnum (s : jsstring) :
  (forall c, In c s -> isAsciiNonAlnum c = true) -> toLowerCase s = s.
Proof.
  intros H. unfold AppNaming.toLowerCase. rewrite (ascii_string s H).
  apply map_fixed. intros c Hc. apply nonAlnum_steps, H, Hc.
Qed.

(** White space only: nothing is left after normalisation. *)
Lemma normalizeWhiteSpace_blank (intent : jsstring) :
  (forall c, In c intent -> isWhiteSpace c = true) -> normalizeWhiteSpace intent = [].
Proof.
  intros H. unfold normalizeWhiteSpace, trim.
  rewrite dropWhile_all; [reflexivity|].
  intros c Hc. apply In_replaceRunsFrom in Hc.
  destruct Hc as [[<- | []] | [Hc Hw]]; [reflexivity|].
  rewrite (H c Hc) in Hw. discriminate.
Qed.

Lemma normalizeWhiteSpace_nonAlnum (intent : jsstring) :
  (forall c, In c intent -> isAsciiNonAlnum c = true) ->
  forall c, In c (normalizeWhiteSpace intent) -> isAsciiNonAlnum c = true.
Proof.
  intros H c Hc. unfold normalizeWhiteSpace in Hc.
  apply In_trim, In_replaceRunsFrom in Hc.
  destruct Hc as [[<- | []] | [Hc _]]; [reflexivity | apply H, Hc].
Qed.

(** Nothing is stripped from a text without letters. *)
Lemma stripPrefix_nonAlnum (s : jsstring) :
  (forall c, In c s -> isAsciiNonAlnum c = true) ->
  stripPrefix COMMON_PREFIXES s s = s.
Proof.
  intros H.
  assert (Hnone : forall prefixes,
             Forall (fun p => exists c rest, p = c :: rest /\ isAlnum c = true) prefixes ->
             stripPrefix prefixes s s = s).
  { induction 1 as [|p prefixes Hp _ IH]; cbn; [reflexivity|].
    rewrite (startsWith_letter s p); [exact IH | | exact Hp].
    intros c Hc. apply nonAlnum_not_alnum, H, Hc. }
  apply Hnone, prefixes_begin_with_a_letter.
Qed.

(** The slug of a text without letters or digits is empty. *)
Lemma generateSlug_nonAlnum (s : jsstring) :
  (forall c, In c s -> isAsciiNonAlnum c = true) -> generateSlug s = [].
Proof.
  intros H. unfold AppNaming.generateSlug, normalizeNFD.
  rewrite (toLowerCase_nonAlnum s H), (ascii_string s H).
  rewrite (filter_all _ s) by (intros c Hc; apply nonAlnum_steps, H, Hc).
  rewrite (filter_all isAscii s) by (intros c Hc; apply nonAlnum_ascii, H, Hc).
  rewrite map_map.
  set (s3 := map _ s).
  assert (H3 : forall c, In c s3 -> isWhiteSpace c || isHyphen c = true).
  { intros c Hc. subst s3. apply in_map_iff in Hc. destruct Hc as (c0 & <- & Hc0).
    apply (nonAlnum_steps c0 (H c0 Hc0)). }
  set (s4 := replaceRuns isWhiteSpace [HYPHEN] s3).
  assert (H4 : forall c, In c s4 -> isHyphen c = true).
  { intros c Hc. subst s4. apply In_replaceRunsFrom in Hc.
    destruct Hc as [[<- | []] | [Hc Hw]]; [reflexivity|].
    specialize (H3 c Hc). rewrite Hw in H3. exact H3. }
  rewrite (dropWhile_all isHyphen).
  - reflexivity.
  - intros c Hc. apply In_replaceRunsFrom in Hc.
    destruct Hc as [[<- | []] | [Hc _]]; [reflexivity | apply H4, Hc].
Qed.

Lemma filter_none (p : N -> bool) (s : jsstring) :
  (forall c, In c s -> p c = false) -> filter p s = [].
Proof.
  induction s as [|d s IH]; intros H; cbn; [reflexivity|].
  rewrite (H d (or_introl eq_refl)). apply IH. intros c Hc. apply H. right; exact Hc.
Qed.

(** The slug of a text that, lowered and decomposed, has no ASCII code unit
    (an emoji, for one) is empty. *)
Lemma generateSlug_nonAscii (s : jsstring) :
  (forall c, In c (normalizeNFD unicodeNFD (toLowerCase s)) -> isAscii c = false) ->
  generateSlug s = [].
Proof.
  intros H. unfold AppNaming.generateSlug.
  rewrite (filter_none isAscii); [reflexivity|].
  intros c Hc. apply filter_In in Hc. apply H, Hc.
Qed.

(** C7.  The empty string, every text of white space only, such as three
    spaces, and every text of ASCII punctuation, symbols and spaces only,
    such as "!@#$%", yield the fixed fallback; every input yields a name and
    a slug, and the slug is never empty. *)
Theorem generateHeuristicName_fallback :
  generateHeuristicName (str EmptyString) = fallback /\
  generateHeuristicName (str "   ") = fallback /\
  generateHeuristicName (str "!@#$%") = fallback /\
  fallback = {| name := str "Untitled App"; slug := str "untitled-app" |} /\
  (forall intent, forallb isWhiteSpace intent = true ->
                  generateHeuristicName intent = fallback) /\
  (forall intent, forallb isAsciiNonAlnum intent = true ->
                  generateHeuristicName intent = fallback) /\
  forall intent, exists n s,
      generateHeuristicName intent = {| name := n; slug := s |} /\ s <> [].
Proof.
  split; [reflexivity|]. split; [reflexivity|]. split; [reflexivity|].
  split; [reflexivity|]. split; [|split].
  { intros intent H. rewrite forallb_forall in H.
    unfold AppNaming.generateHeuristicName.
    rewrite (normalizeWhiteSpace_blank intent H). reflexivity. }
  { intros intent H. rewrite forallb_forall in H.
    pose proof (normalizeWhiteSpace_nonAlnum intent H) as Hn.
    unfold AppNaming.generateHeuristicName.
    rewrite (toLowerCase_nonAlnum _ Hn), (stripPrefix_nonAlnum _ Hn).
    rewrite (generateSlug_nonAlnum _ Hn).
    destruct (List.length (normalizeWhiteSpace intent) =? 0)%nat; reflexivity. }
  intros intent. unfold AppNaming.generateHeuristicName.
  set (processed := stripPrefix _ _ _).
  destruct (List.length processed =? 0)%nat.
  - exists (str "Untitled App"), (str "untitled-app"). split; [reflexivity | discriminate].
  - destruct (List.length (generateSlug processed) =? 0)%nat eqn:E.
    + exists (str "Untitled App"), (str "untitled-app"). split; [reflexivity | discriminate].
    + eexists. eexists. split; [reflexivity|].
      intros Hs. rewrite Hs in E. discriminate.
Qed.

(** C8.  On the whitespace-normalised intent, lowered, either no prefix of
    the list is an initial segment and nothing is stripped, or exactly one
    is stripped: the first of the list that is an initial segment, followed
    by a trim.  Hence a prefix in the middle of the text is left alone, a
    second prefix after the first is left alone, and matching is blind to
    case. *)
Theorem generateHeuristicName_strips_one_leading_prefix :
  (forall intent,
      let normalized := normalizeWhiteSpace intent in
      let lowered := toLowerCase normalized in
      let processed := stripPrefix COMMON_PREFIXES lowered normalized in
      (Forall (fun p => forall rest, lowered <> p ++ rest) COMMON_PREFIXES /\
       processed = normalized)
      \/
      (exists before p after,
          COMMON_PREFIXES = before ++ p :: after /\
          Forall (fun q => forall rest, lowered <> q ++ rest) before /\
          (exists rest, lowered = p ++ rest) /\
          processed = trim (skipn (List.length p) normalized))) /\
  generateHeuristicName (str "I need a task manager app")
  = {| name := str "Task Manager App"; slug := str "task-manager-app" |} /\
  generateHeuristicName (str "i NEED a Weather App")
  = {| name := str "Weather App"; slug := str "weather-app" |} /\
  generateHeuristicName (str "please build me a todo list")
  = {| name := str "Please Build Me A Todo List"; slug := str "please-build-me-a-todo-list" |} /\
  generateHeuristicName (str "I need a create a blog")
  = {| name := str "Create A Blog"; slug := str "create-a-blog" |}.
Proof.
  split; [intros intent; cbv zeta; apply stripPrefix_once|].
  repeat split; vm_compute; reflexivity.
Qed.

(** C9.  When the remainder after normalisation and prefix stripping is not
    empty but its slug is, the name already computed is dropped and the
    fallback pair is returned; in every case the result is either the
    fallback pair or the computed name with the computed slug. *)
Theorem generateHeuristicName_falls_back_as_a_pair (intent : jsstring) :
  let normalized := normalizeWhiteSpace intent in
  let processed := stripPrefix COMMON_PREFIXES (toLowerCase normalized) normalized in
  (List.length processed =? 0)%nat = false ->
  (List.length (generateSlug processed) =? 0)%nat = true ->
  generateHeuristicName intent = fallback /\
  (forall other,
      let normalized' := normalizeWhiteSpace other in
      let processed' := stripPrefix COMMON_PREFIXES (toLowerCase normalized') normalized' in
      generateHeuristicName other = fallback \/
      generateHeuristicName other
      = {| name := generateName processed'; slug := generateSlug processed' |}).
Proof.
  cbv zeta. intros Hp Hs. split.
  - unfold AppNaming.generateHeuristicName. rewrite Hp, Hs. reflexivity.
  - clear Hp Hs. intros other. unfold AppNaming.generateHeuristicName.
    set (processed := stripPrefix _ _ _).
    destruct (List.length processed =? 0)%nat; [left; reflexivity|].
    destruct (List.length (generateSlug processed) =? 0)%nat; [left | right]; reflexivity.
Qed.

End WithUnicodeTables.

(** Ten punctuation marks; a tab, a line feed and a no-break space *)
Lemma generateHeuristicName_fallback_witness :
  generateHeuristicName (fun s => s) (fun s => s) (fun s => s) (str "!@#$%^&*()") = fallback /\
  generateHeuristicName (fun s => s) (fun s => s) (fun s => s) [9%N; 10%N; 160%N] = fallback.
Proof.
  destruct (generateHeuristicName_fallback (fun s => s) (fun s => s) (fun s => s))
    as (_ & _ & _ & _ & Hblank & Hpunctuation & _).
  split; [apply Hpunctuation | apply Hblank]; reflexivity.
Defined.

(** An emoji has neither case mappings nor a decomposition: on it the
    engine's tables are the identity. *)
Lemma generateHeuristicName_falls_back_as_a_pair_witness :
  generateHeuristicName (fun s => s) (fun s => s) (fun s => s) rocket = fallback.
Proof.
  apply (generateHeuristicName_falls_back_as_a_pair
           (fun s => s) (fun s => s) (fun s => s) rocket); reflexivity.
Defined.

End NamingProps.

(** ** The prompt compiler *)

Module CompilerProps.
Import Js Schema Compiler.
Local Open Scope js_scope.
Local Infix "+++" := String.append (at level 60, right associativity).

(** *** Substrings *)

Lemma append_assoc (a b c : string) : (a +++ b) +++ c = a +++ (b +++ c).
Proof. induction a as [|x a IH]; cbn; [reflexivity | rewrite IH; reflexivity]. Qed.

Lemma append_empty_r (a : string) : a +++ EmptyString = a.
Proof. induction a as [|x a IH]; cbn; [reflexivity | rewrite IH; reflexivity]. Qed.

Lemma strStartsWith_spec (s p : string) :
  strStartsWith s p = true <-> exists rest, s = p +++ rest.
Proof.
  revert s. induction p as [|c p IH]; intros s; cbn.
  - split; [intros _; exists s; reflexivity | reflexivity].
  - destruct s as [|d s]; [split; [discriminate | intros [rest H]; discriminate]|].
    rewrite andb_true_iff, Ascii.eqb_eq, IH. split.
    + intros [-> [rest ->]]. exists rest. reflexivity.
    + intros [rest H]. injection H as -> ->. split; [reflexivity | exists rest; reflexivity].
Qed.

(** [s.includes(sub)] holds exactly when [sub] occurs somewhere in [s]. *)
Lemma strIncludes_spec (s sub : string) :
  strIncludes s sub = true <-> exists a b, s = a +++ sub +++ b.
Proof.
  split.
  - induction s as [|c s IH]; cbn.
    + destruct (strStartsWith EmptyString sub) eqn:E; [|discriminate].
      intros _. apply strStartsWith_spec in E. destruct E as [rest E].
      exists EmptyString, rest. exact E.
    + destruct (strStartsWith (String c s) sub) eqn:E.
      * intros _. apply strStartsWith_spec in E. destruct E as [rest E].
        exists EmptyString, rest. exact E.
      * intros H. destruct (IH H) as (a & b & ->). exists (String c a), b. reflexivity.
  - intros (a & b & ->). induction a as [|c a IH].
    + cbn [String.append].
      assert (E : strStartsWith (sub +++ b) sub = true)
        by (apply strStartsWith_spec; exists b; reflexivity).
      destruct (sub +++ b); cbn; rewrite E; reflexivity.
    + cbn. destruct (strStartsWith _ sub); [reflexivity | exact IH].
Qed.

Lemma includes_here (a sub b : string) : strIncludes (a +++ sub +++ b) sub = true.
Proof. apply strIncludes_spec. exists a, b. reflexivity. Qed.

Lemma includes_trans (s t u : string) :
  strIncludes s t = true -> strIncludes t u = true -> strIncludes s u = true.
Proof.
  rewrite !strIncludes_spec. intros (a & b & ->) (c & d & ->).
  exists (a +++ c), (d +++ b). rewrite !append_assoc. reflexivity.
Qed.

Lemma includes_join (sep x : string) (parts : list string) :
  In x parts -> strIncludes (join sep parts) x = true.
Proof.
  intros Hin. apply strIncludes_spec.
  induction parts as [|p rest IH]; [destruct Hin|].
  destruct Hin as [-> | Hin].
  - destruct rest as [|q rest].
    + exists EmptyString, EmptyString. cbn. rewrite append_empty_r. reflexivity.
    + exists EmptyString, (sep +++ join sep (q :: rest)). reflexivity.
  - destruct (IH Hin) as (a & b & E).
    destruct rest as [|q rest]; [destruct Hin|].
    exists (p +++ sep +++ a), b.
    change (join sep (p :: q :: rest)) with (p +++ sep +++ join sep (q :: rest)).
    rewrite E, !append_assoc. reflexivity.
Qed.

(** *** A callback over a list *)

Lemma Normal_inj {E A} (a b : A) : @Normal E A a = Normal b -> a = b.
Proof. intros H. injection H as ->. reflexivity. Qed.

Lemma mapM_Normal {E A B} (f : A -> Completion E B) (items : list A) (ys : list B) :
  mapM f items = Normal ys -> Forall2 (fun x y => f x = Normal y) items ys.
Proof.
  revert ys. induction items as [|x rest IH]; cbn; intros ys H.
  - injection H as <-. constructor.
  - destruct (f x) as [y|e] eqn:Hx; cbn in H; [|discriminate].
    destruct (mapM f rest) as [ys'|e] eqn:Hr; cbn in H; [|discriminate].
    injection H as <-. constructor; auto.
Qed.

Lemma mapM_Throw {E A B} (f : A -> Completion E B) (items : list A) (e : E) :
  mapM f items = Throw e -> exists x, In x items /\ f x = Throw e.
Proof.
  induction items as [|x rest IH]; cbn; intros H; [discriminate|].
  destruct (f x) as [y|e'] eqn:Hx; cbn in H.
  - destruct (mapM f rest) as [ys'|e''] eqn:Hr; cbn in H; [discriminate|].
    injection H as <-. destruct (IH eq_refl) as (x' & Hin & Hx'). eauto.
  - injection H as <-. eauto.
Qed.

Lemma mapM_defined {E A B} (f : A -> Completion E B) (items : list A) :
  (forall x, In x items -> defined (f x)) -> defined (mapM f items).
Proof.
  induction items as [|x rest IH]; cbn; intros H.
  - eexists; reflexivity.
  - destruct (H x (or_introl eq_refl)) as [y ->]. cbn.
    destruct IH as [ys ->]; [intros; apply H; right; assumption|].
    cbn. eexists; reflexivity.
Qed.

Lemma Forall2_In_l {A B} (R : A -> B -> Prop) (xs : list A) (ys : list B) (x : A) :
  Forall2 R xs ys -> In x xs -> exists y, In y ys /\ R x y.
Proof.
  induction 1 as [|x' y' xs ys HR HF IH]; intros Hin; [destruct Hin|].
  destruct Hin as [-> | Hin]; [exists y'; split; [left; reflexivity | exact HR]|].
  destruct (IH Hin) as (y & Hy & Hxy). exists y. split; [right; exact Hy | exact Hxy].
Qed.

(** *** The errors name what they reject *)

Ltac occurs_between a b :=
  apply strIncludes_spec; exists a, b;
  unfold unsupportedPageType, unsupportedFieldType, unsupportedWorkflowState,
    workflowTooComplex, quoted; cbn [message];
  rewrite ?append_assoc; reflexivity.

Lemma unsupportedPageType_message (t : string) :
  strIncludes (message (unsupportedPageType t)) t = true /\
  strIncludes (message (unsupportedPageType t)) "not supported" = true.
Proof.
  split.
  - occurs_between ("Page type " +++ dquote)
      (dquote +++ " is not supported in v1. Supported types: "
         +++ join ", " SUPPORTED_PAGE_TYPES).
  - occurs_between ("Page type " +++ quoted t +++ " is ")
      (" in v1. Supported types: " +++ join ", " SUPPORTED_PAGE_TYPES).
Qed.

Lemma unsupportedFieldType_message (t : string) :
  strIncludes (message (unsupportedFieldType t)) t = true /\
  strIncludes (message (unsupportedFieldType t)) "not supported" = true.
Proof.
  split.
  - occurs_between ("Field type " +++ dquote)
      (dquote +++ " is not supported in v1. Supported types: "
         +++ join ", " SUPPORTED_FIELD_TYPES).
  - occurs_between ("Field type " +++ quoted t +++ " is ")
      (" in v1. Supported types: " +++ join ", " SUPPORTED_FIELD_TYPES).
Qed.

Lemma unsupportedWorkflowState_message (s : string) :
  strIncludes (message (unsupportedWorkflowState s)) s = true /\
  strIncludes (message (unsupportedWorkflowState s)) "not supported" = true.
Proof.
  split.
  - occurs_between ("Workflow state " +++ dquote) (dquote +++ " is not supported in v1.").
  - occurs_between ("Workflow state " +++ quoted s +++ " is ") " in v1.".
Qed.

Lemma workflowTooComplex_message (nTransitions nStates : nat) :
  strIncludes (message (workflowTooComplex nTransitions nStates))
    (showNat nTransitions +++ " transitions") = true /\
  strIncludes (message (workflowTooComplex nTransitions nStates))
    (showNat nStates +++ " states") = true /\
  strIncludes (message (workflowTooComplex nTransitions nStates)) "too complex for v1" = true.
Proof.
  split; [|split].
  - occurs_between "Workflow is too complex for v1: " (" for " +++ showNat nStates +++ " states").
  - occurs_between ("Workflow is too complex for v1: " +++ showNat nTransitions
                      +++ " transitions for ") EmptyString.
  - occurs_between "Workflow is " (": " +++ showNat nTransitions
                      +++ " transitions for " +++ showNat nStates +++ " states").
Qed.

(** *** Membership in the allow-lists *)

Lemma unsupportedIn_nil (allowed literals : list string) :
  unsupportedIn allowed literals = [] <->
  forall t, In t literals -> mem t allowed = true.
Proof.
  unfold unsupportedIn. induction literals as [|x rest IH]; cbn.
  - split; [intros _ t [] | reflexivity].
  - destruct (mem x allowed) eqn:E; cbn.
    + rewrite IH. split.
      * intros H t [<- | Hin]; auto.
      * intros H t Hin. apply H. right. exact Hin.
    + split; [discriminate|]. intros H. specialize (H x (or_introl eq_refl)). congruence.
Qed.

Lemma unsupportedIn_In (allowed literals : list string) (t : string) :
  In t (unsupportedIn allowed literals) <-> In t literals /\ mem t allowed = false.
Proof.
  unfold unsupportedIn. rewrite filter_In, negb_true_iff. reflexivity.
Qed.

Lemma includes_append_l (p s x : string) :
  strIncludes s x = true -> strIncludes (p +++ s) x = true.
Proof.
  rewrite !strIncludes_spec. intros (a & b & ->).
  exists (p +++ a), b. rewrite append_assoc. reflexivity.
Qed.

(** *** Rendering one field, one page, the pages *)

(** Membership in a list of lines put together with [::] and [++] *)
Ltac in_lines :=
  repeat (progress (cbn [In app optLine option_map]; rewrite ?in_app_iff));
  intuition auto.

Lemma renderValidationRule_unknown (r : ValidationRule) :
  mem (ruleType r) KNOWN_RULE_TYPES = false ->
  renderValidationRule r = ruleType r +++ ": " +++ showRuleValue (ruleValue r).
Proof.
  unfold mem, KNOWN_RULE_TYPES, renderValidationRule. cbn [existsb].
  rewrite !orb_false_iff. intros (-> & -> & -> & -> & -> & _). reflexivity.
Qed.

Lemma renderField_Throw (f : Field) (e : UnsupportedAppSpecFeatureError) :
  renderField f = Throw e ->
  mem (fieldType f) SUPPORTED_FIELD_TYPES = false /\ e = unsupportedFieldType (fieldType f).
Proof.
  unfold renderField. destruct (mem (fieldType f) SUPPORTED_FIELD_TYPES); cbn; intros H.
  - discriminate.
  - injection H as <-. split; reflexivity.
Qed.

Lemma renderField_Normal (f : Field) (ls : list string) :
  renderField f = Normal ls ->
  mem (fieldType f) SUPPORTED_FIELD_TYPES = true /\
  forall r, In r (rulesOf f) ->
            exists line, In line ls /\ strIncludes line (renderValidationRule r) = true.
Proof.
  unfold renderField, rulesOf.
  destruct (mem (fieldType f) SUPPORTED_FIELD_TYPES); cbn [negb]; intros H; [|discriminate].
  injection H as <-. split; [reflexivity|].
  intros r Hr. destruct (validation f) as [rs|]; [|destruct Hr].
  exists ("    Validation: " +++ join ", " (map renderValidationRule rs)). split.
  - in_lines.
  - apply includes_append_l, includes_join, in_map. exact Hr.
Qed.

Lemma renderField_defined (f : Field) :
  mem (fieldType f) SUPPORTED_FIELD_TYPES = true -> defined (renderField f).
Proof. unfold renderField. intros ->. eexists; reflexivity. Qed.

Lemma renderPage_Throw (p : Page) (e : UnsupportedAppSpecFeatureError) :
  renderPage p = Throw e ->
  (mem (pageType p) SUPPORTED_PAGE_TYPES = false /\ e = unsupportedPageType (pageType p))
  \/
  (exists f, In f (fieldsOf p) /\ mem (fieldType f) SUPPORTED_FIELD_TYPES = false /\
             e = unsupportedFieldType (fieldType f)).
Proof.
  unfold renderPage, fieldsOf.
  destruct (mem (pageType p) SUPPORTED_PAGE_TYPES); cbn [negb]; intros H.
  - right. destruct (fields p) as [fs|]; [|discriminate].
    destruct (mapM renderField fs) as [lss|e'] eqn:E; cbn in H; [discriminate|].
    injection H as <-.
    apply mapM_Throw in E. destruct E as (f & Hin & Hf).
    apply renderField_Throw in Hf. destruct Hf as [Hm ->]. exists f. auto.
  - left. injection H as <-. split; reflexivity.
Qed.

Lemma renderPage_Normal (p : Page) (ls : list string) :
  renderPage p = Normal ls ->
  mem (pageType p) SUPPORTED_PAGE_TYPES = true /\
  (forall f, In f (fieldsOf p) -> mem (fieldType f) SUPPORTED_FIELD_TYPES = true) /\
  (forall f r, In f (fieldsOf p) -> In r (rulesOf f) ->
               exists line, In line ls /\ strIncludes line (renderValidationRule r) = true).
Proof.
  unfold renderPage, fieldsOf.
  destruct (mem (pageType p) SUPPORTED_PAGE_TYPES); cbn [negb]; intros H; [|discriminate].
  split; [reflexivity|].
  destruct (fields p) as [fs|]; [|split; [intros f [] | intros f r []]].
  destruct (mapM renderField fs) as [lss|e'] eqn:E; cbn in H; [|discriminate].
  injection H as <-. apply mapM_Normal in E.
  split.
  - intros f Hin. destruct (Forall2_In_l _ _ _ _ E Hin) as (lf & _ & Hf).
    apply renderField_Normal in Hf. tauto.
  - intros f r Hin Hr. destruct (Forall2_In_l _ _ _ _ E Hin) as (lf & Hlf & Hf).
    apply renderField_Normal in Hf. destruct Hf as [_ Hf].
    destruct (Hf r Hr) as (line & Hline & Hinc). exists line. split; [|exact Hinc].
    assert (In line (concat lss)) by (apply in_concat; exists lf; split; assumption).
    in_lines.
Qed.

Lemma renderPage_defined (p : Page) :
  mem (pageType p) SUPPORTED_PAGE_TYPES = true ->
  (forall f, In f (fieldsOf p) -> mem (fieldType f) SUPPORTED_FIELD_TYPES = true) ->
  defined (renderPage p).
Proof.
  unfold renderPage, fieldsOf. intros -> Hf. cbn [negb].
  destruct (fields p) as [fs|]; [|eexists; reflexivity].
  destruct (mapM_defined renderField fs) as [lss ->];
    [intros f Hin; apply renderField_defined, Hf, Hin|].
  eexists; reflexivity.
Qed.

Lemma renderPages_Throw (ps : list Page) (e : UnsupportedAppSpecFeatureError) :
  renderPages ps = Throw e -> exists p, In p ps /\ renderPage p = Throw e.
Proof.
  unfold renderPages. destruct (mapM renderPage ps) as [lss|e'] eqn:E; cbn; intros H;
    [discriminate|].
  injection H as <-. apply mapM_Throw. exact E.
Qed.

Lemma renderPages_Normal (ps : list Page) (ls : list string) :
  renderPages ps = Normal ls ->
  forall p, In p ps ->
            exists lp, renderPage p = Normal lp /\ forall line, In line lp -> In line ls.
Proof.
  unfold renderPages. destruct (mapM renderPage ps) as [lss|e'] eqn:E; cbn; intros H;
    [|discriminate].
  injection H as <-. apply mapM_Normal in E. intros p Hin.
  destruct (Forall2_In_l _ _ _ _ E Hin) as (lp & Hlp & Hp).
  exists lp. split; [exact Hp|]. intros line Hline. right.
  apply in_concat. exists lp. split; assumption.
Qed.

Lemma renderPages_defined (ps : list Page) :
  (forall p, In p ps -> defined (renderPage p)) -> defined (renderPages ps).
Proof.
  intros H. unfold renderPages.
  destruct (mapM_defined renderPage ps H) as [lss ->]. eexists; reflexivity.
Qed.

(** *** The workflow section *)

Lemma checkState_Throw (s : string) (e : UnsupportedAppSpecFeatureError) :
  checkState s = Throw e ->
  mem s SUPPORTED_WORKFLOW_STATES = false /\ e = unsupportedWorkflowState s.
Proof.
  unfold checkState. destruct (mem s SUPPORTED_WORKFLOW_STATES); cbn; intros H.
  - discriminate.
  - injection H as <-. split; reflexivity.
Qed.

Lemma checkStates_supported (ss : list string) :
  (forall s, In s ss -> mem s SUPPORTED_WORKFLOW_STATES = true) ->
  mapM checkState ss = Normal ss.
Proof.
  induction ss as [|s rest IH]; intros H; cbn; [reflexivity|].
  unfold checkState at 1. rewrite (H s (or_introl eq_refl)). cbn.
  rewrite IH by (intros; apply H; right; assumption). reflexivity.
Qed.

Lemma checkStates_unsupported (ss : list string) (s : string) :
  In s ss -> mem s SUPPORTED_WORKFLOW_STATES = false ->
  exists e s', mapM checkState ss = Throw e /\ In s' ss /\
               mem s' SUPPORTED_WORKFLOW_STATES = false /\ e = unsupportedWorkflowState s'.
Proof.
  intros Hin Hs. destruct (mapM checkState ss) as [ys|e] eqn:E.
  - apply mapM_Normal in E. destruct (Forall2_In_l _ _ _ _ E Hin) as (y & _ & Hy).
    unfold checkState in Hy. rewrite Hs in Hy. discriminate.
  - destruct (mapM_Throw _ _ _ E) as (s' & Hin' & Hs').
    apply checkState_Throw in Hs'. destruct Hs' as [Hm ->].
    exists (unsupportedWorkflowState s'), s'. auto.
Qed.

Lemma renderWorkflow_supported (w : WorkflowConfig) :
  (forall s, In s (states w) -> mem s SUPPORTED_WORKFLOW_STATES = true) ->
  if (MAX_TRANSITIONS_PER_STATE * List.length (states w) <? List.length (transitions w))%nat
  then renderWorkflow w
       = Throw (workflowTooComplex (List.length (transitions w)) (List.length (states w)))
  else defined (renderWorkflow w).
Proof.
  intros H. unfold renderWorkflow. rewrite (checkStates_supported _ H). cbn [bind].
  destruct (_ <? _)%nat; [reflexivity | eexists; reflexivity].
Qed.

(** *** The whole document *)

Lemma supported_pages (spec : FastformAppSpec) :
  offendingPageTypes spec = [] -> offendingFieldTypes spec = [] ->
  forall p, In p (pages spec) -> defined (renderPage p).
Proof.
  unfold offendingPageTypes, offendingFieldTypes. rewrite !unsupportedIn_nil.
  intros Hp Hf p Hin. apply renderPage_defined.
  - apply Hp, in_map, Hin.
  - intros f Hfin. apply Hf, in_map. apply in_flat_map. exists p. split; assumption.
Qed.

Lemma rendered_pages_supported (spec : FastformAppSpec) (ls : list string) :
  renderPages (pages spec) = Normal ls ->
  offendingPageTypes spec = [] /\ offendingFieldTypes spec = [].
Proof.
  intros H. unfold offendingPageTypes, offendingFieldTypes. rewrite !unsupportedIn_nil.
  split.
  - intros t Ht. apply in_map_iff in Ht. destruct Ht as (p & <- & Hin).
    destruct (renderPages_Normal _ _ H p Hin) as (lp & Hp & _).
    apply renderPage_Normal in Hp. tauto.
  - intros t Ht. apply in_map_iff in Ht. destruct Ht as (f & <- & Hf).
    apply in_flat_map in Hf. destruct Hf as (p & Hin & Hf).
    destruct (renderPages_Normal _ _ H p Hin) as (lp & Hp & _).
    apply renderPage_Normal in Hp. destruct Hp as (_ & Hfs & _). auto.
Qed.

Lemma offendingLiterals_nil (spec : FastformAppSpec) :
  offendingLiterals spec = [] ->
  offendingPageTypes spec = [] /\ offendingFieldTypes spec = [] /\ offendingStates spec = [].
Proof.
  unfold offendingLiterals. intros H.
  apply app_eq_nil in H. destruct H as [H1 H]. apply app_eq_nil in H. tauto.
Qed.

(** A document inside the allow-lists compiles when its workflow is within
    the threshold, and is rejected for its complexity otherwise. *)
Lemma compile_supported (spec : FastformAppSpec) :
  offendingLiterals spec = [] ->
  if withinComplexity spec
  then defined (compileAppSpecToPrompt spec)
  else compileAppSpecToPrompt spec
       = Throw (workflowTooComplex (List.length (transitions (workflow spec)))
                  (List.length (states (workflow spec)))).
Proof.
  intros H. apply offendingLiterals_nil in H. destruct H as (Hp & Hf & Hs).
  unfold compileAppSpecToPrompt.
  destruct (renderPages_defined (pages spec) (supported_pages spec Hp Hf)) as [ls ->].
  cbn [bind].
  assert (Hw := renderWorkflow_supported (workflow spec)
                  (proj1 (unsupportedIn_nil _ _) Hs)).
  unfold withinComplexity. rewrite Nat.leb_antisym.
  destruct (_ <? _)%nat; cbn [negb].
  - rewrite Hw. reflexivity.
  - destruct Hw as [lw ->]. eexists; reflexivity.
Qed.

(** A document outside the allow-lists is rejected, and the error names one
    of its offending literals. *)
Lemma compile_offending (spec : FastformAppSpec) :
  offendingLiterals spec <> [] ->
  exists e literal,
    compileAppSpecToPrompt spec = Throw e /\
    In literal (offendingLiterals spec) /\
    strIncludes (message e) literal = true /\
    strIncludes (message e) "not supported" = true.
Proof.
  intros Hne. unfold compileAppSpecToPrompt, offendingLiterals.
  destruct (renderPages (pages spec)) as [ls|e] eqn:Epages; cbn [bind].
  - destruct (rendered_pages_supported _ _ Epages) as [Hp Hf].
    unfold offendingLiterals in Hne. rewrite Hp, Hf in Hne. cbn [app] in Hne.
    rewrite Hp, Hf. cbn [app].
    destruct (offendingStates spec) as [|s rest] eqn:Es; [congruence|].
    assert (Hs : In s (offendingStates spec)) by (rewrite Es; left; reflexivity).
    apply unsupportedIn_In in Hs. destruct Hs as [Hin Hm].
    destruct (checkStates_unsupported _ _ Hin Hm) as (e & s' & E & Hin' & Hm' & ->).
    exists (unsupportedWorkflowState s'), s'.
    unfold renderWorkflow. rewrite E. cbn [bind].
    split; [reflexivity|]. split.
    + rewrite <- Es. apply unsupportedIn_In. auto.
    + apply unsupportedWorkflowState_message.
  - destruct (renderPages_Throw _ _ Epages) as (p & Hin & Hp).
    destruct (renderPage_Throw _ _ Hp) as [[Hm ->] | (f & Hf & Hm & ->)].
    + exists (unsupportedPageType (pageType p)), (pageType p).
      split; [reflexivity|]. split; [|apply unsupportedPageType_message].
      apply in_or_app; left. apply unsupportedIn_In. split; [apply in_map, Hin | exact Hm].
    + exists (unsupportedFieldType (fieldType f)), (fieldType f).
      split; [reflexivity|]. split; [|apply unsupportedFieldType_message].
      apply in_or_app; right. apply in_or_app; left. apply unsupportedIn_In.
      split; [|exact Hm]. apply in_map, in_flat_map. exists p. split; assumption.
Qed.

(** Every validation rule of a compiled document is in the prompt. *)
Lemma compile_includes_rules (spec : FastformAppSpec) (prompt : string) :
  compileAppSpecToPrompt spec = Normal prompt ->
  forall p f r, In p (pages spec) -> In f (fieldsOf p) -> In r (rulesOf f) ->
                strIncludes prompt (renderValidationRule r) = true.
Proof.
  unfold compileAppSpecToPrompt. intros H p f r Hp Hf Hr.
  destruct (renderPages (pages spec)) as [ls|e] eqn:Epages; cbn [bind] in H; [|discriminate].
  destruct (renderWorkflow (workflow spec)) as [lw|e] eqn:Ew; cbn [bind] in H; [|discriminate].
  apply Normal_inj in H. rewrite <- H.
  destruct (renderPages_Normal _ _ Epages p Hp) as (lp & Elp & Hlp).
  apply renderPage_Normal in Elp. destruct Elp as (_ & _ & Hrules).
  destruct (Hrules f r Hf Hr) as (line & Hline & Hinc).
  apply includes_trans with (t := line); [|exact Hinc].
  apply includes_join. apply Hlp in Hline.
  rewrite !in_app_iff. auto.
Qed.

(** *** The claims about the compiler *)

(** C2.  A document with a page type, a field type or a workflow state
    outside the allow-lists is rejected with an error whose message holds
    one of the offending literals and the words "not supported"; and the
    minimal document compiles with each supported page type, each supported
    field type and each supported workflow state in turn. *)
Theorem compileAppSpecToPrompt_enforces_allow_lists :
  (forall spec, offendingLiterals spec <> [] ->
     exists e literal,
       compileAppSpecToPrompt spec = Throw e /\
       In literal (offendingLiterals spec) /\
       strIncludes (message e) literal = true /\
       strIncludes (message e) "not supported" = true) /\
  (forall t, In t SUPPORTED_PAGE_TYPES ->
     defined (compileAppSpecToPrompt (specWith [welcomePage t None] minimalWorkflow))) /\
  (forall t, In t SUPPORTED_FIELD_TYPES ->
     defined (compileAppSpecToPrompt
                (specWith [welcomePage "form"
                             (Some [plainField "testField" t "Test Field" None])]
                   minimalWorkflow))) /\
  (forall s, In s SUPPORTED_WORKFLOW_STATES ->
     defined (compileAppSpecToPrompt
                (specWith [welcomePage "welcome" None]
                   {| states := [s]; initialState := s; transitions := [] |}))).
Proof.
  split; [exact compile_offending|].
  repeat split; intros t Ht; cbn in Ht;
    repeat (destruct Ht as [<- | Ht]; [eexists; reflexivity|]); destruct Ht.
Qed.

Lemma compileAppSpecToPrompt_enforces_allow_lists_witness :
  exists e literal,
    compileAppSpecToPrompt (specWith [welcomePage "dashboard" None] minimalWorkflow)
    = Throw e /\
    In literal (offendingLiterals (specWith [welcomePage "dashboard" None] minimalWorkflow)) /\
    strIncludes (message e) literal = true /\
    strIncludes (message e) "not supported" = true.
Proof.
  apply (proj1 compileAppSpecToPrompt_enforces_allow_lists
           (specWith [welcomePage "dashboard" None] minimalWorkflow)).
  discriminate.
Defined.

(** C4, as amended.  For a document whose page types, field types and
    workflow states are all in the allow-lists, with N workflow states:
    with exactly 3N transitions it compiles; with 3N + 1 transitions or
    more it is rejected with the feature "workflow.complexity", a message
    that reports the number of transitions and the number of states, and a
    suggestion to simplify the workflow. *)
Theorem compileAppSpecToPrompt_complexity_threshold (spec : FastformAppSpec) :
  offendingLiterals spec = [] ->
  let nTransitions := List.length (transitions (workflow spec)) in
  let nStates := List.length (states (workflow spec)) in
  (nTransitions = 3 * nStates -> defined (compileAppSpecToPrompt spec)) /\
  (3 * nStates + 1 <= nTransitions ->
   exists e,
     compileAppSpecToPrompt spec = Throw e /\
     feature e = "workflow.complexity" /\
     strIncludes (message e) (showNat nTransitions +++ " transitions") = true /\
     strIncludes (message e) (showNat nStates +++ " states") = true /\
     exists advice, suggestion e = Some advice /\
                    strIncludes advice "Simplify workflow" = true).
Proof.
  intros H nTransitions nStates. pose proof (compile_supported spec H) as Hc.
  unfold withinComplexity, MAX_TRANSITIONS_PER_STATE in Hc.
  fold nTransitions nStates in Hc. split.
  - intros E. destruct (Nat.leb_spec nTransitions (3 * nStates)); [exact Hc | lia].
  - intros E. destruct (Nat.leb_spec nTransitions (3 * nStates)); [lia|].
    exists (workflowTooComplex nTransitions nStates).
    split; [exact Hc|]. split; [reflexivity|].
    destruct (workflowTooComplex_message nTransitions nStates) as (Ht & Hs & _).
    split; [exact Ht|]. split; [exact Hs|].
    eexists. split; reflexivity.
Qed.

(** Two states: six transitions compile, seven are too many. *)
Lemma compileAppSpecToPrompt_complexity_threshold_witness :
  defined (compileAppSpecToPrompt
             (specWith [welcomePage "welcome" None] (twoStateWorkflow 6))) /\
  exists e,
    compileAppSpecToPrompt (specWith [welcomePage "welcome" None] (twoStateWorkflow 7))
    = Throw e /\
    feature e = "workflow.complexity" /\
    strIncludes (message e) "7 transitions" = true /\
    strIncludes (message e) "2 states" = true /\
    exists advice, suggestion e = Some advice /\
                   strIncludes advice "Simplify workflow" = true.
Proof.
  split.
  - apply (compileAppSpecToPrompt_complexity_threshold
             (specWith [welcomePage "welcome" None] (twoStateWorkflow 6)));
      reflexivity.
  - apply (compileAppSpecToPrompt_complexity_threshold
             (specWith [welcomePage "welcome" None] (twoStateWorkflow 7)));
      [reflexivity | cbn; lia].
Defined.

(** C4, refuted as stated: with two states and six transitions, a document
    that [isValidAppSpec] accepts and that carries a field of the
    unsupported type "file" does not compile; with seven transitions it is
    rejected for the field type, not for the complexity. *)
Lemma compileAppSpecToPrompt_complexity_needs_supported_constructs :
  (AppSpec.isValidAppSpec (Encode.toJs (specWith [fileFieldPage] (twoStateWorkflow 6)))
   = Normal true /\
   List.length (transitions (twoStateWorkflow 6))
   = 3 * List.length (states (twoStateWorkflow 6)) /\
   compileAppSpecToPrompt (specWith [fileFieldPage] (twoStateWorkflow 6))
   = Throw (unsupportedFieldType "file")) /\
  (AppSpec.isValidAppSpec (Encode.toJs (specWith [fileFieldPage] (twoStateWorkflow 7)))
   = Normal true /\
   List.length (transitions (twoStateWorkflow 7))
   = 3 * List.length (states (twoStateWorkflow 7)) + 1 /\
   compileAppSpecToPrompt (specWith [fileFieldPage] (twoStateWorkflow 7))
   = Throw (unsupportedFieldType "file") /\
   feature (unsupportedFieldType "file") <> "workflow.complexity").
Proof. repeat split. discriminate. Qed.

(** C6, as amended.  For a document whose page types, field types and
    workflow states are all in the allow-lists and whose workflow is within
    the complexity threshold, a validation rule of an unknown type does not
    make the compiler throw, and the prompt holds "<type>: <value>" for
    it. *)
Theorem compileAppSpecToPrompt_renders_unknown_rules
  (spec : FastformAppSpec) (p : Page) (f : Field) (r : ValidationRule) :
  offendingLiterals spec = [] ->
  withinComplexity spec = true ->
  In p (pages spec) -> In f (fieldsOf p) -> In r (rulesOf f) ->
  mem (ruleType r) KNOWN_RULE_TYPES = false ->
  exists prompt,
    compileAppSpecToPrompt spec = Normal prompt /\
    strIncludes prompt (ruleType r +++ ": " +++ showRuleValue (ruleValue r)) = true.
Proof.
  intros Hlits Hwithin Hp Hf Hr Hunknown.
  pose proof (compile_supported spec Hlits) as Hc. rewrite Hwithin in Hc.
  destruct Hc as [prompt Hc]. exists prompt. split; [exact Hc|].
  rewrite <- (renderValidationRule_unknown r Hunknown).
  exact (compile_includes_rules spec prompt Hc p f r Hp Hf Hr).
Qed.

(** The rule of type "customRule" with value "x" *)
Lemma compileAppSpecToPrompt_renders_unknown_rules_witness :
  exists prompt,
    compileAppSpecToPrompt (specWith [customRulePage] minimalWorkflow) = Normal prompt /\
    strIncludes prompt "customRule: x" = true.
Proof.
  apply (compileAppSpecToPrompt_renders_unknown_rules
           (specWith [customRulePage] minimalWorkflow) customRulePage
           (plainField "customField" "text" "Custom Field" (Some [customRule]))
           customRule);
    try reflexivity; left; reflexivity.
Defined.

(** C6, refuted as stated: the document with the rule "customRule" and a
    workflow of two states and seven transitions, which [isValidAppSpec]
    accepts and whose every page type, field type and state is supported,
    does not compile. *)
Lemma compileAppSpecToPrompt_unknown_rule_does_not_lift_threshold :
  AppSpec.isValidAppSpec (Encode.toJs (specWith [customRulePage] (twoStateWorkflow 7)))
  = Normal true /\
  In customRule
    (rulesOf (plainField "customField" "text" "Custom Field" (Some [customRule]))) /\
  In (plainField "customField" "text" "Custom Field" (Some [customRule]))
    (fieldsOf customRulePage) /\
  mem (ruleType customRule) KNOWN_RULE_TYPES = false /\
  offendingLiterals (specWith [customRulePage] (twoStateWorkflow 7)) = [] /\
  compileAppSpecToPrompt (specWith [customRulePage] (twoStateWorkflow 7))
  = Throw (workflowTooComplex 7 2).
Proof. split; [reflexivity|]. repeat split; left; reflexivity. Qed.

End CompilerProps.

(** ** The shape of slugs *)

Module SlugProps.
Import AppNaming NamingShape NamingProps.

(** *** Prefixes and suffixes *)

Lemma dropWhile_suffix (p : N -> bool) (s : jsstring) :
  exists t, s = t ++ dropWhile p s.
Proof.
  induction s as [|c s [t IH]]; [exists []; reflexivity|].
  cbn. destruct (p c); [exists (c :: t); cbn; f_equal; exact IH | exists []; reflexivity].
Qed.

Lemma dropWhileEnd_prefix (p : N -> bool) (s : jsstring) :
  exists t, s = dropWhileEnd p s ++ t.
Proof.
  unfold dropWhileEnd. destruct (dropWhile_suffix p (rev s)) as [t H].
  exists (rev t). rewrite <- rev_app_distr, <- H, rev_involutive. reflexivity.
Qed.

Lemma beginsWith_dropWhile (p : N -> bool) (s : jsstring) :
  beginsWith p (dropWhile p s) = false.
Proof.
  induction s as [|c s IH]; [reflexivity|]. cbn.
  destruct (p c) eqn:E; [exact IH | cbn; exact E].
Qed.

Lemma endsWith_dropWhileEnd (p : N -> bool) (s : jsstring) :
  endsWith p (dropWhileEnd p s) = false.
Proof.
  unfold endsWith, dropWhileEnd. rewrite rev_involutive. apply beginsWith_dropWhile.
Qed.

Lemma beginsWith_prefix (p : N -> bool) (a t : jsstring) :
  beginsWith p (a ++ t) = false -> beginsWith p a = false.
Proof. destruct a; [reflexivity | exact (fun H => H)]. Qed.

Lemma endsWith_suffix (p : N -> bool) (t b : jsstring) :
  endsWith p (t ++ b) = false -> endsWith p b = false.
Proof. unfold endsWith. rewrite rev_app_distr. apply beginsWith_prefix. Qed.

Lemma hasAdjacent_app (p : N -> bool) (a b : jsstring) :
  hasAdjacent p (a ++ b) = false -> hasAdjacent p a = false /\ hasAdjacent p b = false.
Proof.
  induction a as [|c a IH]; cbn; [auto|].
  rewrite !orb_false_iff. intros [H1 H2]. destruct (IH H2) as [Ha Hb].
  repeat split; try assumption.
  destruct (p c); [|reflexivity]. cbn in *. destruct a; [reflexivity | exact H1].
Qed.

Lemma dropWhile_id (p : N -> bool) (s : jsstring) :
  beginsWith p s = false -> dropWhile p s = s.
Proof. destruct s as [|c s]; [reflexivity|]. cbn. intros ->. reflexivity. Qed.

Lemma dropWhileEnd_id (p : N -> bool) (s : jsstring) :
  endsWith p s = false -> dropWhileEnd p s = s.
Proof.
  unfold endsWith, dropWhileEnd. intros H. rewrite dropWhile_id by exact H.
  apply rev_involutive.
Qed.

Lemma dropWhileEnd_length (p : N -> bool) (s : jsstring) :
  (List.length (dropWhileEnd p s) <= List.length s)%nat.
Proof.
  destruct (dropWhileEnd_prefix p s) as [t H].
  rewrite H at 2. rewrite length_app. lia.
Qed.

(** *** Runs replaced by one character of the same class *)

Lemma replaceRunsFrom_separates (p : N -> bool) (h : N) (inRun : bool) (s : jsstring) :
  p h = true ->
  hasAdjacent p (replaceRunsFrom p [h] inRun s) = false /\
  (inRun = true -> beginsWith p (replaceRunsFrom p [h] inRun s) = false).
Proof.
  intros Hh. revert inRun. induction s as [|c s IH]; intros inRun; cbn; [auto|].
  destruct (p c) eqn:E.
  - destruct inRun; [apply IH|]. cbn. destruct (IH true) as [H1 H2].
    rewrite H1, (H2 eq_refl), andb_false_r. split; [reflexivity | discriminate].
  - cbn. rewrite E. cbn. destruct (IH false) as [H1 _]. auto.
Qed.

Lemma replaceRunsFrom_none (p : N -> bool) (r : jsstring) (inRun : bool) (s : jsstring) :
  (forall c, In c s -> p c = false) -> replaceRunsFrom p r inRun s = s.
Proof.
  revert inRun. induction s as [|c s IH]; intros inRun H; cbn; [reflexivity|].
  rewrite (H c (or_introl eq_refl)). f_equal. apply IH. intros d Hd. apply H. right; exact Hd.
Qed.

Lemma replaceRunsFrom_separated (inRun : bool) (s : jsstring) :
  hasAdjacent isHyphen s = false ->
  (inRun = true -> beginsWith isHyphen s = false) ->
  replaceRunsFrom isHyphen [HYPHEN] inRun s = s.
Proof.
  revert inRun. induction s as [|c s IH]; intros inRun Hadj Hbegin; cbn; [reflexivity|].
  cbn in Hadj. apply orb_false_iff in Hadj. destruct Hadj as [H1 H2].
  destruct (isHyphen c) eqn:E.
  - destruct inRun; [specialize (Hbegin eq_refl); cbn in Hbegin; congruence|].
    cbn. unfold isHyphen in E. apply N.eqb_eq in E. subst c. f_equal.
    apply IH; [exact H2 | intros _; exact H1].
  - f_equal. apply IH; [exact H2 | discriminate].
Qed.

Lemma slugChar_steps (c : N) :
  isSlugChar c = true ->
  isAscii c = true /\ asciiLower c = c /\ negb (isCombiningMark c) = true /\
  (if (c =? UNDERSCORE)%N then HYPHEN else c) = c /\
  isLowerAZ c || isDigit c || isWhiteSpace c || isHyphen c = true /\
  isWhiteSpace c = false.
Proof.
  intros H.
  assert (Ha : isAscii c = true).
  { unfold isSlugChar, isLowerAZ, isDigit, isHyphen, HYPHEN, isAscii in *.
    apply N.leb_le. repeat rewrite ?orb_true_iff, ?andb_true_iff, ?N.leb_le, ?N.eqb_eq in H. lia. }
  pose (P := fun c : N =>
            implb (isSlugChar c)
              ((asciiLower c =? c)%N && negb (isCombiningMark c) &&
               ((if (c =? UNDERSCORE)%N then HYPHEN else c) =? c)%N &&
               (isLowerAZ c || isDigit c || isWhiteSpace c || isHyphen c) &&
               negb (isWhiteSpace c))).
  assert (Hall : P c = true) by (apply for_all_ascii; [vm_compute; reflexivity | exact Ha]).
  subst P. cbv beta in Hall. rewrite H in Hall. cbn [implb] in Hall.
  repeat rewrite ?andb_true_iff, ?N.eqb_eq, ?negb_true_iff in Hall.
  rewrite negb_true_iff. tauto.
Qed.

(** What is left of a clean piece when something is cut off its end *)
Lemma clean_prefix (a t : jsstring) :
  forallb isSlugChar (a ++ t) = true ->
  beginsWith isHyphen (a ++ t) = false ->
  hasAdjacent isHyphen (a ++ t) = false ->
  forallb isSlugChar a = true /\ beginsWith isHyphen a = false /\
  hasAdjacent isHyphen a = false.
Proof.
  intros H1 H2 H3. rewrite forallb_app in H1. apply andb_true_iff in H1.
  split; [tauto|]. split; [exact (beginsWith_prefix _ _ _ H2)|].
  apply (hasAdjacent_app _ _ _ H3).
Qed.

Section WithUnicodeTables.
Variables unicodeLower unicodeNFD : jsstring -> jsstring.
Local Abbreviation generateSlug := (generateSlug unicodeLower unicodeNFD).

Lemma generateSlug_clean (text : jsstring) : isCleanSlug (generateSlug text) = true.
Proof.
  unfold AppNaming.generateSlug.
  set (s6 := map _ (map _ _)).
  assert (H6 : forall c, In c s6 ->
                         isLowerAZ c || isDigit c || isWhiteSpace c || isHyphen c = true).
  { intros c Hc. subst s6. apply in_map_iff in Hc. destruct Hc as (d & <- & _).
    destruct (isLowerAZ d || isDigit d || isWhiteSpace d || isHyphen d) eqn:E;
      [exact E | reflexivity]. }
  set (s7 := replaceRuns isWhiteSpace [HYPHEN] s6).
  assert (H7 : forall c, In c s7 -> isSlugChar c = true).
  { intros c Hc. subst s7. apply In_replaceRunsFrom in Hc.
    destruct Hc as [[<- | []] | [Hc Hw]]; [reflexivity|].
    specialize (H6 c Hc). rewrite Hw in H6. unfold isSlugChar.
    destruct (isLowerAZ c), (isDigit c), (isHyphen c); auto. }
  set (s8 := replaceRuns isHyphen [HYPHEN] s7).
  assert (H8 : forallb isSlugChar s8 = true).
  { apply forallb_forall. intros c Hc. subst s8. apply In_replaceRunsFrom in Hc.
    destruct Hc as [[<- | []] | [Hc _]]; [reflexivity | apply H7, Hc]. }
  assert (A8 : hasAdjacent isHyphen s8 = false)
    by apply (replaceRunsFrom_separates isHyphen HYPHEN false s7 eq_refl).
  clearbody s8. clear s6 H6 s7 H7.
  set (s9a := dropWhile isHyphen s8).
  assert (H9a : forallb isSlugChar s9a = true /\ hasAdjacent isHyphen s9a = false).
  { destruct (dropWhile_suffix isHyphen s8) as [t E]. fold s9a in E.
    rewrite E in H8, A8. rewrite forallb_app in H8. apply andb_true_iff in H8.
    split; [tauto | apply (hasAdjacent_app _ _ _ A8)]. }
  assert (B9a : beginsWith isHyphen s9a = false) by apply beginsWith_dropWhile.
  destruct H9a as [H9a A9a]. clearbody s9a. clear s8 H8 A8.
  set (s9 := dropWhileEnd isHyphen s9a).
  assert (E9 : endsWith isHyphen s9 = false) by apply endsWith_dropWhileEnd.
  assert (C9 : forallb isSlugChar s9 = true /\ beginsWith isHyphen s9 = false /\
               hasAdjacent isHyphen s9 = false).
  { destruct (dropWhileEnd_prefix isHyphen s9a) as [t E]. fold s9 in E.
    rewrite E in H9a, A9a, B9a. apply (clean_prefix s9 t); assumption. }
  destruct C9 as (H9 & B9 & A9). clearbody s9. clear s9a H9a A9a B9a.
  destruct (SLUG_MAX_LENGTH <? List.length s9)%nat eqn:L.
  - set (s10 := dropWhileEnd isHyphen (firstn SLUG_MAX_LENGTH s9)).
    assert (E10 : endsWith isHyphen s10 = false) by apply endsWith_dropWhileEnd.
    assert (L10 : (List.length s10 <= SLUG_MAX_LENGTH)%nat).
    { subst s10. etransitivity; [apply dropWhileEnd_length | apply firstn_le_length]. }
    destruct (dropWhileEnd_prefix isHyphen (firstn SLUG_MAX_LENGTH s9)) as [t E].
    fold s10 in E.
    assert (E' : s9 = s10 ++ (t ++ skipn SLUG_MAX_LENGTH s9))
      by (rewrite app_assoc, <- E; symmetry; apply firstn_skipn).
    rewrite E' in H9, B9, A9.
    destruct (clean_prefix _ _ H9 B9 A9) as (H10 & B10 & A10).
    unfold isCleanSlug. rewrite H10, B10, E10, A10. cbn. apply Nat.leb_le, L10.
  - unfold isCleanSlug. rewrite H9, B9, E9, A9. cbn.
    apply Nat.ltb_ge in L. apply Nat.leb_le, L.
Qed.

Lemma generateSlug_of_clean (s : jsstring) : isCleanSlug s = true -> generateSlug s = s.
Proof.
  unfold isCleanSlug. rewrite !andb_true_iff, !negb_true_iff, Nat.leb_le.
  intros [[[[Hc Hb] He] Ha] Hl]. rewrite forallb_forall in Hc.
  assert (Hascii : forallb isAscii s = true)
    by (apply forallb_forall; intros c H; apply slugChar_steps, Hc, H).
  unfold AppNaming.generateSlug, toLowerCase, normalizeNFD.
  rewrite Hascii.
  rewrite (map_fixed asciiLower s) by (intros c H; apply slugChar_steps, Hc, H).
  rewrite Hascii.
  rewrite (filter_all _ s) by (intros c H; apply slugChar_steps, Hc, H).
  rewrite (filter_all isAscii s) by (intros c H; apply slugChar_steps, Hc, H).
  rewrite (map_fixed _ s) by (intros c H; apply slugChar_steps, Hc, H).
  rewrite (map_fixed _ s)
    by (intros c H; destruct (slugChar_steps c (Hc c H)) as (_ & _ & _ & _ & -> & _);
        reflexivity).
  unfold replaceRuns.
  rewrite (replaceRunsFrom_none isWhiteSpace)
    by (intros c H; apply slugChar_steps, Hc, H).
  rewrite (replaceRunsFrom_separated false s Ha) by discriminate.
  rewrite (dropWhile_id _ _ Hb), (dropWhileEnd_id _ _ He).
  apply Nat.ltb_ge in Hl. rewrite Hl. reflexivity.
Qed.

(** X1.  Whatever the text and whatever the engine's Unicode tables, the
    slug is made of the characters a-z, 0-9 and the hyphen, is at most 30
    code units long, neither begins nor ends with a hyphen, and has no two
    hyphens in a row. *)
Theorem generateSlug_well_formed (text : jsstring) :
  forallb isSlugChar (generateSlug text) = true /\
  (List.length (generateSlug text) <= SLUG_MAX_LENGTH)%nat /\
  beginsWith isHyphen (generateSlug text) = false /\
  endsWith isHyphen (generateSlug text) = false /\
  hasAdjacent isHyphen (generateSlug text) = false.
Proof.
  pose proof (generateSlug_clean text) as H. unfold isCleanSlug in H.
  rewrite !andb_true_iff, !negb_true_iff, Nat.leb_le in H. tauto.
Qed.

(** X2.  A text that already is such a slug is its own slug. *)
Theorem generateSlug_keeps_a_slug (s : jsstring) :
  isCleanSlug s = true -> generateSlug s = s.
Proof. apply generateSlug_of_clean. Qed.

(** X3.  The slug of a slug is that slug. *)
Theorem generateSlug_idempotent (text : jsstring) :
  generateSlug (generateSlug text) = generateSlug text.
Proof. apply generateSlug_of_clean, generateSlug_clean. Qed.

End WithUnicodeTables.

Lemma generateSlug_keeps_a_slug_witness :
  generateSlug (fun s => s) (fun s => s) (str "task-manager-app") = str "task-manager-app".
Proof.
  apply (generateSlug_keeps_a_slug (fun s => s) (fun s => s) (str "task-manager-app")).
  reflexivity.
Defined.

End SlugProps.

(** ** The shape of names *)

Module NameProps.
Import AppNaming NamingShape NamingProps.

(** [lastIndexOf] finds the last occurrence, or nothing *)
Lemma lastIndexOfFrom_spec (c : N) (s : jsstring) (i found : Z) :
  (lastIndexOfFrom c s i found = found /\ forall j, nth_error s j <> Some c)
  \/
  (exists j, lastIndexOfFrom c s i found = (i + Z.of_nat j)%Z /\
             nth_error s j = Some c /\
             forall j', (j < j')%nat -> nth_error s j' <> Some c).
Proof.
  revert i found. induction s as [|d s IH]; intros i found; cbn.
  - left. split; [reflexivity|]. intros [|j]; discriminate.
  - destruct (IH (i + 1)%Z (if (d =? c)%N then i else found))
      as [[E Hnone] | (j & E & Hj & Hlast)].
    + destruct (N.eqb_spec d c) as [->|Hd].
      * right. exists 0%nat. rewrite E. split; [lia|]. split; [reflexivity|].
        intros [|j'] Hlt; [lia | apply Hnone].
      * left. split; [exact E|]. intros [|j]; cbn; [congruence | apply Hnone].
    + right. exists (S j). rewrite E. split; [lia|]. split; [exact Hj|].
      intros [|j'] Hlt; [lia | apply Hlast; lia].
Qed.

Section WithUnicodeTables.
Variables unicodeLower unicodeUpper : jsstring -> jsstring.
Local Abbreviation generateName := (generateName unicodeLower unicodeUpper).
Local Abbreviation titleCase := (titleCase unicodeLower unicodeUpper).

Lemma generateName_short (text : jsstring) :
  (List.length (titleCase text) <= NAME_MAX_LENGTH)%nat ->
  generateName text = titleCase text.
Proof.
  intros H. unfold AppNaming.generateName. fold (titleCase text).
  apply Nat.leb_le in H. rewrite H. reflexivity.
Qed.

Lemma generateName_long (text : jsstring) :
  (NAME_MAX_LENGTH < List.length (titleCase text))%nat ->
  exists k,
    (29 <= k <= 47)%nat /\
    generateName text = firstn k (titleCase text) ++ str "..." /\
    (k < 47 -> nth_error (titleCase text) k = Some SPACE)%nat /\
    (forall j, 29 <= j < 47 -> nth_error (titleCase text) j = Some SPACE -> j <= k < 47)%nat.
Proof.
  intros H. unfold AppNaming.generateName. fold (titleCase text).
  set (tc := titleCase text) in *.
  apply Nat.leb_gt in H. rewrite H. apply Nat.leb_gt in H.
  change (NAME_MAX_LENGTH - 3)%nat with 47%nat.
  unfold lastIndexOf.
  destruct (lastIndexOfFrom_spec SPACE (firstn 47 tc) 0 (-1))
    as [[E Hnone] | (j & E & Hj & Hlast)]; rewrite E.
  - exists 47%nat. cbn [Z.ltb Z.mul Z.of_nat Z.compare Pos.mul Pos.of_succ_nat Pos.succ].
    change (Z.of_nat 47 * 6 <? -1 * 10)%Z with false. cbv iota.
    split; [lia|]. split; [reflexivity|]. split; [lia|].
    intros j Hj Hs. exfalso. apply (Hnone j). rewrite nth_error_firstn.
    destruct (Nat.ltb_spec j 47); [exact Hs | lia].
  - assert (Hj47 : (j < 47)%nat).
    { rewrite nth_error_firstn in Hj. destruct (Nat.ltb_spec j 47); [assumption | discriminate]. }
    rewrite nth_error_firstn in Hj. destruct (Nat.ltb_spec j 47) as [_|]; [|lia].
    destruct (Z.ltb_spec (Z.of_nat 47 * 6) ((0 + Z.of_nat j) * 10)) as [Hcut | Hcut].
    + exists j. rewrite Z.add_0_l, Nat2Z.id, firstn_firstn, Nat.min_l by lia.
      split; [lia|]. split; [reflexivity|]. split; [intros _; exact Hj|].
      intros j' Hj' Hs. split; [|lia].
      destruct (Nat.le_gt_cases j' j) as [|Hgt]; [assumption|].
      exfalso. apply (Hlast j' Hgt). rewrite nth_error_firstn.
      destruct (Nat.ltb_spec j' 47); [exact Hs | lia].
    + exists 47%nat. split; [lia|]. split; [reflexivity|]. split; [lia|].
      intros j' Hj' Hs. exfalso.
      destruct (Nat.le_gt_cases j' j) as [|Hgt]; [lia|].
      apply (Hlast j' Hgt). rewrite nth_error_firstn.
      destruct (Nat.ltb_spec j' 47); [exact Hs | lia].
Qed.

Lemma generateName_bounded (text : jsstring) :
  (List.length (generateName text) <= NAME_MAX_LENGTH)%nat.
Proof.
  destruct (Nat.le_gt_cases (List.length (titleCase text)) NAME_MAX_LENGTH) as [H | H].
  - rewrite generateName_short; assumption.
  - destruct (generateName_long text H) as (k & Hk & -> & _).
    rewrite length_app. pose proof (firstn_le_length k (titleCase text)).
    unfold NAME_MAX_LENGTH. cbn [List.length str map list_ascii_of_string]. lia.
Qed.

(** X4.  The name is never longer than 50 code units.  A title-cased text
    of at most 50 is returned whole; a longer one is cut and given three
    dots: at the last space among its positions 29 to 46 when there is one,
    after 47 code units otherwise. *)
Theorem generateName_truncates_at_a_space (text : jsstring) :
  (List.length (generateName text) <= NAME_MAX_LENGTH)%nat /\
  (((List.length (titleCase text) <= NAME_MAX_LENGTH)%nat /\
    generateName text = titleCase text)
   \/
   ((NAME_MAX_LENGTH < List.length (titleCase text))%nat /\
    exists k,
      (29 <= k <= 47)%nat /\
      generateName text = firstn k (titleCase text) ++ str "..." /\
      (k < 47 -> nth_error (titleCase text) k = Some SPACE)%nat /\
      (forall j, 29 <= j < 47 -> nth_error (titleCase text) j = Some SPACE ->
                 j <= k < 47)%nat)).
Proof.
  split; [apply generateName_bounded|].
  destruct (Nat.le_gt_cases (List.length (titleCase text)) NAME_MAX_LENGTH) as [H | H].
  - left. split; [exact H | apply generateName_short, H].
  - right. split; [exact H | apply generateName_long, H].
Qed.

End WithUnicodeTables.
End NameProps.

(** ** The result as a whole *)

Module ResultProps.
Import AppNaming NamingShape NamingProps SlugProps NameProps.

Section WithUnicodeTables.
Variables unicodeLower unicodeUpper unicodeNFD : jsstring -> jsstring.
Local Abbreviation generateHeuristicName :=
  (generateHeuristicName unicodeLower unicodeUpper unicodeNFD).

(** X5.  For every intent the slug returned is well formed and has between
    1 and 30 code units, and the name returned has at most 50. *)
Theorem generateHeuristicName_fits (intent : jsstring) :
  isCleanSlug (slug (generateHeuristicName intent)) = true /\
  (1 <= List.length (slug (generateHeuristicName intent)) <= SLUG_MAX_LENGTH)%nat /\
  (List.length (name (generateHeuristicName intent)) <= NAME_MAX_LENGTH)%nat.
Proof.
  assert (Hfallback :
            isCleanSlug (slug fallback) = true /\
            (1 <= List.length (slug fallback) <= SLUG_MAX_LENGTH)%nat /\
            (List.length (name fallback) <= NAME_MAX_LENGTH)%nat).
  { split; [reflexivity|]. unfold SLUG_MAX_LENGTH, NAME_MAX_LENGTH. cbn. lia. }
  unfold AppNaming.generateHeuristicName.
  set (processed := stripPrefix _ _ _).
  destruct (List.length processed =? 0)%nat; [exact Hfallback|].
  destruct (List.length (generateSlug unicodeLower unicodeNFD processed) =? 0)%nat eqn:E;
    [exact Hfallback|].
  cbn [slug name]. apply Nat.eqb_neq in E.
  pose proof (generateSlug_clean unicodeLower unicodeNFD processed) as Hclean.
  split; [exact Hclean|]. split; [|apply generateName_bounded].
  unfold isCleanSlug in Hclean. rewrite !andb_true_iff, Nat.leb_le in Hclean. lia.
Qed.

End WithUnicodeTables.
End ResultProps.

(** ** White space and letter case of the intent *)

Module IntentProps.
Import AppNaming NamingShape NamingProps.

Lemma dropWhileEnd_snoc (p : N -> bool) (a : jsstring) (x : N) :
  dropWhileEnd p (a ++ [x]) = if p x then dropWhileEnd p a else a ++ [x].
Proof.
  unfold dropWhileEnd. rewrite rev_app_distr. cbn.
  destruct (p x); [reflexivity|]. cbn. rewrite rev_involutive. reflexivity.
Qed.

Lemma runsFrom_nonempty (p : N -> bool) (cur s : jsstring) :
  cur <> [] -> runsFrom p cur s <> [].
Proof.
  revert cur. induction s as [|c s IH]; intros cur H; cbn.
  - destruct cur; [congruence | discriminate].
  - destruct (p c); [destruct cur; [congruence | discriminate]|].
    apply IH. discriminate.
Qed.

Lemma join_cons (sep w : jsstring) (rest : list jsstring) :
  rest <> [] -> join sep (w :: rest) = w ++ sep ++ join sep rest.
Proof. destruct rest; [congruence | reflexivity]. Qed.

Section Runs.
(** Runs of the class [p] are replaced by the character [h], which is then
    stripped from both ends as a character of the class [q]. *)
Variables (p q : N -> bool) (h : N).
Hypothesis p_h : p h = true.
Hypothesis q_h : q h = true.
Hypothesis q_p : forall c, p c = false -> q c = false.

(** Inside a run of characters outside the class, and after the character
    that replaces what follows such a run *)
Lemma replaceRuns_runs (s : jsstring) :
  (forall pre c cur,
      p c = false ->
      dropWhileEnd q (pre ++ rev (c :: cur) ++ replaceRunsFrom p [h] false s)
      = pre ++ join [h] (runsFrom p (c :: cur) s)) /\
  (forall pre c cur,
      p c = false ->
      dropWhileEnd q (pre ++ rev (c :: cur) ++ h :: replaceRunsFrom p [h] true s)
      = pre ++ join [h] (rev (c :: cur) :: runsFrom p [] s)).
Proof.
  induction s as [|d s [IH1 IH2]]; split; intros pre c cur Hc.
  - cbn [replaceRunsFrom runsFrom join]. rewrite app_nil_r.
    cbn [rev]. rewrite app_assoc, dropWhileEnd_snoc, (q_p c Hc). reflexivity.
  - cbn [replaceRunsFrom runsFrom join].
    rewrite app_assoc, dropWhileEnd_snoc, q_h.
    cbn [rev]. rewrite app_assoc, dropWhileEnd_snoc, (q_p c Hc). reflexivity.
  - cbn [replaceRunsFrom runsFrom]. destruct (p d) eqn:Hd.
    + cbn [app]. apply IH2, Hc.
    + change (pre ++ rev (c :: cur) ++ d :: ?t) with (pre ++ rev (c :: cur) ++ [d] ++ t).
      rewrite (app_assoc (rev (c :: cur))).
      change (rev (c :: cur) ++ [d]) with (rev (d :: c :: cur)).
      apply IH1, Hd.
  - cbn [replaceRunsFrom runsFrom]. destruct (p d) eqn:Hd.
    + apply IH2, Hc.
    + rewrite join_cons by (apply runsFrom_nonempty; discriminate).
      specialize (IH1 (pre ++ rev (c :: cur) ++ [h]) d [] Hd).
      cbn [rev app] in IH1 |- *. rewrite <- ?app_assoc in IH1. rewrite <- ?app_assoc.
      cbn [app] in IH1 |- *. exact IH1.
Qed.

Lemma strip_replaceRunsFrom_runs (inRun : bool) (s : jsstring) :
  dropWhileEnd q (dropWhile q (replaceRunsFrom p [h] inRun s)) = join [h] (runs p s).
Proof.
  unfold runs. revert inRun. induction s as [|d s IH]; intros inRun; [reflexivity|].
  cbn [replaceRunsFrom runsFrom]. destruct (p d) eqn:Hd.
  - destruct inRun; [apply IH|]. cbn [app dropWhile]. rewrite q_h. apply IH.
  - cbn [dropWhile]. rewrite (q_p d Hd).
    exact (proj1 (replaceRuns_runs s) [] d [] Hd).
Qed.

End Runs.

Lemma normalizeWhiteSpace_words (intent : jsstring) :
  normalizeWhiteSpace intent = join [SPACE] (words intent).
Proof.
  apply (strip_replaceRunsFrom_runs isWhiteSpace isWhiteSpace SPACE);
    first [reflexivity | intros c H; exact H].
Qed.

Lemma runsFrom_runs (p : N -> bool) (cur s : jsstring) :
  forallb (fun c => negb (p c)) cur = true ->
  Forall (fun w => w <> [] /\ forallb (fun c => negb (p c)) w = true) (runsFrom p cur s).
Proof.
  assert (Hrev : forall cur : jsstring,
             cur <> [] -> forallb (fun c => negb (p c)) cur = true ->
             rev cur <> [] /\ forallb (fun c => negb (p c)) (rev cur) = true).
  { intros cur0 Hne H. split.
    - intros E. apply (f_equal (@rev N)) in E. rewrite rev_involutive in E. auto.
    - rewrite forallb_forall in *. intros c Hc. apply H, in_rev, Hc. }
  revert cur. induction s as [|c s IH]; intros cur H; cbn.
  - destruct cur as [|d cur]; constructor; [apply Hrev; [discriminate | exact H] | constructor].
  - destruct (p c) eqn:Hc.
    + destruct cur as [|d cur]; [apply IH; reflexivity|].
      constructor; [apply Hrev; [discriminate | exact H] | apply IH; reflexivity].
    + apply IH. cbn. rewrite Hc. exact H.
Qed.

Lemma concat_runsFrom (p : N -> bool) (cur s : jsstring) :
  concat (runsFrom p cur s) = rev cur ++ filter (fun c => negb (p c)) s.
Proof.
  revert cur. induction s as [|c s IH]; intros cur; cbn.
  - destruct cur; cbn; rewrite ?app_nil_r; reflexivity.
  - destruct (p c); cbn.
    + destruct cur as [|d cur]; [apply IH|]. cbn [concat]. rewrite IH. reflexivity.
    + rewrite IH. cbn. rewrite <- app_assoc. reflexivity.
Qed.

(** X6.  The normalised intent is the words of the intent, joined by single
    spaces; the words are the maximal runs of characters that are not white
    space: none is empty, none holds white space, and together they are the
    intent without its white space. *)
Theorem normalizeWhiteSpace_joins_the_words (intent : jsstring) :
  normalizeWhiteSpace intent = join [SPACE] (words intent) /\
  Forall (fun w => w <> [] /\ forallb (fun c => negb (isWhiteSpace c)) w = true)
         (words intent) /\
  concat (words intent) = filter (fun c => negb (isWhiteSpace c)) intent.
Proof.
  split; [apply normalizeWhiteSpace_words|].
  split; [apply runsFrom_runs; reflexivity | apply concat_runsFrom].
Qed.

(** *** Maps that respect a character class *)

Lemma dropWhile_map (p : N -> bool) (f : N -> N) (s : jsstring) :
  (forall c, p (f c) = p c) -> dropWhile p (map f s) = map f (dropWhile p s).
Proof.
  intros H. induction s as [|c s IH]; [reflexivity|]. cbn. rewrite H.
  destruct (p c); [exact IH | reflexivity].
Qed.

Lemma dropWhileEnd_map (p : N -> bool) (f : N -> N) (s : jsstring) :
  (forall c, p (f c) = p c) -> dropWhileEnd p (map f s) = map f (dropWhileEnd p s).
Proof.
  intros H. unfold dropWhileEnd. rewrite <- map_rev, dropWhile_map, map_rev by exact H.
  reflexivity.
Qed.

Lemma trim_map (f : N -> N) (s : jsstring) :
  (forall c, isWhiteSpace (f c) = isWhiteSpace c) -> trim (map f s) = map f (trim s).
Proof.
  intros H. unfold trim. rewrite dropWhile_map, dropWhileEnd_map by exact H. reflexivity.
Qed.

Lemma replaceRunsFrom_map (p : N -> bool) (f : N -> N) (r : jsstring) (inRun : bool)
      (s : jsstring) :
  (forall c, p (f c) = p c) -> map f r = r ->
  replaceRunsFrom p r inRun (map f s) = map f (replaceRunsFrom p r inRun s).
Proof.
  intros H Hr. revert inRun. induction s as [|c s IH]; intros inRun; [reflexivity|].
  cbn. rewrite H. destruct (p c).
  - destruct inRun; [apply IH|]. rewrite map_app, Hr, IH. reflexivity.
  - cbn. rewrite IH. reflexivity.
Qed.

Lemma asciiLower_whiteSpace (c : N) : isWhiteSpace (asciiLower c) = isWhiteSpace c.
Proof.
  unfold asciiLower. destruct (isUpperAZ c) eqn:E; [|reflexivity].
  unfold isUpperAZ in E. apply andb_true_iff in E. rewrite !N.leb_le in E.
  assert (H : forall d, (65 <= d <= 122)%N -> isWhiteSpace d = false).
  { intros d Hd. unfold isWhiteSpace.
    repeat rewrite ?orb_false_iff, ?andb_false_iff, ?N.leb_gt, ?N.eqb_neq. lia. }
  rewrite !H by lia. reflexivity.
Qed.

Lemma asciiLower_ascii (c : N) : isAscii c = true -> isAscii (asciiLower c) = true.
Proof.
  unfold asciiLower, isAscii. destruct (isUpperAZ c) eqn:E; [|auto].
  unfold isUpperAZ in E. apply andb_true_iff in E. rewrite !N.leb_le in *. lia.
Qed.

Lemma normalizeWhiteSpace_lower (s : jsstring) :
  normalizeWhiteSpace (map asciiLower s) = map asciiLower (normalizeWhiteSpace s).
Proof.
  unfold normalizeWhiteSpace, replaceRuns.
  rewrite replaceRunsFrom_map, trim_map by (try apply asciiLower_whiteSpace; reflexivity).
  reflexivity.
Qed.

Lemma ascii_trim (s : jsstring) : forallb isAscii s = true -> forallb isAscii (trim s) = true.
Proof.
  rewrite !forallb_forall. intros H c Hc. apply H, In_trim, Hc.
Qed.

Lemma ascii_normalizeWhiteSpace (s : jsstring) :
  forallb isAscii s = true -> forallb isAscii (normalizeWhiteSpace s) = true.
Proof.
  rewrite !forallb_forall. intros H c Hc. unfold normalizeWhiteSpace in Hc.
  apply In_trim, In_replaceRunsFrom in Hc.
  destruct Hc as [[<- | []] | [Hc _]]; [reflexivity | apply H, Hc].
Qed.

Lemma ascii_skipn (n : nat) (s : jsstring) :
  forallb isAscii s = true -> forallb isAscii (skipn n s) = true.
Proof.
  rewrite !forallb_forall. intros H c Hc. apply H.
  rewrite <- (firstn_skipn n s). apply in_or_app. right. exact Hc.
Qed.

Section WithUnicodeTables.
Variables unicodeLower unicodeUpper unicodeNFD : jsstring -> jsstring.

Local Abbreviation toLowerCase := (toLowerCase unicodeLower).
Local Abbreviation generateName := (generateName unicodeLower unicodeUpper).
Local Abbreviation generateSlug := (generateSlug unicodeLower unicodeNFD).
Local Abbreviation generateHeuristicName :=
  (generateHeuristicName unicodeLower unicodeUpper unicodeNFD).

(** X7.  Two intents with the same words, however the words are spaced,
    indented or broken into lines, get the same name and the same slug. *)
Theorem generateHeuristicName_ignores_white_space_layout (a b : jsstring) :
  words a = words b -> generateHeuristicName a = generateHeuristicName b.
Proof.
  intros H. unfold AppNaming.generateHeuristicName.
  rewrite !normalizeWhiteSpace_words, H. reflexivity.
Qed.

Lemma toLowerCase_ascii (s : jsstring) :
  forallb isAscii s = true -> toLowerCase s = map asciiLower s.
Proof. intros H. unfold AppNaming.toLowerCase. rewrite H. reflexivity. Qed.

(** The stripped remainders of two ASCII texts that agree up to case agree
    up to case, and are ASCII. *)
Lemma stripPrefix_lower (prefixes : list jsstring) (lowered a b : jsstring) :
  forallb isAscii a = true -> forallb isAscii b = true ->
  map asciiLower a = map asciiLower b ->
  let a' := stripPrefix prefixes lowered a in
  let b' := stripPrefix prefixes lowered b in
  forallb isAscii a' = true /\ forallb isAscii b' = true /\
  map asciiLower a' = map asciiLower b'.
Proof.
  intros Ha Hb H. induction prefixes as [|p prefixes IH]; cbn; [auto|].
  destruct (startsWith lowered p); [|exact IH].
  split; [apply ascii_trim, ascii_skipn, Ha|].
  split; [apply ascii_trim, ascii_skipn, Hb|].
  rewrite <- !trim_map, <- !skipn_map, H by apply asciiLower_whiteSpace. reflexivity.
Qed.

Lemma generateName_lower (a b : jsstring) :
  toLowerCase a = toLowerCase b -> generateName a = generateName b.
Proof. intros H. unfold AppNaming.generateName. rewrite H. reflexivity. Qed.

Lemma generateSlug_lower (a b : jsstring) :
  toLowerCase a = toLowerCase b -> generateSlug a = generateSlug b.
Proof. intros H. unfold AppNaming.generateSlug. rewrite H. reflexivity. Qed.

(** X8.  Two ASCII intents that differ in the case of their letters only
    get the same name and the same slug. *)
Theorem generateHeuristicName_ignores_ascii_case (a b : jsstring) :
  forallb isAscii a = true -> forallb isAscii b = true ->
  map asciiLower a = map asciiLower b ->
  generateHeuristicName a = generateHeuristicName b.
Proof.
  intros Ha Hb H. unfold AppNaming.generateHeuristicName.
  pose proof (ascii_normalizeWhiteSpace a Ha) as Na.
  pose proof (ascii_normalizeWhiteSpace b Hb) as Nb.
  assert (HN : map asciiLower (normalizeWhiteSpace a) = map asciiLower (normalizeWhiteSpace b))
    by (rewrite <- !normalizeWhiteSpace_lower, H; reflexivity).
  rewrite (toLowerCase_ascii _ Na), (toLowerCase_ascii _ Nb), <- HN.
  destruct (stripPrefix_lower COMMON_PREFIXES (map asciiLower (normalizeWhiteSpace a))
              _ _ Na Nb HN) as (Sa & Sb & HS).
  set (pa := stripPrefix _ _ (normalizeWhiteSpace a)) in *.
  set (pb := stripPrefix _ _ (normalizeWhiteSpace b)) in *.
  assert (HL : toLowerCase pa = toLowerCase pb)
    by (rewrite !toLowerCase_ascii by assumption; exact HS).
  assert (Hlen : List.length pa = List.length pb)
    by (rewrite <- (length_map asciiLower pa), HS; apply length_map).
  rewrite (generateName_lower _ _ HL), (generateSlug_lower _ _ HL), Hlen. reflexivity.
Qed.

End WithUnicodeTables.

(** A line feed, a tab and doubled spaces against single spaces *)
Lemma generateHeuristicName_ignores_white_space_layout_witness :
  generateHeuristicName (fun s => s) (fun s => s) (fun s => s)
    ([32; 32] ++ str "Task" ++ [10] ++ str "Manager" ++ [9; 32] ++ str "App")%N
  = generateHeuristicName (fun s => s) (fun s => s) (fun s => s) (str "Task Manager App").
Proof.
  apply (generateHeuristicName_ignores_white_space_layout
           (fun s => s) (fun s => s) (fun s => s)).
  reflexivity.
Defined.

Lemma generateHeuristicName_ignores_ascii_case_witness :
  generateHeuristicName (fun s => s) (fun s => s) (fun s => s) (str "i NEED a Weather App")
  = generateHeuristicName (fun s => s) (fun s => s) (fun s => s) (str "I need a weather app").
Proof.
  apply (generateHeuristicName_ignores_ascii_case
           (fun s => s) (fun s => s) (fun s => s)); reflexivity.
Defined.

End IntentProps.

(** ** The slug as the alphanumeric runs of the text *)

Module SlugRunsProps.
Import AppNaming NamingShape NamingProps SlugProps IntentProps.

(** White-space runs, then hyphen runs, replaced by a hyphen: runs of
    white space and hyphens replaced by a hyphen *)
Lemma replaceRuns_twice (b1 b2 : bool) (s : jsstring) :
  (b1 = true -> b2 = true) ->
  replaceRunsFrom isHyphen [HYPHEN] b2 (replaceRunsFrom isWhiteSpace [HYPHEN] b1 s)
  = replaceRunsFrom (fun c => isWhiteSpace c || isHyphen c) [HYPHEN] b2 s.
Proof.
  revert b1 b2. induction s as [|c s IH]; intros b1 b2 H; [reflexivity|].
  cbn [replaceRunsFrom]. destruct (isWhiteSpace c) eqn:Hw; cbn [orb].
  - destruct b1.
    + rewrite (H eq_refl). apply IH. reflexivity.
    + cbn [app replaceRunsFrom]. change (isHyphen HYPHEN) with true. cbv iota.
      rewrite IH by reflexivity. reflexivity.
  - cbn [replaceRunsFrom]. destruct (isHyphen c).
    + rewrite IH by discriminate. reflexivity.
    + rewrite IH by discriminate. reflexivity.
Qed.

Lemma runsFrom_map (p p' : N -> bool) (f : N -> N) (cur s : jsstring) :
  (forall c, p (f c) = p' c) -> (forall c, p' c = false -> f c = c) ->
  runsFrom p cur (map f s) = runsFrom p' cur s.
Proof.
  intros Hp Hf. revert cur. induction s as [|c s IH]; intros cur; [reflexivity|].
  cbn [map runsFrom]. rewrite Hp. destruct (p' c) eqn:E.
  - rewrite IH. reflexivity.
  - rewrite (Hf c E). apply IH.
Qed.

Lemma slugAlnum_plain (c : N) :
  isLowerAZ c || isDigit c = true ->
  (c =? UNDERSCORE)%N = false /\ isWhiteSpace c = false /\ isHyphen c = false.
Proof.
  unfold isLowerAZ, isDigit, isHyphen, isWhiteSpace, UNDERSCORE, HYPHEN.
  rewrite orb_true_iff, !andb_true_iff, !N.leb_le. intros H.
  repeat rewrite ?orb_false_iff, ?andb_false_iff, ?N.leb_gt, ?N.eqb_neq. lia.
Qed.

(** What the two character replacements make of a character *)
Lemma slug_replacements (c : N) :
  let c1 := if (c =? UNDERSCORE)%N then HYPHEN else c in
  let c2 := if isLowerAZ c1 || isDigit c1 || isWhiteSpace c1 || isHyphen c1
            then c1 else SPACE in
  isWhiteSpace c2 || isHyphen c2 = isSlugSeparator c /\
  (isSlugSeparator c = false -> c2 = c).
Proof.
  cbv zeta. unfold isSlugSeparator. destruct (isLowerAZ c || isDigit c) eqn:E.
  - destruct (slugAlnum_plain c E) as (-> & Hw & Hh). rewrite E, Hw, Hh.
    cbn [orb]. rewrite Hw, Hh. split; reflexivity.
  - cbn [negb]. split; [|discriminate].
    destruct (c =? UNDERSCORE)%N; [reflexivity|]. rewrite E. cbn [orb].
    destruct (isWhiteSpace c) eqn:Hw; [cbn; rewrite Hw; reflexivity|].
    destruct (isHyphen c) eqn:Hh; [cbn; rewrite Hw, Hh; reflexivity | reflexivity].
Qed.

Section WithUnicodeTables.
Variables unicodeLower unicodeNFD : jsstring -> jsstring.
Local Abbreviation generateSlug := (generateSlug unicodeLower unicodeNFD).

Lemma generateSlug_runs (text : jsstring) :
  generateSlug text
  = truncateSlug
      (join [HYPHEN]
         (runs isSlugSeparator
            (filter isAscii
               (filter (fun c => negb (isCombiningMark c))
                  (normalizeNFD unicodeNFD (toLowerCase unicodeLower text)))))).
Proof.
  unfold AppNaming.generateSlug, truncateSlug, replaceRuns. cbv zeta.
  set (s4 := filter isAscii _).
  rewrite map_map, replaceRuns_twice by discriminate.
  rewrite (strip_replaceRunsFrom_runs (fun c => isWhiteSpace c || isHyphen c) isHyphen HYPHEN)
    by first [reflexivity | intros c H; apply orb_false_iff in H; tauto].
  unfold runs.
  rewrite (runsFrom_map _ isSlugSeparator)
    by (intros c; apply slug_replacements).
  reflexivity.
Qed.

Lemma ascii_not_combining (c : N) : isAscii c = true -> negb (isCombiningMark c) = true.
Proof.
  unfold isAscii, isCombiningMark. rewrite N.leb_le, negb_true_iff, andb_false_iff, !N.leb_gt.
  lia.
Qed.

(** X16.  The slug is the runs of lower-case letters and digits of the
    text (lowered, decomposed, and rid of combining marks and of everything
    outside ASCII), joined by single hyphens, then cut to 30 code units and
    rid of a hyphen the cut leaves at the end.  For an ASCII text these are
    the runs of letters and digits of the text itself, lowered.  Every run
    is non-empty and made of such characters only, and the runs together
    are all of them. *)
Theorem generateSlug_joins_the_alphanumeric_runs :
  (forall text,
      generateSlug text
      = truncateSlug
          (join [HYPHEN]
             (runs isSlugSeparator
                (filter isAscii
                   (filter (fun c => negb (isCombiningMark c))
                      (normalizeNFD unicodeNFD (toLowerCase unicodeLower text))))))) /\
  (forall text,
      forallb isAscii text = true ->
      generateSlug text
      = truncateSlug (join [HYPHEN] (runs isSlugSeparator (map asciiLower text)))) /\
  (forall s,
      Forall (fun w => w <> [] /\ forallb (fun c => isLowerAZ c || isDigit c) w = true)
             (runs isSlugSeparator s) /\
      concat (runs isSlugSeparator s) = filter (fun c => isLowerAZ c || isDigit c) s).
Proof.
  split; [exact generateSlug_runs|]. split.
  - intros text H. rewrite generateSlug_runs. unfold toLowerCase, normalizeNFD. rewrite H.
    assert (Hl : forallb isAscii (map asciiLower text) = true).
    { rewrite forallb_forall in *. intros c Hc. apply in_map_iff in Hc.
      destruct Hc as (d & <- & Hd). apply asciiLower_ascii, H, Hd. }
    rewrite Hl. rewrite forallb_forall in Hl.
    rewrite (filter_all (fun c => negb (isCombiningMark c)))
      by (intros c Hc; apply ascii_not_combining, Hl, Hc).
    rewrite (filter_all isAscii) by exact Hl. reflexivity.
  - intros s. unfold runs. split.
    + eapply Forall_impl; [|apply (runsFrom_runs isSlugSeparator [] s); reflexivity].
      intros w [Hne Hw]. split; [exact Hne|]. rewrite forallb_forall in *.
      intros c Hc. specialize (Hw c Hc). unfold isSlugSeparator in Hw.
      rewrite negb_involutive in Hw. exact Hw.
    + rewrite concat_runsFrom. cbn [rev app]. apply filter_ext.
      intros c. unfold isSlugSeparator. apply negb_involutive.
Qed.

End WithUnicodeTables.

Lemma generateSlug_joins_the_alphanumeric_runs_witness :
  generateSlug (fun s => s) (fun s => s) (str "User's To-Do List, v2.0!")
  = truncateSlug
      (join [HYPHEN] (runs isSlugSeparator (map asciiLower (str "User's To-Do List, v2.0!")))).
Proof.
  apply (proj1 (proj2 (generateSlug_joins_the_alphanumeric_runs (fun s => s) (fun s => s)))).
  reflexivity.
Defined.

End SlugRunsProps.

(** ** Title case changes letter case only *)

Module TitleCaseProps.
Import AppNaming NamingShape NamingProps NameProps IntentProps.

Lemma join_splitFrom (inSep : bool) (cur s : jsstring) :
  (inSep = true -> cur = []) ->
  join [SPACE] (splitFrom inSep cur s)
  = rev cur ++ replaceRunsFrom isWhiteSpace [SPACE] inSep s.
Proof.
  revert inSep cur. induction s as [|c s IH]; intros inSep cur H; cbn [splitFrom replaceRunsFrom].
  - cbn. rewrite app_nil_r. reflexivity.
  - destruct (isWhiteSpace c).
    + destruct inSep.
      * rewrite (H eq_refl). apply IH. reflexivity.
      * assert (Hne : splitFrom true [] s <> []).
        { clear. generalize (@nil N) at 1. generalize true.
          induction s as [|c s IH]; intros b cur; cbn; [discriminate|].
          destruct (isWhiteSpace c); [destruct b; [apply IH | discriminate] | apply IH]. }
        destruct (splitFrom true [] s) as [|w rest] eqn:E; [congruence|].
        change (join [SPACE] (rev cur :: w :: rest))
          with (rev cur ++ [SPACE] ++ join [SPACE] (w :: rest)).
        rewrite <- E, IH by reflexivity. reflexivity.
    + rewrite IH by discriminate. cbn [rev]. rewrite <- app_assoc. reflexivity.
Qed.

Lemma In_splitFrom (inSep : bool) (cur s w : jsstring) (c : N) :
  In w (splitFrom inSep cur s) -> In c w -> In c cur \/ In c s.
Proof.
  revert inSep cur. induction s as [|d s IH]; intros inSep cur Hw Hc; cbn in Hw.
  - destruct Hw as [<- | []]. left. apply in_rev. exact Hc.
  - destruct (isWhiteSpace d).
    + destruct inSep.
      * destruct (IH _ _ Hw Hc) as [[] | H]. right. right. exact H.
      * destruct Hw as [<- | Hw]; [left; apply in_rev; exact Hc|].
        destruct (IH _ _ Hw Hc) as [[] | H]. right. right. exact H.
    + destruct (IH _ _ Hw Hc) as [[<- | H] | H]; cbn; auto.
Qed.

Lemma map_join (f : N -> N) (sep : jsstring) (ws : list jsstring) :
  map f (join sep ws) = join (map f sep) (map (map f) ws).
Proof.
  induction ws as [|w [|w' rest] IH]; [reflexivity | reflexivity |].
  change (join sep (w :: w' :: rest)) with (w ++ sep ++ join sep (w' :: rest)).
  rewrite !map_app, IH. reflexivity.
Qed.

Lemma asciiLower_not_upper (c : N) : isUpperAZ (asciiLower c) = false.
Proof.
  unfold asciiLower. destruct (isUpperAZ c) eqn:E; [|exact E].
  unfold isUpperAZ in *. apply andb_true_iff in E. rewrite !N.leb_le in E.
  apply andb_false_iff. rewrite !N.leb_gt. lia.
Qed.

Lemma asciiLower_asciiUpper (c : N) : isUpperAZ c = false -> asciiLower (asciiUpper c) = c.
Proof.
  intros H. unfold asciiUpper. destruct (isLowerAZ c) eqn:E.
  - unfold asciiLower, isLowerAZ, isUpperAZ in *. apply andb_true_iff in E.
    rewrite !N.leb_le in E.
    replace ((65 <=? c - 32) && (c - 32 <=? 90))%N with true
      by (symmetry; apply andb_true_iff; rewrite !N.leb_le; lia).
    lia.
  - unfold asciiLower. rewrite H. reflexivity.
Qed.

Lemma asciiUpper_ascii (c : N) : isAscii c = true -> isAscii (asciiUpper c) = true.
Proof.
  unfold asciiUpper, isAscii. destruct (isLowerAZ c); [|auto].
  rewrite !N.leb_le. lia.
Qed.

Section WithUnicodeTables.
Variables unicodeLower unicodeUpper : jsstring -> jsstring.
Local Abbreviation generateName := (generateName unicodeLower unicodeUpper).
Local Abbreviation titleCase := (titleCase unicodeLower unicodeUpper).
Local Abbreviation capitalize := (capitalize unicodeUpper).

Lemma capitalize_lower (w : jsstring) :
  (forall c, In c w -> isAscii c = true /\ isUpperAZ c = false) ->
  map asciiLower (capitalize w) = w.
Proof.
  intros H. destruct w as [|c w]; [reflexivity|].
  unfold AppNaming.capitalize, toUpperCase. cbn [List.length Nat.eqb firstn skipn forallb].
  rewrite (proj1 (H c (or_introl eq_refl))). cbn.
  rewrite asciiLower_asciiUpper by apply (H c (or_introl eq_refl)). f_equal.
  apply map_fixed. intros d Hd. unfold asciiLower.
  rewrite (proj2 (H d (or_intror Hd))). reflexivity.
Qed.

Lemma titleCase_lower (text : jsstring) :
  forallb isAscii text = true ->
  map asciiLower (titleCase text)
  = replaceRuns isWhiteSpace [SPACE] (map asciiLower text).
Proof.
  intros H. unfold NamingShape.titleCase, toLowerCase. rewrite H.
  rewrite map_join, map_map. change (map asciiLower [SPACE]) with [SPACE].
  rewrite (map_ext_in _ (fun w => w)).
  - rewrite map_id. unfold splitWhiteSpace. rewrite join_splitFrom by discriminate.
    reflexivity.
  - intros w Hw. apply capitalize_lower. intros c Hc.
    destruct (In_splitFrom _ _ _ _ c Hw Hc) as [[] | Hin].
    apply in_map_iff in Hin. destruct Hin as (d & <- & Hd).
    rewrite forallb_forall in H.
    split; [apply asciiLower_ascii, H, Hd | apply asciiLower_not_upper].
Qed.

(** X9.  Title-casing an ASCII text changes the case of letters and
    nothing else, apart from making every run of white space one space:
    lowered again, the title-cased text, and with it every name that needs
    no truncation, is the lowered text with its runs of white space
    replaced by single spaces. *)
Theorem generateName_changes_case_only (text : jsstring) :
  forallb isAscii text = true ->
  map asciiLower (titleCase text)
  = replaceRuns isWhiteSpace [SPACE] (map asciiLower text) /\
  ((List.length (titleCase text) <= NAME_MAX_LENGTH)%nat ->
   map asciiLower (generateName text)
   = replaceRuns isWhiteSpace [SPACE] (map asciiLower text)).
Proof.
  intros H. split; [apply titleCase_lower, H|].
  intros Hshort. rewrite generateName_short by exact Hshort. apply titleCase_lower, H.
Qed.

End WithUnicodeTables.

Lemma generateName_changes_case_only_witness :
  map asciiLower (generateName (fun s => s) (fun s => s) (str "tAsK  mAnAgEr"))
  = str "task manager".
Proof.
  apply (generateName_changes_case_only (fun s => s) (fun s => s) (str "tAsK  mAnAgEr"));
    [reflexivity | apply Nat.leb_le; reflexivity].
Defined.

End TitleCaseProps.

(** ** The verdict on typed documents *)

Module TypedProps.
Import Js AppSpec Schema Encode TypedVerdict ValidatorProps.
Local Open Scope js_scope.

Lemma every_map_pure {E A B} (f : B -> Completion E bool) (g : A -> B) (h : A -> bool)
      (l : list A) :
  (forall x, f (g x) = Normal (h x)) -> every f (map g l) = Normal (forallb h l).
Proof.
  intros H. induction l as [|x l IH]; cbn; [reflexivity|].
  rewrite H. cbn. destruct (h x); [exact IH | reflexivity].
Qed.

Lemma includes_oneOf (l : list string) (s : string) : includes l (JStr s) = oneOf l s.
Proof. reflexivity. Qed.

Lemma oneOf_roles (s : string) :
  oneOf ["PATIENT"; "STAFF"] s = (s =? "PATIENT") || (s =? "STAFF").
Proof. cbn. rewrite orb_false_r. reflexivity. Qed.

#[local] Arguments oneOf : simpl never.
#[local] Arguments includes : simpl never.

Lemma validateRoles_typed (rs : list Role) :
  validateRoles (JArr (map roleJs rs))
  = Normal (forallb (fun r => oneOf ["PATIENT"; "STAFF"] (roleId r)) rs).
Proof.
  unfold validateRoles. cbn [isArray negb callEvery]. apply every_map_pure.
  intros [i a rp]. rewrite oneOf_roles. cbn. unfold ret. cbn.
  destruct (i =? "PATIENT"), (i =? "STAFF"); reflexivity.
Qed.

Lemma validatePages_typed (ps : list Page) :
  validatePages (JArr (map pageJs ps))
  = Normal (forallb (fun p => oneOf ["PATIENT"; "STAFF"] (pageRole p)
                              && oneOf validPageTypes (pageType p)) ps).
Proof.
  unfold validatePages. cbn [isArray negb callEvery]. apply every_map_pure.
  intros [i r ro ty ti d fs acts]. unfold includesE. rewrite oneOf_roles.
  cbn. unfold ret. cbn. rewrite includes_oneOf.
  destruct (ro =? "PATIENT"), (ro =? "STAFF"); cbn;
    destruct (oneOf validPageTypes ty); reflexivity.
Qed.

Lemma every_strings (ss : list string) :
  every (fun s => @ret JsError bool (typeof s =? "string")) (map JStr ss) = Normal true.
Proof.
  rewrite (every_map_pure _ _ (fun _ => true)) by reflexivity.
  f_equal. apply forallb_forall. reflexivity.
Qed.

Lemma validateWorkflow_typed (w : WorkflowConfig) :
  validateWorkflow (workflowJs w)
  = Normal (forallb (oneOf validStates) (states w) && oneOf validStates (initialState w)).
Proof.
  destruct w as [sts ini trs]. unfold validateWorkflow, includesE, strings.
  cbn. unfold ret.
  rewrite (every_map_pure _ _ (oneOf validStates)) by reflexivity.
  cbn. destruct (forallb (oneOf validStates) sts); [|reflexivity].
  rewrite includes_oneOf. cbn.
  destruct (oneOf validStates ini); [|reflexivity]. cbn.
  rewrite (every_map_pure _ _ (fun _ => true)).
  - f_equal. apply forallb_forall. reflexivity.
  - intros [f t ar]. cbn. unfold ret. cbn. destruct f as [s | ss]; cbn; [reflexivity|].
    unfold strings. cbn. unfold ret. rewrite every_strings. reflexivity.
Qed.

Lemma validateApi_typed (a : ApiConfig) :
  validateApi (apiJs a) = Normal (baseUrl a =? "{{FASTFORM_API_URL}}").
Proof.
  destruct a as [b e]. unfold validateApi. cbn. unfold ret. cbn.
  destruct (b =? "{{FASTFORM_API_URL}}"); reflexivity.
Qed.

Lemma validateAnalytics_typed (es : list AnalyticsEvent) :
  validateAnalytics (JObj [("events", JArr (map eventJs es))])
  = Normal (forallb (fun e => oneOf validTriggers (trigger e)) es).
Proof.
  unfold validateAnalytics. cbn. unfold ret. cbn.
  apply every_map_pure. intros [n t p]. unfold includesE.
  cbn. unfold ret. cbn.
  rewrite includes_oneOf. destruct (oneOf validTriggers t); reflexivity.
Qed.

Lemma validateEnvironments_typed (e : EnvironmentConfig) :
  validateEnvironments (environmentsJs e) = Normal true.
Proof. reflexivity. Qed.

#[local] Arguments validateRoles : simpl never.
#[local] Arguments validatePages : simpl never.
#[local] Arguments validateWorkflow : simpl never.
#[local] Arguments validateApi : simpl never.
#[local] Arguments validateAnalytics : simpl never.
#[local] Arguments validateEnvironments : simpl never.

(** X10.  On a document that has the shape of the interface
    [FastformAppSpec], with arbitrary strings where the interface has
    literal types, the validator returns true exactly when the version is
    "0.3", the theme preset is "healthcare-calm", every role id and every
    page role is PATIENT or STAFF, every page type is one of the seven,
    every workflow state and the initial state are among the five, the
    API base URL is the placeholder, and every analytics trigger is one of
    the four.  Nothing else of the document bears on the verdict. *)
Theorem isValidAppSpec_on_typed_documents (spec : FastformAppSpec) :
  isValidAppSpec (toJs spec) = Normal (checkedLiterals spec).
Proof.
  unfold isValidAppSpec, topLevelInvalid, metaInvalid, themeInvalid, fails, toJs,
    checkedLiterals.
  cbn. unfold ret. cbn.
  destruct (version spec =? "0.3"); [|reflexivity]. cbn.
  destruct (preset (theme spec) =? "healthcare-calm"); [|reflexivity]. cbn.
  rewrite validateRoles_typed. cbn.
  destruct (forallb _ (roles spec)); [|reflexivity]. cbn.
  rewrite validatePages_typed. cbn.
  destruct (forallb _ (pages spec)); [|reflexivity]. cbn.
  rewrite validateWorkflow_typed. cbn.
  destruct (forallb _ (states (workflow spec))); [|reflexivity]. cbn.
  destruct (oneOf validStates (initialState (workflow spec))); [|reflexivity]. cbn.
  rewrite validateApi_typed. cbn.
  destruct (baseUrl (api spec) =? "{{FASTFORM_API_URL}}"); [|reflexivity]. cbn.
  rewrite validateAnalytics_typed. cbn.
  destruct (forallb _ (events (analytics spec))); [|reflexivity]. cbn.
  rewrite validateEnvironments_typed. reflexivity.
Qed.

End TypedProps.

(** ** What acceptance requires *)

Module RequiredProps.
Import Js AppSpec Requirements ValidatorProps.
Local Open Scope js_scope.

#[local] Arguments includes : simpl never.

Lemma every_checked {E A} (f : A -> Completion E bool) (g : A -> bool) (items : list A) :
  (forall x, f x = Normal (g x)) -> every f items = Normal (forallb g items).
Proof.
  intros H. induction items as [|x l IH]; cbn; [reflexivity|].
  rewrite H. cbn. destruct (g x); [exact IH | reflexivity].
Qed.

(** Evaluate, splitting on every test that is met on the way. *)
Ltac tests :=
  cbn; unfold ret; cbn; rewrite ?orb_true_r, ?andb_false_r, ?andb_true_r; cbn;
  repeat (match goal with
          | |- context [if ?b then _ else _] => destruct b eqn:?
          end; cbn; rewrite ?orb_true_r, ?andb_false_r, ?andb_true_r; cbn);
  try reflexivity.

(** The callbacks are the element tests, and never throw. *)
Lemma role_callback (role : JsValue) :
  (ret (truthy role) .&&
   ret (typeof role =? "object") .&&
   (isStr role.["id"] "PATIENT" .|| isStr role.["id"] "STAFF") .&&
   typeofIs role.["authRequired"] "boolean") = Normal (roleChecked role).
Proof.
  unfold roleChecked, isRole, property.
  destruct role as [| | b | n | s | items | props]; tests.
Qed.

Lemma page_callback (page : JsValue) :
  (ret (truthy page) .&&
   ret (typeof page =? "object") .&&
   typeofIs page.["id"] "string" .&&
   typeofIs page.["route"] "string" .&&
   (isStr page.["role"] "PATIENT" .|| isStr page.["role"] "STAFF") .&&
   includesE validPageTypes page.["type"] .&&
   typeofIs page.["title"] "string") = Normal (pageChecked page).
Proof.
  unfold pageChecked, isRole, property, includesE.
  destruct page as [| | b | n | s | items | props]; tests.
Qed.

Lemma transition_callback (transition : JsValue) :
  (ret (truthy transition) .&&
   ret (typeof transition =? "object") .&&
   (typeofIs transition.["from"] "string" .||
    (isArrayE transition.["from"] .&&
     (from <- transition.["from"] ;;
      callEvery from (fun s => ret (typeof s =? "string"))))) .&&
   typeofIs transition.["to"] "string" .&&
   isArrayE transition.["allowedRoles"]) = Normal (transitionChecked transition).
Proof.
  unfold transitionChecked, property.
  destruct transition as [| | b | n | s | items | props]; try solve [tests].
  cbn. unfold ret. cbn.
  destruct (lookup "from" props) as [| | b | n | s | states | fprops]; try solve [tests].
  cbn. rewrite (every_checked _ (fun s => typeof s =? "string")) by reflexivity. tests.
Qed.

Lemma event_callback (event : JsValue) :
  (ret (truthy event) .&&
   ret (typeof event =? "object") .&&
   typeofIs event.["name"] "string" .&&
   includesE validTriggers event.["trigger"]) = Normal (eventChecked event).
Proof.
  unfold eventChecked, property, includesE.
  destruct event as [| | b | n | s | items | props]; tests.
Qed.

(** Each helper is the conjunction of its tests. *)

Lemma validateRoles_exact roles :
  validateRoles roles = Normal (isArray roles && forallb roleChecked (elementsAt [] roles)).
Proof.
  unfold validateRoles.
  destruct roles as [| | b | n | s | items | props]; try reflexivity.
  cbn. apply every_checked, role_callback.
Qed.

Lemma validatePages_exact pages :
  validatePages pages = Normal (isArray pages && forallb pageChecked (elementsAt [] pages)).
Proof.
  unfold validatePages.
  destruct pages as [| | b | n | s | items | props]; try reflexivity.
  cbn. apply every_checked, page_callback.
Qed.

Lemma validateApi_exact api :
  validateApi api = Normal (meets AnObject api && all requiredOfApi api).
Proof.
  unfold validateApi, truthyE, typeofIs, isStr, GetE, all.
  destruct api as [| | b | n | s | items | props]; try solve [tests].
  cbn. unfold ret. cbn.
  destruct (lookup "endpoints" props) as [| | b | n | s | items | eprops]; tests.
Qed.

Lemma validateEnvironments_exact env :
  validateEnvironments env
  = Normal (meets AnObject env && all requiredOfEnvironments env).
Proof.
  unfold validateEnvironments, truthyE, typeofIs, isStr, GetE, all.
  destruct env as [| | b | n | s | items | props]; try solve [tests].
  cbn. unfold ret. cbn.
  destruct (lookup "staging" props) as [| | b | n | s | items | sprops];
    destruct (lookup "production" props) as [| | b' | n' | s' | items' | pprops]; tests.
Qed.

Lemma validateAnalytics_exact analytics :
  validateAnalytics analytics
  = Normal (meets AnObject analytics && all requiredOfAnalytics analytics
            && forallb eventChecked (elementsAt ["events"] analytics)).
Proof.
  unfold validateAnalytics, notArrayE, all, elementsAt.
  destruct analytics as [| | b | n | s | items | props]; try solve [tests].
  cbn. unfold ret. cbn.
  destruct (lookup "events" props) as [| | b | n | s | items | eprops]; try solve [tests].
  cbn. apply every_checked, event_callback.
Qed.

Lemma validateWorkflow_exact wf :
  validateWorkflow wf
  = Normal (meets AnObject wf && all requiredOfWorkflow wf
            && forallb (includes validStates) (elementsAt ["states"] wf)
            && includes validStates (read ["initialState"] wf)
            && forallb transitionChecked (elementsAt ["transitions"] wf)).
Proof.
  unfold validateWorkflow, notArrayE, typeofIsNot, includesE, all, elementsAt.
  destruct wf as [| | b | n | s | items | props]; try solve [tests].
  cbn. unfold ret. cbn.
  destruct (lookup "states" props) as [| | b | n | s | states | sprops]; try solve [tests].
  cbn.
  destruct (typeof (lookup "initialState" props) =? "string") eqn:Hi; [|tests].
  cbn.
  destruct (lookup "transitions" props) as [| | b | n | s | transitions | tprops];
    try solve [tests].
  cbn. rewrite (every_checked _ (includes validStates)) by reflexivity. cbn.
  destruct (forallb (includes validStates) states); [|reflexivity]. cbn.
  destruct (includes validStates (lookup "initialState" props)); [|reflexivity]. cbn.
  apply every_checked, transition_callback.
Qed.

#[local] Arguments validateRoles : simpl never.
#[local] Arguments validatePages : simpl never.
#[local] Arguments validateWorkflow : simpl never.
#[local] Arguments validateApi : simpl never.
#[local] Arguments validateAnalytics : simpl never.
#[local] Arguments validateEnvironments : simpl never.

(** The leftmost test of a condition *)
Ltac leftmost b :=
  lazymatch b with
  | andb ?x _ => leftmost x
  | orb ?x _ => leftmost x
  | negb ?x => leftmost x
  | _ => constr:(b)
  end.

Ltac impossible :=
  match goal with
  | H : _ = true |- _ => cbn in H; discriminate H
  end.

(** Follow the evaluation test by test. *)
Ltac evaluate :=
  repeat (cbn; rewrite ?orb_true_r, ?andb_false_r, ?andb_true_r; cbn;
    match goal with
    | |- Normal ?x = Normal ?x => reflexivity
    | |- context [Get (lookup ?k ?p) _] => destruct (lookup k p) eqn:?; try impossible
    | |- context [if ?b then _ else _] => let a := leftmost b in destruct a eqn:?
    end).

Lemma isValidAppSpec_exact (doc : JsValue) : isValidAppSpec doc = Normal (satisfies doc).
Proof.
  destruct doc as [| | b | n | s | items | props];
    try solve [unfold isValidAppSpec, satisfies; tests].
  unfold isValidAppSpec, topLevelInvalid, metaInvalid, themeInvalid, fails, satisfies,
      elementsAt, typeofIsNot, isNotStr, falsy, notArrayE, GetE.
  cbn. unfold ret. cbn.
  rewrite validateRoles_exact, validatePages_exact, validateWorkflow_exact,
    validateApi_exact, validateAnalytics_exact, validateEnvironments_exact.
  unfold all, elementsAt.
  evaluate.
Qed.

(** X11.  The validator returns true exactly when every required property
    is there and of the required kind, and every role, page, workflow
    state, transition and analytics event passes the test made of it; it
    never throws.  In particular a document in which one of the required
    properties is missing, or is not what is required of it, is rejected. *)
Theorem isValidAppSpec_exact_conditions :
  (forall doc, isValidAppSpec doc = Normal (satisfies doc)) /\
  (forall doc path requirement,
      In (path, requirement) requiredProperties ->
      meets requirement (read path doc) = false ->
      isValidAppSpec doc = Normal false).
Proof.
  split; [exact isValidAppSpec_exact|].
  intros doc path requirement Hin Hnot. rewrite isValidAppSpec_exact. f_equal.
  unfold satisfies, all.
  destruct (forallb _ requiredProperties) eqn:E; [|reflexivity].
  rewrite forallb_forall in E. specialize (E _ Hin). cbn [fst snd] in E. congruence.
Qed.

(** The document of the test suite with a [meta] that has lost its [slug] *)
Lemma isValidAppSpec_exact_conditions_witness :
  isValidAppSpec
    (Documents.setProperty "meta" (JObj [("name", JStr "Test App")]) Documents.validDocument)
  = Normal false.
Proof.
  apply (proj2 isValidAppSpec_exact_conditions _ ["meta"; "slug"] AString);
    [|reflexivity].
  repeat (first [left; reflexivity | right]).
Defined.

End RequiredProps.

(** ** The chat route *)

Module RouteProps.
Import Js AppSpec AppNaming NamingShape ChatRoute ValidatorProps NamingProps SlugProps.
Local Open Scope js_scope.

(** *** getClientIP *)

Lemma splitOnFrom_entry (cur entry rest : jsstring) :
  noComma entry = true ->
  exists others,
    splitOnFrom COMMA cur (entry ++ COMMA :: rest) = (rev cur ++ entry) :: others.
Proof.
  revert cur. induction entry as [|c entry IH]; intros cur H; cbn.
  - rewrite app_nil_r. eexists. reflexivity.
  - cbn in H. apply andb_true_iff in H. destruct H as [Hc H].
    apply negb_true_iff in Hc. rewrite Hc.
    destruct (IH (c :: cur) H) as [others ->]. exists others.
    cbn. rewrite <- app_assoc. reflexivity.
Qed.

Lemma splitOnFrom_single (cur entry : jsstring) :
  noComma entry = true -> splitOnFrom COMMA cur entry = [rev cur ++ entry].
Proof.
  revert cur. induction entry as [|c entry IH]; intros cur H; cbn.
  - rewrite app_nil_r. reflexivity.
  - cbn in H. apply andb_true_iff in H. destruct H as [Hc H].
    apply negb_true_iff in Hc. rewrite Hc, IH by exact H.
    cbn. rewrite <- app_assoc. reflexivity.
Qed.

Lemma splitOnFrom_nonempty (sep : N) (cur s : jsstring) : splitOnFrom sep cur s <> [].
Proof.
  revert cur. induction s as [|c s IH]; intros cur; cbn; [discriminate|].
  destruct (c =? sep)%N; [discriminate | apply IH].
Qed.

Lemma present_app (entry rest : jsstring) : present (Some (entry ++ COMMA :: rest)) = true.
Proof. destruct entry; reflexivity. Qed.

Lemma getClientIP_total (forwarded realIP : option jsstring) :
  exists ip, getClientIP forwarded realIP = Normal ip.
Proof.
  unfold getClientIP. destruct (present forwarded).
  - unfold splitOn.
    destruct (splitOnFrom COMMA [] match forwarded with Some s => s | None => [] end)
      as [|first others] eqn:E; [destruct (splitOnFrom_nonempty _ _ _ E) | eauto].
  - destruct (present realIP); eauto.
Qed.

Lemma getClientIP_entry (entry rest : jsstring) (realIP : option jsstring) :
  noComma entry = true ->
  getClientIP (Some (entry ++ COMMA :: rest)) realIP = Normal (trim entry).
Proof.
  intros H. unfold getClientIP, splitOn. rewrite present_app.
  destruct (splitOnFrom_entry [] entry rest H) as [others ->]. reflexivity.
Qed.

Lemma getClientIP_single (entry : jsstring) (realIP : option jsstring) :
  noComma entry = true -> entry <> [] ->
  getClientIP (Some entry) realIP = Normal (trim entry).
Proof.
  intros H Hne. unfold getClientIP, splitOn.
  destruct entry as [|c entry]; [congruence|]. cbn [present].
  rewrite splitOnFrom_single by exact H. reflexivity.
Qed.

Lemma first_entry (s : jsstring) :
  noComma s = true \/
  exists entry rest, s = entry ++ COMMA :: rest /\ noComma entry = true.
Proof.
  induction s as [|c s IH]; [left; reflexivity|].
  destruct (N.eqb_spec c COMMA) as [->|Hc].
  - right. exists [], s. split; reflexivity.
  - assert (Hn : negb (c =? COMMA)%N = true) by (apply negb_true_iff, N.eqb_neq, Hc).
    destruct IH as [IH | (entry & rest & -> & IH)].
    + left. cbn. rewrite Hn. exact IH.
    + right. exists (c :: entry), rest. split; [reflexivity|]. cbn. rewrite Hn. exact IH.
Qed.

Lemma trim_trimmed (s : jsstring) :
  beginsWith isWhiteSpace (trim s) = false /\ endsWith isWhiteSpace (trim s) = false.
Proof.
  unfold trim. split; [|apply endsWith_dropWhileEnd].
  destruct (dropWhileEnd_prefix isWhiteSpace (dropWhile isWhiteSpace s)) as [t E].
  pose proof (beginsWith_dropWhile isWhiteSpace s) as H. rewrite E in H.
  exact (beginsWith_prefix _ _ _ H).
Qed.

Lemma noComma_trim (s : jsstring) : noComma s = true -> noComma (trim s) = true.
Proof.
  unfold noComma. rewrite !forallb_forall. intros H c Hc. apply H, In_trim, Hc.
Qed.

(** X12.  [getClientIP] never throws.  From a non-empty [x-forwarded-for]
    it takes the text before the first comma, trimmed, whatever follows
    that comma and whatever [x-real-ip] holds; the address so obtained has
    no comma in it and no white space around it. *)
Theorem getClientIP_takes_the_first_forwarded_entry :
  (forall forwarded realIP, exists ip, getClientIP forwarded realIP = Normal ip) /\
  (forall entry rest realIP,
      noComma entry = true ->
      getClientIP (Some (entry ++ COMMA :: rest)) realIP = Normal (trim entry)) /\
  (forall entry realIP,
      noComma entry = true -> entry <> [] ->
      getClientIP (Some entry) realIP = Normal (trim entry)) /\
  (forall forwarded realIP ip,
      present forwarded = true ->
      getClientIP forwarded realIP = Normal ip ->
      noComma ip = true /\
      beginsWith isWhiteSpace ip = false /\ endsWith isWhiteSpace ip = false).
Proof.
  split; [exact getClientIP_total|]. split; [exact getClientIP_entry|].
  split; [exact getClientIP_single|].
  intros forwarded realIP ip Hp H.
  destruct forwarded as [[|c s]|]; try discriminate Hp.
  assert (Hip : exists entry, noComma entry = true /\ ip = trim entry).
  { destruct (first_entry (c :: s)) as [Hs | (entry & rest & E & He)].
    - rewrite getClientIP_single in H by (exact Hs || discriminate).
      injection H as <-. eauto.
    - rewrite E, getClientIP_entry in H by exact He. injection H as <-. eauto. }
  destruct Hip as (entry & He & ->).
  split; [apply noComma_trim, He | apply trim_trimmed].
Qed.

(** A client behind two proxies *)
Lemma getClientIP_takes_the_first_forwarded_entry_witness :
  getClientIP (Some (str "203.0.113.7, 10.0.0.1, 10.0.0.2")) (Some (str "10.0.0.2"))
  = Normal (str "203.0.113.7").
Proof.
  exact (proj1 (proj2 getClientIP_takes_the_first_forwarded_entry)
           (str "203.0.113.7") (str " 10.0.0.1, 10.0.0.2") (Some (str "10.0.0.2")) eq_refl).
Defined.

(** *** The two flows *)

Lemma nodup_nil {A} (dec : forall x y : A, {x = y} + {x <> y}) (l : list A) :
  List.length (nodup dec l) = 0%nat -> l = [].
Proof.
  destruct l as [|x l]; [reflexivity|]. intros H.
  assert (Hin : In x (nodup dec (x :: l))) by (apply nodup_In; left; reflexivity).
  destruct (nodup dec (x :: l)); [destruct Hin | discriminate].
Qed.

Lemma isSpecEmpty_total (spec : JsValue) : exists b, isSpecEmpty spec = Normal b.
Proof.
  destruct spec as [| | b | n | s | items | props]; cbn; unfold ret; cbn;
    repeat match goal with
      | |- context [if ?b then _ else _] => destruct b
      end; eauto.
Qed.

Lemma isSpecEmpty_rejected (spec : JsValue) :
  isSpecEmpty spec = Normal true -> isValidAppSpec spec = Normal false.
Proof.
  destruct spec as [| | b | n | s | items | props]; try reflexivity;
    try (intros _; apply not_object_rejected; discriminate).
  cbn. unfold ret. intros H. injection H as H. apply Nat.eqb_eq in H.
  destruct props as [|p props]; [reflexivity|].
  apply nodup_nil in H. discriminate.
Qed.

Lemma hasValidSpec_isValidAppSpec (spec : JsValue) :
  hasValidSpec spec = isValidAppSpec spec.
Proof.
  unfold hasValidSpec. cbn. destruct (truthy spec) eqn:E; [reflexivity|].
  unfold isValidAppSpec. rewrite E. reflexivity.
Qed.

(** X13.  The test [isSpecEmpty] never throws, and a spec it calls empty
    (null, undefined, an object without properties, an empty array, or any
    other falsy value) is never sent to the regeneration flow: the guard
    [existingSpec && isValidAppSpec(existingSpec)], which is
    [isValidAppSpec(existingSpec)] alone, is false of it. *)
Theorem isSpecEmpty_excludes_a_valid_spec (spec : JsValue) :
  (exists b, isSpecEmpty spec = Normal b) /\
  hasValidSpec spec = isValidAppSpec spec /\
  (isSpecEmpty spec = Normal true -> hasValidSpec spec = Normal false).
Proof.
  split; [apply isSpecEmpty_total|]. split; [apply hasValidSpec_isValidAppSpec|].
  intros H. rewrite hasValidSpec_isValidAppSpec. apply isSpecEmpty_rejected, H.
Qed.

Lemma isSpecEmpty_excludes_a_valid_spec_witness : hasValidSpec (JObj []) = Normal false.
Proof.
  apply (proj2 (proj2 (isSpecEmpty_excludes_a_valid_spec (JObj [])))). reflexivity.
Defined.

End RouteProps.

(** ** The drafts kept in memory *)

Module DraftProps.
Import Js ChatRoute.

Lemma mapGet_mapSet {V} (k k' : string) (v : V) (m : JsMap V) :
  mapGet k' (mapSet k v m) = if k =? k' then Some v else mapGet k' m.
Proof.
  induction m as [|[k0 v0] m IH]; cbn; [reflexivity|].
  destruct (String.eqb_spec k0 k) as [->|Hk]; cbn.
  - destruct (k =? k'); reflexivity.
  - rewrite IH. destruct (String.eqb_spec k0 k') as [->|Hk']; [|reflexivity].
    destruct (String.eqb_spec k k'); [congruence | reflexivity].
Qed.

Lemma mapGet_mapDelete {V} (k k' : string) (m : JsMap V) :
  mapGet k' (mapDelete k m) = if k =? k' then None else mapGet k' m.
Proof.
  unfold mapDelete.
  induction m as [|[k0 v0] m IH]; cbn; [destruct (k =? k'); reflexivity|].
  destruct (String.eqb_spec k0 k) as [->|Hk]; cbn.
  - rewrite IH. destruct (k =? k'); reflexivity.
  - rewrite IH. destruct (String.eqb_spec k0 k') as [->|Hk']; [|reflexivity].
    destruct (String.eqb_spec k k'); [congruence | reflexivity].
Qed.

Lemma mapGet_None {V} (k : string) (m : JsMap V) :
  mapGet k m = None <-> ~ In k (map fst m).
Proof.
  induction m as [|[k0 v0] m IH]; cbn; [tauto|].
  destruct (String.eqb_spec k0 k) as [->|Hk].
  - split; [discriminate | tauto].
  - rewrite IH. tauto.
Qed.

Lemma keys_mapSet {V} (k k' : string) (v : V) (m : JsMap V) :
  In k' (map fst (mapSet k v m)) <-> k' = k \/ In k' (map fst m).
Proof.
  induction m as [|[k0 v0] m IH]; cbn; [intuition congruence|].
  destruct (String.eqb_spec k0 k) as [->|Hk]; cbn; [intuition congruence|].
  rewrite IH. tauto.
Qed.

Lemma NoDup_mapSet {V} (k : string) (v : V) (m : JsMap V) :
  NoDup (map fst m) -> NoDup (map fst (mapSet k v m)).
Proof.
  induction m as [|[k0 v0] m IH]; cbn; intros H.
  - constructor; [tauto | constructor].
  - inversion H as [|? ? Hnot Hrest]; subst.
    destruct (String.eqb_spec k0 k) as [->|Hk]; cbn; constructor; auto.
    rewrite keys_mapSet. intros [-> | Hin]; [congruence | contradiction].
Qed.

Lemma NoDup_mapDelete {V} (k : string) (m : JsMap V) :
  NoDup (map fst m) -> NoDup (map fst (mapDelete k m)).
Proof.
  unfold mapDelete.
  induction m as [|[k0 v0] m IH]; cbn; intros H; [constructor|].
  inversion H as [|? ? Hnot Hrest]; subst.
  destruct (negb (k0 =? k)); cbn; auto.
  constructor; auto. intros Hin. apply Hnot.
  apply in_map_iff in Hin. destruct Hin as (e & He & Hin).
  apply filter_In in Hin. apply in_map_iff. exists e. tauto.
Qed.

Lemma cleanupEntries_get (now : Z) (entries : list (string * Z)) (store : DraftStore)
      (sessionId : string) :
  mapGet sessionId (draftAppSpecs (fold_left (cleanupEntry now) entries store))
  = (if existsb (expired now sessionId) entries then None
     else mapGet sessionId (draftAppSpecs store)) /\
  mapGet sessionId (draftTimestamps (fold_left (cleanupEntry now) entries store))
  = (if existsb (expired now sessionId) entries then None
     else mapGet sessionId (draftTimestamps store)).
Proof.
  revert store. induction entries as [|[k ts] entries IH]; intros store; [cbn; auto|].
  cbn [fold_left existsb].
  destruct (IH (cleanupEntry now store (k, ts))) as [H1 H2]. rewrite H1, H2.
  change (expired now sessionId (k, ts))
    with ((k =? sessionId) && (now - ts >? DRAFT_EXPIRY_MS)%Z).
  unfold cleanupEntry.
  destruct (now - ts >? DRAFT_EXPIRY_MS)%Z; cbn [draftAppSpecs draftTimestamps].
  - rewrite !mapGet_mapDelete, andb_true_r.
    destruct (k =? sessionId); cbn; destruct (existsb _ entries); auto.
  - rewrite andb_false_r. auto.
Qed.

Lemma expired_absent (now : Z) (sessionId : string) (entries : list (string * Z)) :
  ~ In sessionId (map fst entries) -> existsb (expired now sessionId) entries = false.
Proof.
  induction entries as [|[k ts] entries IH]; cbn [existsb map In fst]; intros H; [reflexivity|].
  change (expired now sessionId (k, ts))
    with ((k =? sessionId) && (now - ts >? DRAFT_EXPIRY_MS)%Z).
  destruct (String.eqb_spec k sessionId) as [->|Hk]; [tauto|]. cbn. apply IH. tauto.
Qed.

Lemma expired_entry (now : Z) (sessionId : string) (entries : JsMap Z) :
  NoDup (map fst entries) ->
  existsb (expired now sessionId) entries
  = match mapGet sessionId entries with
    | Some timestamp => (now - timestamp >? DRAFT_EXPIRY_MS)%Z
    | None => false
    end.
Proof.
  induction entries as [|[k ts] entries IH]; cbn [existsb map mapGet fst]; intros H;
    [reflexivity|].
  inversion H as [|? ? Hnot Hrest]; subst.
  change (expired now sessionId (k, ts))
    with ((k =? sessionId) && (now - ts >? DRAFT_EXPIRY_MS)%Z).
  destruct (String.eqb_spec k sessionId) as [->|Hk]; cbn [andb orb].
  - rewrite expired_absent by exact Hnot. apply orb_false_r.
  - apply IH, Hrest.
Qed.

Lemma cleanup_get (now : Z) (store : DraftStore) (sessionId : string) :
  inStep store ->
  mapGet sessionId (draftAppSpecs (cleanup now store))
  = match mapGet sessionId (draftTimestamps store) with
    | Some timestamp =>
        if (now - timestamp >? DRAFT_EXPIRY_MS)%Z then None
        else mapGet sessionId (draftAppSpecs store)
    | None => None
    end /\
  mapGet sessionId (draftTimestamps (cleanup now store))
  = match mapGet sessionId (draftTimestamps store) with
    | Some timestamp =>
        if (now - timestamp >? DRAFT_EXPIRY_MS)%Z then None else Some timestamp
    | None => None
    end.
Proof.
  intros [Hnodup Hsync]. unfold cleanup.
  destruct (cleanupEntries_get now (draftTimestamps store) store sessionId) as [H1 H2].
  rewrite H1, H2, expired_entry by exact Hnodup.
  specialize (Hsync sessionId). unfold mapHas in Hsync.
  destruct (mapGet sessionId (draftTimestamps store)) as [ts|].
  - destruct (now - ts >? DRAFT_EXPIRY_MS)%Z; auto.
  - destruct (mapGet sessionId (draftAppSpecs store)); [discriminate | auto].
Qed.

Lemma inStep_cleanupEntries (now : Z) (entries : list (string * Z)) (store : DraftStore) :
  inStep store -> inStep (fold_left (cleanupEntry now) entries store).
Proof.
  revert store. induction entries as [|[k ts] entries IH]; intros store H; [exact H|].
  cbn [fold_left]. apply IH. destruct H as [Hnodup Hsync]. unfold cleanupEntry.
  destruct (now - ts >? DRAFT_EXPIRY_MS)%Z; [|split; assumption].
  split; cbn.
  - apply NoDup_mapDelete, Hnodup.
  - intros sid. specialize (Hsync sid). unfold mapHas in *.
    rewrite !mapGet_mapDelete. destruct (k =? sid); [reflexivity | exact Hsync].
Qed.

Lemma inStep_storeStep (store : DraftStore) (event : StoreEvent) :
  inStep store -> inStep (storeStep store event).
Proof.
  intros H. destruct event as [sid spec now | now]; cbn.
  - destruct H as [Hnodup Hsync]. split; cbn.
    + apply NoDup_mapSet, Hnodup.
    + intros sid'. specialize (Hsync sid'). unfold mapHas in *.
      rewrite !mapGet_mapSet. destruct (sid =? sid'); [reflexivity | exact Hsync].
  - apply inStep_cleanupEntries, H.
Qed.

Lemma inStep_storeAfter (events : list StoreEvent) : inStep (storeAfter events).
Proof.
  unfold storeAfter.
  assert (H : inStep noDrafts) by (split; [constructor | reflexivity]).
  revert H. generalize noDrafts.
  induction events as [|e events IH]; intros store H; cbn; [exact H|].
  apply IH, inStep_storeStep, H.
Qed.

(** X14.  However drafts were stored and cleaned up since the process
    started, the store holds a draft for exactly the sessions it holds a
    time stamp for, and holds no session twice: no draft is out of the
    reach of the cleanup. *)
Theorem drafts_and_time_stamps_stay_in_step (events : list StoreEvent) :
  NoDup (map fst (draftTimestamps (storeAfter events))) /\
  forall sessionId,
    mapHas sessionId (draftAppSpecs (storeAfter events))
    = mapHas sessionId (draftTimestamps (storeAfter events)).
Proof. apply inStep_storeAfter. Qed.

(** X15.  A cleanup removes, with its time stamp, every draft that was last
    stored more than an hour before, and leaves every other draft and its
    time stamp as they were. *)
Theorem cleanup_removes_the_expired_drafts
        (events : list StoreEvent) (now : Z) (sessionId : string) :
  mapGet sessionId (draftAppSpecs (cleanup now (storeAfter events)))
  = match mapGet sessionId (draftTimestamps (storeAfter events)) with
    | Some timestamp =>
        if (now - timestamp >? DRAFT_EXPIRY_MS)%Z then None
        else mapGet sessionId (draftAppSpecs (storeAfter events))
    | None => None
    end /\
  mapGet sessionId (draftTimestamps (cleanup now (storeAfter events)))
  = match mapGet sessionId (draftTimestamps (storeAfter events)) with
    | Some timestamp =>
        if (now - timestamp >? DRAFT_EXPIRY_MS)%Z then None else Some timestamp
    | None => None
    end.
Proof. apply cleanup_get, inStep_storeAfter. Qed.

Lemma storeAfter_app (events more : list StoreEvent) :
  storeAfter (events ++ more) = fold_left storeStep more (storeAfter events).
Proof. apply fold_left_app. Qed.

Lemma draft_left (sessionId : string) (draftSpec : Schema.FastformAppSpec) (storedAt : Z)
      (events : list StoreEvent) (store : DraftStore) :
  inStep store ->
  mapGet sessionId (draftAppSpecs store) = Some draftSpec ->
  mapGet sessionId (draftTimestamps store) = Some storedAt ->
  forallb (leaves sessionId storedAt) events = true ->
  inStep (fold_left storeStep events store) /\
  mapGet sessionId (draftAppSpecs (fold_left storeStep events store)) = Some draftSpec /\
  mapGet sessionId (draftTimestamps (fold_left storeStep events store)) = Some storedAt.
Proof.
  revert store. induction events as [|e events IH]; intros store Hin Hs Ht H; [cbn; auto|].
  cbn [forallb] in H. apply andb_true_iff in H. destruct H as [He H].
  cbn [fold_left]. apply IH; [apply inStep_storeStep, Hin | | | exact H].
  - destruct e as [sid spec now | now]; cbn [storeStep leaves] in *.
    + apply negb_true_iff in He. cbn. rewrite mapGet_mapSet, He. exact Hs.
    + rewrite (proj1 (cleanup_get now store sessionId Hin)), Ht.
      apply Z.leb_le in He. destruct (Z.gtb_spec (now - storedAt) DRAFT_EXPIRY_MS); [lia|].
      exact Hs.
  - destruct e as [sid spec now | now]; cbn [storeStep leaves] in *.
    + apply negb_true_iff in He. cbn. rewrite mapGet_mapSet, He. exact Ht.
    + rewrite (proj2 (cleanup_get now store sessionId Hin)), Ht.
      apply Z.leb_le in He. destruct (Z.gtb_spec (now - storedAt) DRAFT_EXPIRY_MS); [lia|].
      reflexivity.
Qed.

(** X17.  A draft stored at some time is there, with that time stamp, after
    any further events that are stores for other sessions or cleanups run
    no more than an hour after that time, whatever went before; the first
    cleanup run later than that removes it. *)
Theorem draft_lives_until_the_cleanup_after_an_hour
        (before after : list StoreEvent) (sessionId : string)
        (draftSpec : Schema.FastformAppSpec) (storedAt : Z) :
  forallb (leaves sessionId storedAt) after = true ->
  (mapGet sessionId
     (draftAppSpecs (storeAfter (before ++ Stored sessionId draftSpec storedAt :: after)))
   = Some draftSpec /\
   mapGet sessionId
     (draftTimestamps (storeAfter (before ++ Stored sessionId draftSpec storedAt :: after)))
   = Some storedAt) /\
  forall now,
    (now - storedAt > DRAFT_EXPIRY_MS)%Z ->
    mapHas sessionId
      (draftAppSpecs
         (storeAfter (before ++ Stored sessionId draftSpec storedAt :: after
                      ++ [CleanedUp now])))
    = false.
Proof.
  intros H.
  assert (Hleft :
            let store := storeAfter (before ++ Stored sessionId draftSpec storedAt :: after) in
            inStep store /\
            mapGet sessionId (draftAppSpecs store) = Some draftSpec /\
            mapGet sessionId (draftTimestamps store) = Some storedAt).
  { cbv zeta. rewrite storeAfter_app. cbn [fold_left].
    apply draft_left; [apply inStep_storeStep, inStep_storeAfter | | | exact H];
      cbn; rewrite mapGet_mapSet, String.eqb_refl; reflexivity. }
  cbv zeta in Hleft. destruct Hleft as (Hin & Hs & Ht). split; [auto|].
  intros now Hnow.
  rewrite app_comm_cons, app_assoc, storeAfter_app. cbn [fold_left storeStep].
  unfold mapHas. rewrite (proj1 (cleanup_get now _ sessionId Hin)), Ht.
  destruct (Z.gtb_spec (now - storedAt) DRAFT_EXPIRY_MS); [reflexivity | lia].
Qed.

(** A draft, a draft of another session and a cleanup half an hour later,
    then a cleanup two hours later *)
Lemma draft_lives_until_the_cleanup_after_an_hour_witness :
  mapGet "a" (draftAppSpecs
                (storeAfter [Stored "a" Compiler.minimalAppSpec 0;
                             Stored "b" Compiler.minimalAppSpec 1000;
                             CleanedUp 1800000])) = Some Compiler.minimalAppSpec /\
  mapHas "a" (draftAppSpecs
                (storeAfter [Stored "a" Compiler.minimalAppSpec 0;
                             Stored "b" Compiler.minimalAppSpec 1000;
                             CleanedUp 1800000; CleanedUp 7200000])) = false.
Proof.
  destruct (draft_lives_until_the_cleanup_after_an_hour
              [] [Stored "b" Compiler.minimalAppSpec 1000%Z; CleanedUp 1800000%Z]
              "a" Compiler.minimalAppSpec 0%Z eq_refl)
    as [[H _] Hgone].
  split; [exact H | apply (Hgone 7200000%Z); reflexivity].
Defined.

End DraftProps.

(** ** The expectations of the repository's test suites, replayed *)

Module TestSuite.
Import Js.

(** [appspec.test.ts] *)
Section AppSpecTests.
Import AppSpec Documents.

Example accepts_valid_minimal_AppSpec : isValidAppSpec validDocument = Normal true.
Proof. reflexivity. Qed.

Example rejects_non_object_types :
  isValidAppSpec (JStr "string") = Normal false /\
  isValidAppSpec (JNum (Finite (123 # 1)%Q)) = Normal false /\
  isValidAppSpec (JBool true) = Normal false /\
  isValidAppSpec (JArr []) = Normal false.
Proof. repeat split. Qed.

Example rejects_wrong_version :
  isValidAppSpec (setProperty "version" (JStr "0.2") validDocument) = Normal false.
Proof. reflexivity. Qed.

Example rejects_missing_meta :
  isValidAppSpec (setProperty "meta" JUndefined validDocument) = Normal false.
Proof. reflexivity. Qed.

Example rejects_invalid_page_type :
  isValidAppSpec
    (updateProperty "pages" (mapItems (fun _ => setProperty "type" (JStr "invalid")))
       validDocument) = Normal false.
Proof. reflexivity. Qed.

Example rejects_invalid_workflow_state :
  isValidAppSpec
    (updateProperty "workflow" (setProperty "states" (strs ["INVALID_STATE"]))
       validDocument) = Normal false.
Proof. reflexivity. Qed.

Example rejects_invalid_initialState :
  isValidAppSpec
    (updateProperty "workflow" (setProperty "initialState" (JStr "INVALID_STATE"))
       validDocument) = Normal false.
Proof. reflexivity. Qed.

Example rejects_transition_missing_from :
  isValidAppSpec
    (updateProperty "workflow"
       (updateProperty "transitions" (mapItems (fun _ => setProperty "from" JUndefined)))
       validDocument) = Normal false.
Proof. reflexivity. Qed.

Example accepts_transitions_from_multiple_states :
  isValidAppSpec
    (updateProperty "workflow"
       (updateProperty "transitions"
          (mapItems (fun _ => setProperty "from" (strs ["SUBMITTED"; "NEEDS_INFO"]))))
       validDocument) = Normal true.
Proof. reflexivity. Qed.

Example rejects_null_environments :
  isValidAppSpec (setProperty "environments" JNull validDocument) = Normal false.
Proof. reflexivity. Qed.

End AppSpecTests.

(** [app-naming.test.ts], on inputs whose case conversion and normalisation
    do not depend on the engine's tables *)
Section AppNamingTests.
Import AppNaming.
Variables unicodeLower unicodeUpper unicodeNFD : jsstring -> jsstring.

Local Abbreviation named intent n s :=
  (generateHeuristicName unicodeLower unicodeUpper unicodeNFD (str intent)
   = {| name := str n; slug := str s |}).

Example strips_each_prefix :
  named "I need an expense tracker" "Expense Tracker" "expense-tracker" /\
  named "Build me a todo list" "Todo List" "todo-list" /\
  named "Build me an inventory system" "Inventory System" "inventory-system" /\
  named "Create a blog platform" "Blog Platform" "blog-platform" /\
  named "Create an online store" "Online Store" "online-store" /\
  named "Make me a contact form" "Contact Form" "contact-form" /\
  named "Make me an event calendar" "Event Calendar" "event-calendar" /\
  named "I want a music player" "Music Player" "music-player" /\
  named "I want an analytics dashboard" "Analytics Dashboard" "analytics-dashboard".
Proof. repeat split; vm_compute; reflexivity. Qed.

Example does_not_strip_partial_prefix :
  named "need a special app" "Need A Special App" "need-a-special-app".
Proof. vm_compute; reflexivity. Qed.

Example title_cases :
  named "tAsK mAnAgEr" "Task Manager" "task-manager" /\
  named "TODO LIST APP" "Todo List App" "todo-list-app" /\
  named "dashboard" "Dashboard" "dashboard".
Proof. repeat split; vm_compute; reflexivity. Qed.

Example slugifies :
  named "Task & Event Manager!" "Task & Event Manager!" "task-event-manager" /\
  named "  Task Manager  " "Task Manager" "task-manager" /\
  named "App@#$%Name" "App@#$%name" "app-name" /\
  named "User's To-Do List, v2.0!" "User's To-do List, V2.0!" "user-s-to-do-list-v2-0" /\
  named "my_task_manager" "My_task_manager" "my-task-manager" /\
  named "Task --- Manager" "Task --- Manager" "task-manager" /\
  named "---Task Manager---" "---task Manager---" "task-manager" /\
  named "Task.Manager,App" "Task.manager,app" "task-manager-app".
Proof. repeat split; vm_compute; reflexivity. Qed.

Example truncates :
  named "This Is A Very Long Application Name That Should Be Truncated At Word Boundary"
    "This Is A Very Long Application Name That..." "this-is-a-very-long-applicatio" /\
  named "this-is-a-very-long-slug-that-should-be-truncated-to-thirty-characters-maximum"
    "This-is-a-very-long-slug-that-should-be-truncat..." "this-is-a-very-long-slug-that".
Proof. repeat split; vm_compute; reflexivity. Qed.

Example edge_cases :
  named "ab" "Ab" "ab" /\
  named "I need a x" "X" "x" /\
  named "app 123 version 2" "App 123 Version 2" "app-123-version-2" /\
  named "I need a" "Untitled App" "untitled-app" /\
  named "Create a   " "Untitled App" "untitled-app" /\
  named "!@#$%^&*()" "Untitled App" "untitled-app".
Proof. repeat split; vm_compute; reflexivity. Qed.

Example newlines_and_tabs :
  generateHeuristicName unicodeLower unicodeUpper unicodeNFD
    (str "Task" ++ [10%N] ++ str "Manager" ++ [9%N] ++ str "App")
  = {| name := str "Task Manager App"; slug := str "task-manager-app" |}.
Proof. vm_compute; reflexivity. Qed.

End AppNamingTests.

(** [appspec-to-prompt.test.ts], on the modelled compiler *)
Section CompilerTests.
Import Schema Compiler.
Local Infix "+++" := String.append (at level 60, right associativity).

Example minimal_prompt_content :
  toContain (compileAppSpecToPrompt minimalAppSpec) "Test App" = true /\
  toContain (compileAppSpecToPrompt minimalAppSpec) "CONSTRAINTS" = true /\
  toContain (compileAppSpecToPrompt minimalAppSpec) "healthcare-calm" = true /\
  toContain (compileAppSpecToPrompt minimalAppSpec) "WELCOME" = true /\
  toContain (compileAppSpecToPrompt minimalAppSpec) "Initial state: DRAFT" = true.
Proof. repeat split; vm_compute; reflexivity. Qed.

Example renders_known_rules :
  let rule t v := {| ruleType := t; ruleValue := RNum v; ruleMessage := "m" |} in
  let prompt :=
    compileAppSpecToPrompt
      (specWith [welcomePage "form"
                   (Some [plainField "age" "number" "Age"
                            (Some [rule "minLength" 2%Z; rule "maxLength" 100%Z;
                                   rule "min" 0%Z; rule "max" 120%Z])])]
         minimalWorkflow) in
  toContain prompt "minimum 2 characters" = true /\
  toContain prompt "maximum 100 characters" = true /\
  toContain prompt "minimum value 0" = true /\
  toContain prompt "maximum value 120" = true.
Proof. repeat split; vm_compute; reflexivity. Qed.

Example renders_conditions :
  let conditional op v :=
    {| fieldId := "conditionalField"; fieldType := "text"; label := "Conditional Field";
       placeholder := None; required := Some false; options := None;
       condition := Some {| conditionField := "primaryField"; operator := op;
                            conditionValue := v |};
       validation := None |} in
  toContain (compileAppSpecToPrompt
               (specWith [welcomePage "form" (Some [conditional "exists" None])]
                  minimalWorkflow))
    ("shown when field " +++ quoted "primaryField" +++ " exists (exists)") = true /\
  toContain (compileAppSpecToPrompt
               (specWith [welcomePage "form"
                            (Some [conditional "not_equals" (Some (CStr "active"))])]
                  minimalWorkflow))
    ("shown when field " +++ quoted "primaryField" +++ " not_equals active") = true.
Proof. repeat split; vm_compute; reflexivity. Qed.

Example rejects_pending_approval :
  exists e,
    compileAppSpecToPrompt
      (specWith [welcomePage "welcome" None]
         {| states := ["DRAFT"; "PENDING_APPROVAL"; "APPROVED"]; initialState := "DRAFT";
            transitions := [draftToSubmitted] |}) = Throw e /\
    strIncludes (message e) "PENDING_APPROVAL" = true /\
    strIncludes (message e) "not supported" = true /\
    exists advice, suggestion e = Some advice /\
                   strIncludes advice "Use simple workflow with states:" = true.
Proof. eexists. split; [reflexivity|]. repeat split. eexists. split; reflexivity. Qed.

Example rejects_file_field :
  exists e,
    compileAppSpecToPrompt (specWith [fileFieldPage] minimalWorkflow) = Throw e /\
    feature e = "field.type.file" /\
    strIncludes (message e) "file" = true /\
    strIncludes (message e) "not supported" = true.
Proof. eexists. split; [reflexivity|]. repeat split. Qed.

End CompilerTests.

End TestSuite.
